(** * float_IEEE754: bit fields, classification and total order

    A shallow embedding of [src/class/float_IEEE754.py].  The class derives
    from Python's [float]; an instance therefore carries a binary64 value
    (the inherited float) next to the attributes computed by [__init__]
    from the bytes that [struct.pack] produces.

    The first part models the pieces of the Python runtime the class
    relies on (exceptions, [int], [str], [bytes], [bitarray], [struct]);
    the second part is the class itself, function by function, with
    [sys.byteorder] as a parameter; the theorems come last.  Functions
    return a [result]: a value, or the exception the Python code raises.

    Not represented: the attribute [mantissa] (a [Decimal] sum turned into
    a float), the self-test [floatIEEE754vsPythonFloat] and [test], and
    the command line. *)

From Stdlib Require Import ZArith List String Ascii Bool Lia DecimalString.
From Stdlib Require Import Sorted.
From Stdlib Require Strings.Byte.
From Stdlib Require Import Floats.SpecFloat.
Import ListNotations.

Local Open Scope string_scope.
Local Open Scope list_scope.
Local Open Scope Z_scope.

(** ** Exceptions and results *)

Inductive exception : Type :=
| ValueError (msg : string)
| OverflowError (msg : string)
| TypeError (msg : string)
| AttributeError (msg : string)
| NameError (name : string)
| KeyError (key : string)
| IndexError (msg : string)
| StructError (msg : string).

Inductive result (A : Type) : Type :=
| Ok (a : A)
| Raise (e : exception).

Arguments Ok {A} a.
Arguments Raise {A} e.

Definition bind {A B : Type} (c : result A) (k : A -> result B) : result B :=
  match c with
  | Ok a => k a
  | Raise e => Raise e
  end.

Notation "x <- c ;; k" := (bind c (fun x => k))
  (at level 61, c at next level, right associativity).
Notation "'check' b 'else_raise' e ;; k" := (if b then k else Raise e)
  (at level 61, b at level 200, e at next level, right associativity).

Definition succeeds {A : Type} (c : result A) : Prop := exists a, c = Ok a.

(** ** Python sequences: indexing and slicing *)

Section Sequences.
Context {A : Type}.

Definition py_len (l : list A) : Z := Z.of_nat (List.length l).

(** [l[i]]: negative indices count from the end. *)
Definition py_getitem (l : list A) (i : Z) : result A :=
  let n := py_len l in
  let j := if i <? 0 then i + n else i in
  if (0 <=? j) && (j <? n) then
    match nth_error l (Z.to_nat j) with
    | Some a => Ok a
    | None => Raise (IndexError "index out of range")
    end
  else Raise (IndexError "index out of range").

(** [l[i] = v] on a mutable sequence. *)
Fixpoint set_nth (l : list A) (n : nat) (v : A) : list A :=
  match l, n with
  | [], _ => []
  | _ :: t, O => v :: t
  | h :: t, S n' => h :: set_nth t n' v
  end.

Definition py_setitem (l : list A) (i : Z) (v : A) : result (list A) :=
  let n := py_len l in
  let j := if i <? 0 then i + n else i in
  if (0 <=? j) && (j <? n) then Ok (set_nth l (Z.to_nat j) v)
  else Raise (IndexError "assignment index out of range").

Definition clamp_index (n i : Z) : Z :=
  if i <? 0 then Z.max (i + n) 0 else Z.min i n.

(** [l[start:stop]]; [None] stands for an omitted bound. *)
Definition py_slice (l : list A) (start stop : option Z) : list A :=
  let n := py_len l in
  let a := match start with Some i => clamp_index n i | None => 0 end in
  let b := match stop with Some i => clamp_index n i | None => n end in
  firstn (Z.to_nat (b - a)) (skipn (Z.to_nat a) l).
End Sequences.

Definition str_slice (s : string) (start stop : option Z) : string :=
  string_of_list_ascii (py_slice (list_ascii_of_string s) start stop).

Definition str_len (s : string) : Z := Z.of_nat (String.length s).

Fixpoint str_repeat (c : ascii) (n : nat) : string :=
  match n with
  | O => EmptyString
  | S n' => String c (str_repeat c n')
  end.

(** ** Python integers *)

(** [int.bit_length()]: the number of bits of the absolute value. *)
Definition bit_length (x : Z) : Z :=
  if x =? 0 then 0 else Z.log2 (Z.abs x) + 1.

Fixpoint pos_bin (p : positive) (acc : string) : string :=
  match p with
  | xH => String "1" acc
  | xO q => pos_bin q (String "0" acc)
  | xI q => pos_bin q (String "1" acc)
  end.

(** [f'{x:0b}']: binary digits, with a leading minus sign for negatives. *)
Definition format_b (x : Z) : string :=
  match x with
  | Z0 => "0"
  | Zpos p => pos_bin p EmptyString
  | Zneg p => String "-" (pos_bin p EmptyString)
  end.

(** [str.zfill(width)]: zeros go after a leading sign. *)
Definition zfill (s : string) (width : Z) : string :=
  let pad := str_repeat "0" (Z.to_nat (width - str_len s)) in
  match s with
  | String c rest =>
      if (Ascii.eqb c "-" || Ascii.eqb c "+")%bool
      then String c (pad ++ rest)
      else pad ++ s
  | EmptyString => pad
  end.

(** [int(s, base)] on a [str]: surrounding whitespace, an optional
    sign, an optional base prefix when it agrees with [base], digits with
    single underscores between them; base 0 reads the base from the
    prefix.

    A [string] stands for a [str] of code points below 256.  [int] skips
    the characters that C's [Py_ISSPACE] accepts: 9 to 13 and 32.  On a
    [str] that is not ASCII it first turns the Unicode spaces above 126
    into blanks: below 256 these are U+0085 and U+00A0.  The separators
    28 to 31 are not skipped. *)
Definition is_space (c : ascii) : bool :=
  let n := Z.of_N (N_of_ascii c) in
  ((9 <=? n) && (n <=? 13)) || (n =? 32) || (n =? 133) || (n =? 160).

Fixpoint lstrip (cs : list ascii) : list ascii :=
  match cs with
  | c :: cs' => if is_space c then lstrip cs' else cs
  | [] => []
  end.

Definition strip (cs : list ascii) : list ascii :=
  rev (lstrip (rev (lstrip cs))).

Definition digit_val (c : ascii) : option Z :=
  let n := Z.of_N (N_of_ascii c) in
  if (48 <=? n) && (n <=? 57) then Some (n - 48)
  else if (97 <=? n) && (n <=? 122) then Some (n - 87)
  else if (65 <=? n) && (n <=? 90) then Some (n - 55)
  else None.

Fixpoint parse_digits (base : Z) (cs : list ascii) (acc : Z)
    (after_digit : bool) : option Z :=
  match cs with
  | [] => if after_digit then Some acc else None
  | c :: cs' =>
      if Ascii.eqb c "_" then
        if after_digit then parse_digits base cs' acc false else None
      else
        match digit_val c with
        | Some d =>
            if d <? base then parse_digits base cs' (acc * base + d) true
            else None
        | None => None
        end
  end.

Definition prefix_base (c : ascii) : option Z :=
  if (Ascii.eqb c "b" || Ascii.eqb c "B")%bool then Some 2
  else if (Ascii.eqb c "o" || Ascii.eqb c "O")%bool then Some 8
  else if (Ascii.eqb c "x" || Ascii.eqb c "X")%bool then Some 16
  else None.

(** A base prefix that [int] accepts for [base], and what follows it. *)
Definition split_prefix (base : Z) (cs : list ascii) : option (Z * list ascii) :=
  match cs with
  | z :: c :: rest =>
      if Ascii.eqb z "0" then
        match prefix_base c with
        | Some b => if (base =? b) || (base =? 0) then Some (b, rest) else None
        | None => None
        end
      else None
  | _ => None
  end.

Definition parse_magnitude (base : Z) (cs : list ascii) : option Z :=
  match split_prefix base cs with
  | Some (b, rest) =>
      match rest with
      | u :: rest' =>
          if Ascii.eqb u "_" then parse_digits b rest' 0 false
          else parse_digits b rest 0 false
      | [] => None
      end
  | None =>
      if base =? 0 then
        match parse_digits 10 cs 0 false, cs with
        | Some v, z :: _ :: _ =>
            if Ascii.eqb z "0" && negb (v =? 0) then None else Some v
        | r, _ => r
        end
      else parse_digits base cs 0 false
  end.

(** The limit on the length of a decimal string
    ([sys.get_int_max_str_digits()], 4300 unless the program changes it):
    in a base that is not a power of two, [int] counts the digits of the
    run of digits and single underscores it is about to convert, leading
    zeros included, and refuses more than the limit. *)
Definition int_max_str_digits : Z := 4300.

Definition power_of_two (b : Z) : bool :=
  (b =? 2) || (b =? 4) || (b =? 8) || (b =? 16) || (b =? 32).

(** Number of digits of the leading run of digits and underscores;
    [None] when an underscore is doubled, leads or ends the run. *)
Fixpoint count_digits (base : Z) (cs : list ascii) (after_digit : bool)
    (n : Z) : option Z :=
  let stop := if after_digit then Some n else None in
  match cs with
  | [] => stop
  | c :: cs' =>
      if Ascii.eqb c "_" then
        if after_digit then count_digits base cs' false n else None
      else
        match digit_val c with
        | Some d =>
            if d <? base then count_digits base cs' true (n + 1) else stop
        | None => stop
        end
  end.

Definition exceeds_digit_limit (base : Z) (cs : list ascii) : bool :=
  match split_prefix base cs with
  | Some _ => false
  | None =>
      let b := if base =? 0 then 10 else base in
      negb (power_of_two b) &&
      match count_digits b cs false 0 with
      | Some n => int_max_str_digits <? n
      | None => false
      end
  end.

Definition py_int (s : string) (base : Z) : result Z :=
  check (base =? 0) || ((2 <=? base) && (base <=? 36))
    else_raise ValueError "int() base must be >= 2 and <= 36, or 0" ;;
  let cs := strip (list_ascii_of_string s) in
  let '(neg, body) :=
    match cs with
    | c :: rest =>
        if Ascii.eqb c "-" then (true, rest)
        else if Ascii.eqb c "+" then (false, rest)
        else (false, cs)
    | [] => (false, [])
    end in
  check negb (exceeds_digit_limit base body)
    else_raise ValueError "Exceeds the limit (4300 digits) for integer string conversion" ;;
  match parse_magnitude base body with
  | Some v => Ok (if neg then - v else v)
  | None => Raise (ValueError "invalid literal for int()")
  end.

(** ** bytes and bitarray

    A [bitarray] is a list of bits; [frombytes] and [tobytes] use the
    library's default big-endian bit order (most significant bit of a byte
    first). *)

Definition bytes := list Byte.byte.
Definition bitarray := list bool.

Inductive byteorder : Type := Little | Big.

Definition byteorder_name (o : byteorder) : string :=
  match o with Little => "little" | Big => "big" end.

Definition byte_bits (b : Byte.byte) : bitarray :=
  let '(b0, (b1, (b2, (b3, (b4, (b5, (b6, b7))))))) := Byte.to_bits b in
  [b7; b6; b5; b4; b3; b2; b1; b0].

Definition bits_byte (b7 b6 b5 b4 b3 b2 b1 b0 : bool) : Byte.byte :=
  Byte.of_bits (b0, (b1, (b2, (b3, (b4, (b5, (b6, b7))))))).

Definition bit_or_zero (l : bitarray) (i : nat) : bool := nth i l false.

Definition frombytes (bs : bytes) : bitarray := flat_map byte_bits bs.

(** [tobytes]: eight bits to a byte, the last byte padded with zero bits. *)
Fixpoint tobytes (l : bitarray) : bytes :=
  match l with
  | [] => []
  | b7 :: b6 :: b5 :: b4 :: b3 :: b2 :: b1 :: b0 :: rest =>
      bits_byte b7 b6 b5 b4 b3 b2 b1 b0 :: tobytes rest
  | _ =>
      [bits_byte (bit_or_zero l 0) (bit_or_zero l 1) (bit_or_zero l 2)
         (bit_or_zero l 3) (bit_or_zero l 4) (bit_or_zero l 5)
         (bit_or_zero l 6) (bit_or_zero l 7)]
  end.

Definition ba_any (a : bitarray) : bool := existsb (fun b => b) a.
Definition ba_all (a : bitarray) : bool := forallb (fun b => b) a.

Definition bits_value (a : bitarray) : Z :=
  fold_left (fun acc (b : bool) => 2 * acc + Z.b2z b) a 0.

(** [bitarray.util.ba2int]: unsigned, big-endian; refuses the empty array. *)
Definition ba2int (a : bitarray) : result Z :=
  match a with
  | [] => Raise (ValueError "non-empty bitarray expected")
  | _ => Ok (bits_value a)
  end.

(** The [w] low bits of [x], most significant first. *)
Definition bits_of_Z (w : nat) (x : Z) : bitarray :=
  map (fun i => Z.testbit x (Z.of_nat i)) (rev (seq 0 w)).

Definition bit_char (b : bool) : ascii := if b then "1"%char else "0"%char.

Definition bits_string (a : bitarray) : string :=
  string_of_list_ascii (map bit_char a).

(** [str(a)] for a bitarray: its [repr]. *)
Definition ba_str (a : bitarray) : string :=
  match a with
  | [] => "bitarray()"
  | _ => "bitarray('" ++ bits_string a ++ "')"
  end.

(** [int.to_bytes(length, byteorder)], unsigned. *)
Definition to_bytes (x : Z) (length : Z) (order : byteorder) : result bytes :=
  check 0 <=? length else_raise ValueError "length argument must be non-negative" ;;
  check 0 <=? x else_raise OverflowError "can't convert negative int to unsigned" ;;
  check bit_length x <=? 8 * length else_raise OverflowError "int too big to convert" ;;
  let be := tobytes (bits_of_Z (Z.to_nat (8 * length)) x) in
  Ok (match order with Big => be | Little => rev be end).

(** ** Python floats

    A Python float is a binary64 datum; it is modelled by its bit pattern,
    an integer of which only the 64 low bits are read. *)

Record pyfloat : Type := PyFloat { float_bits : Z }.

Section BinaryFormat.
Variables ebits mbits : Z.

Definition fmt_prec : Z := mbits + 1.
Definition fmt_emax : Z := 2 ^ (ebits - 1).

Definition sign_of (v : Z) : bool := Z.testbit v (ebits + mbits).
Definition exp_of (v : Z) : Z := Z.shiftr v mbits mod 2 ^ ebits.
Definition frac_of (v : Z) : Z := v mod 2 ^ mbits.

Definition decode (v : Z) : spec_float :=
  let s := sign_of v in
  let e := exp_of v in
  let m := frac_of v in
  if e =? 0 then
    match m with
    | Zpos p => S754_finite s p (3 - fmt_emax - fmt_prec)
    | _ => S754_zero s
    end
  else if e =? 2 ^ ebits - 1 then
    if m =? 0 then S754_infinity s else S754_nan
  else
    match 2 ^ mbits + m with
    | Zpos p => S754_finite s p (e - fmt_emax - fmt_prec + 2)
    | _ => S754_nan
    end.

Definition sign_bit (s : bool) : Z := if s then 2 ^ (ebits + mbits) else 0.
Definition exp_ones : Z := (2 ^ ebits - 1) * 2 ^ mbits.

(** Bit pattern of a number that is not a NaN. *)
Definition encode (f : spec_float) : Z :=
  match f with
  | S754_zero s => sign_bit s
  | S754_infinity s => sign_bit s + exp_ones
  | S754_nan => exp_ones + 2 ^ (mbits - 1)
  | S754_finite s m e =>
      if Zpos m <? 2 ^ mbits then sign_bit s + Zpos m
      else sign_bit s + (e + fmt_emax + fmt_prec - 2) * 2 ^ mbits
           + (Zpos m - 2 ^ mbits)
  end.
End BinaryFormat.

Definition decode64 (x : pyfloat) : spec_float := decode 11 52 (float_bits x).

(** Comparison operators inherited from [float]. *)
Definition float_lt (x y : pyfloat) : bool := SFltb (decode64 x) (decode64 y).
Definition float_gt (x y : pyfloat) : bool := SFltb (decode64 y) (decode64 x).
Definition float_eq (x y : pyfloat) : bool := SFeqb (decode64 x) (decode64 y).

(** [abs(x)] on a float clears the sign bit. *)
Definition float_abs (x : pyfloat) : pyfloat :=
  PyFloat (float_bits x mod 2 ^ 63).

(** [math.isnan], [math.isinf] and [math.isfinite]. *)
Definition math_isnan (x : pyfloat) : bool :=
  match decode64 x with S754_nan => true | _ => false end.

Definition math_isinf (x : pyfloat) : bool :=
  match decode64 x with S754_infinity _ => true | _ => false end.

Definition math_isfinite (x : pyfloat) : bool :=
  match decode64 x with
  | S754_zero _ | S754_finite _ _ _ => true
  | _ => false
  end.

(** [math.copysign(1.0, x) < 0]: the sign bit. *)
Definition float_signbit (x : pyfloat) : bool := sign_of 11 52 (float_bits x).

(** ** struct.pack and struct.unpack for the codes 'e', 'f' and 'd'

    'd' copies the eight bytes.  'f' and 'e' round to nearest, ties to
    even, and raise [OverflowError] when a finite value rounds out of
    range.  NaNs: 'e' packs and unpacks the default quiet NaN of the same
    sign; 'f' keeps the top payload bits and sets the quiet bit (CPython
    3.11 on x86-64). *)

Definition narrow_nan (ebits mbits : Z) (v : Z) : Z :=
  sign_bit ebits mbits (sign_of 11 52 v) + exp_ones ebits mbits
  + Z.lor (2 ^ (mbits - 1))
      (if ebits =? 5 then 0 else Z.shiftr (frac_of 52 v) (52 - mbits)).

Definition widen_nan (ebits mbits : Z) (v : Z) : Z :=
  sign_bit 11 52 (sign_of ebits mbits v) + exp_ones 11 52
  + Z.lor (2 ^ 51)
      (if ebits =? 5 then 0 else Z.shiftl (frac_of mbits v) (52 - mbits)).

Definition narrow (ebits mbits : Z) (code : string) (v : Z) : result Z :=
  match decode 11 52 v with
  | S754_nan => Ok (narrow_nan ebits mbits v)
  | S754_finite s m e =>
      match binary_round (fmt_prec mbits) (fmt_emax ebits) s m e with
      | S754_infinity _ =>
          Raise (OverflowError ("float too large to pack with " ++ code ++ " format"))
      | r => Ok (encode ebits mbits r)
      end
  | f => Ok (encode ebits mbits f)
  end.

Definition widen (ebits mbits : Z) (v : Z) : Z :=
  match decode ebits mbits v with
  | S754_nan => widen_nan ebits mbits v
  | S754_finite s m e => encode 11 52 (binary_round 53 1024 s m e)
  | f => encode 11 52 f
  end.

Section Struct.
(** [sys.byteorder] of the host. *)
Variable sys_byteorder : byteorder.

Definition struct_order (c : ascii) : result byteorder :=
  if (Ascii.eqb c "@" || Ascii.eqb c "=")%bool then Ok sys_byteorder
  else if Ascii.eqb c "<" then Ok Little
  else if (Ascii.eqb c ">" || Ascii.eqb c "!")%bool then Ok Big
  else Raise (StructError "bad char in struct format").

Definition order_bytes (o : byteorder) (be : bytes) : bytes :=
  match o with Big => be | Little => rev be end.

Definition struct_pack (order code : ascii) (x : pyfloat) : result bytes :=
  o <- struct_order order ;;
  if Ascii.eqb code "d" then
    Ok (order_bytes o (tobytes (bits_of_Z 64 (float_bits x))))
  else if Ascii.eqb code "f" then
    v <- narrow 8 23 "f" (float_bits x) ;;
    Ok (order_bytes o (tobytes (bits_of_Z 32 v)))
  else if Ascii.eqb code "e" then
    v <- narrow 5 10 "e" (float_bits x) ;;
    Ok (order_bytes o (tobytes (bits_of_Z 16 v)))
  else Raise (StructError "bad char in struct format").

Definition struct_size (code : ascii) : result Z :=
  if Ascii.eqb code "d" then Ok 8
  else if Ascii.eqb code "f" then Ok 4
  else if Ascii.eqb code "e" then Ok 2
  else Raise (StructError "bad char in struct format").

(** [struct.unpack(order + code, buffer)[0]]. *)
Definition struct_unpack (order code : ascii) (buf : bytes) : result pyfloat :=
  o <- struct_order order ;;
  size <- struct_size code ;;
  check py_len buf =? size
    else_raise StructError "unpack requires a buffer of the format's size" ;;
  let v := bits_value (frombytes (order_bytes o buf)) in
  if Ascii.eqb code "d" then Ok (PyFloat v)
  else if Ascii.eqb code "f" then Ok (PyFloat (widen 8 23 v))
  else Ok (PyFloat (widen 5 10 v)).
End Struct.

(** * The class float_IEEE754 *)

Definition SIGN_PLUS : string := "".
Definition SIGN_MINUS : string := "-".

(** [__desc]: struct codes and number of exponent bits per width. *)
Record fmt_desc : Type :=
  { desc_pack : ascii; desc_unpack : ascii; desc_e : Z }.

Definition __desc : list (Z * fmt_desc) :=
  [ (16, {| desc_pack := "H"; desc_unpack := "e"; desc_e := 5 |});
    (32, {| desc_pack := "I"; desc_unpack := "f"; desc_e := 8 |});
    (64, {| desc_pack := "Q"; desc_unpack := "d"; desc_e := 11 |}) ].

Fixpoint assoc_Z {V : Type} (k : Z) (l : list (Z * V)) : option V :=
  match l with
  | [] => None
  | (k', v) :: t => if k =? k' then Some v else assoc_Z k t
  end.

Fixpoint assoc_str {V : Type} (k : string) (l : list (string * V)) : option V :=
  match l with
  | [] => None
  | (k', v) :: t => if String.eqb k k' then Some v else assoc_str k t
  end.

(** [repr] of an integer, as it shows in a [KeyError]. *)
Definition int_repr (x : Z) : string := NilZero.string_of_int (Z.to_int x).

(** [__desc[nbits]] and [nbits in __desc]. *)
Definition desc_get (nbits : Z) : result fmt_desc :=
  match assoc_Z nbits __desc with
  | Some d => Ok d
  | None => Raise (KeyError (int_repr nbits))
  end.

Definition desc_has (nbits : Z) : bool :=
  match assoc_Z nbits __desc with Some _ => true | None => false end.

Inductive mantissa_expr : Type :=
| ExprInf
| ExprNaN
| ExprPowers (l : list Z).

(** An instance: the inherited float [value] and the attributes that
    [__init__] sets.  ([mantissa], a [Decimal] sum converted to a float,
    is not represented.) *)
Record float_IEEE754 : Type :=
  { value : pyfloat;
    nbits : Z;
    base : Z;
    p : Z;
    fmt : fmt_desc;
    bits : bitarray;
    rawSign : bool;
    rawExp : bitarray;
    rawMantissa : bitarray;
    isExp0 : bool;
    expBias : Z;
    sign : string;
    normal : bool;
    negativeNormal : bool;
    positiveNormal : bool;
    subnormal : bool;
    negativeSubnormal : bool;
    positiveSubnormal : bool;
    zero : bool;
    positiveZero : bool;
    negativeZero : bool;
    infinity : bool;
    negativeInfinity : bool;
    positiveInfinity : bool;
    NaN : bool;
    signalingNaN : bool;
    quietNaN : bool;
    finite : bool;
    canonical : bool;
    emin : Z;
    emax : Z;
    intRawExp : Z;
    exp : Z;
    mantissaExpr : mantissa_expr;
    bmantissa : bitarray;
    bitstring : string }.

(** The loop over [bmantissa]: the exponents [i] of the set bits. *)
Fixpoint mantissa_powers (l : bitarray) (i : Z) : list Z :=
  match l with
  | [] => []
  | v :: t =>
      let i := i - 1 in
      if v then i :: mantissa_powers t i else mantissa_powers t i
  end.

(** [sys.byteorder]: the class is loaded on one host. *)
Section Class.
Variable sys_byteorder : byteorder.

(** [__bytesOrders]: struct prefix ('p') and [int.to_bytes] order ('tb'). *)
Record order_desc : Type := { order_p : ascii; order_tb : byteorder }.

Definition __bytesOrders : list (string * order_desc) :=
  [ ("native-align", {| order_p := "@"; order_tb := sys_byteorder |});
    ("native", {| order_p := "="; order_tb := sys_byteorder |});
    ("little-endian", {| order_p := "<"; order_tb := Little |});
    ("big-endian", {| order_p := ">"; order_tb := Big |});
    ("network", {| order_p := "!"; order_tb := Big |}) ].

Definition bytesOrders_get (key : string) : result order_desc :=
  match assoc_str key __bytesOrders with
  | Some d => Ok d
  | None => Raise (KeyError key)
  end.

(** The default of every [byteOrder] parameter: [sys.byteorder + '-endian']. *)
Definition default_byteOrder : string :=
  (byteorder_name sys_byteorder ++ "-endian")%string.

Definition __init__ (self : pyfloat) (val : pyfloat) (nbits0 : Z) (base0 : Z)
  : result float_IEEE754 :=
  let nbits := if desc_has nbits0 then nbits0 else 64 in
  fmt <- desc_get nbits ;;
  packed <- struct_pack sys_byteorder "!" (desc_unpack fmt) val ;;
  let ba := frombytes packed in
  let SP := SIGN_PLUS in
  let SM := SIGN_MINUS in
  rawSign <- py_getitem ba 0 ;;
  let rawExp := py_slice ba (Some 1) (Some (desc_e fmt + 1)) in
  let rawMantissa := py_slice ba (Some (desc_e fmt + 1)) None in
  let isExp0 := negb (ba_any rawExp) in
  let expBias := 2 ^ (desc_e fmt - 1) - 1 in
  b0 <- py_getitem ba 0 ;;
  let sign := if b0 then SM else SP in
  let normal := ba_any rawExp || negb (ba_any rawMantissa) in
  let negativeNormal := normal && String.eqb sign SM in
  let positiveNormal := normal && String.eqb sign SP in
  let subnormal := negb (ba_any rawExp) && ba_any rawMantissa in
  let negativeSubnormal := subnormal && String.eqb sign SM in
  let positiveSubnormal := subnormal && String.eqb sign SP in
  let zero := negb (ba_any rawMantissa) && negb (ba_any rawExp) in
  let positiveZero := zero && String.eqb sign SP in
  let negativeZero := zero && String.eqb sign SM in
  let infinity := ba_all rawExp && negb (ba_any rawMantissa) in
  let negativeInfinity := infinity && String.eqb sign SM in
  let positiveInfinity := infinity && String.eqb sign SP in
  let NaN := ba_all rawExp && ba_any rawMantissa in
  signalingNaN <-
    (if NaN then m0 <- py_getitem rawMantissa 0 ;; Ok (negb m0) else Ok false) ;;
  quietNaN <-
    (if NaN then m0 <- py_getitem rawMantissa 0 ;; Ok m0 else Ok false) ;;
  let finite := zero || (negb infinity && negb NaN) in
  let canonical :=
    negb NaN || signalingNaN || negb (ba_any (py_slice rawMantissa (Some 1) None)) in
  let emax := 2 ^ desc_e fmt - expBias in
  intRawExp <- ba2int rawExp ;;
  let exp := if infinity || NaN || zero then 0 else intRawExp - expBias + 1 in
  let bmantissa :=
    if infinity then rawMantissa
    else if NaN then rawMantissa
    else if zero then rawMantissa
    else true :: rawMantissa in
  let mantissaExpr :=
    if infinity then ExprInf
    else if NaN then ExprNaN
    else ExprPowers (mantissa_powers bmantissa 0) in
  let bitstring :=
    (String (bit_char rawSign) EmptyString
     ++ "_" ++ str_slice (ba_str rawExp) (Some 10) (Some (-2))
     ++ "_" ++ str_slice (ba_str rawMantissa) (Some 10) (Some (-2)))%string in
  Ok {| value := self; nbits := nbits; base := base0; p := 53;
        fmt := fmt; bits := ba;
        rawSign := rawSign; rawExp := rawExp; rawMantissa := rawMantissa;
        isExp0 := isExp0; expBias := expBias; sign := sign;
        normal := normal; negativeNormal := negativeNormal;
        positiveNormal := positiveNormal;
        subnormal := subnormal; negativeSubnormal := negativeSubnormal;
        positiveSubnormal := positiveSubnormal;
        zero := zero; positiveZero := positiveZero;
        negativeZero := negativeZero;
        infinity := infinity; negativeInfinity := negativeInfinity;
        positiveInfinity := positiveInfinity;
        NaN := NaN; signalingNaN := signalingNaN; quietNaN := quietNaN;
        finite := finite; canonical := canonical;
        emin := 1; emax := emax; intRawExp := intRawExp; exp := exp;
        mantissaExpr := mantissaExpr; bmantissa := bmantissa;
        bitstring := bitstring |}.

(** [__new__]: the float the instance is. *)
Definition __new__ (val : pyfloat) (nbits0 : Z) (forcePositive : bool) : pyfloat :=
  if forcePositive then float_abs val else val.

(** The class call [float_IEEE754(value, nbits)] or
    [float_IEEE754(value, nbits, third)]: [__new__] reads the third
    argument as [forcePositive], [__init__] reads it as [base]. *)
Definition construct (val : pyfloat) (nbits0 : Z) (third : option Z)
  : result float_IEEE754 :=
  let self := __new__ val nbits0
                (match third with Some t => negb (t =? 0) | None => false end) in
  __init__ self val nbits0 (match third with Some t => t | None => 2 end).

(** Names bound at module level.  A function body sees these and the
    builtins; attributes of the class ([fromString], [totalOrder], ...)
    are reached only through [float_IEEE754.] or an instance. *)
Definition module_globals : list string :=
  [ "struct"; "bitarray"; "re"; "dc"; "copy"; "sys"; "frexp"; "isnan";
    "isfinite"; "__author__"; "__copyright__"; "__credits__"; "__version__";
    "__maintainer__"; "__email__"; "__status__"; "float_IEEE754";
    "floatIEEE754vsPythonFloat"; "test"; "usage" ].

Definition resolve_global (name : string) : result unit :=
  if existsb (String.eqb name) module_globals then Ok tt
  else Raise (NameError name).

(** The builtin [tuple] called on integer arguments. *)
Definition tuple_call (args : list Z) : result (list Z) :=
  match args with
  | [] => Ok []
  | [_] => Raise (TypeError "'int' object is not iterable")
  | _ => Raise (TypeError "tuple expected at most 1 argument")
  end.

(** [while bits_required % 8 != 0: bits_required += 1]; seven steps
    always suffice. *)
Fixpoint round_up_bits (fuel : nat) (bits_required : Z) : Z :=
  match fuel with
  | O => bits_required
  | S fuel' =>
      if negb (bits_required mod 8 =? 0)
      then round_up_bits fuel' (bits_required + 1)
      else bits_required
  end.

Definition str_getitem (s : string) (i : Z) : result ascii :=
  match py_getitem (list_ascii_of_string s) i with
  | Ok c => Ok c
  | Raise _ => Raise (IndexError "string index out of range")
  end.

Definition fromString (val : string) (nbits0 base0 : Z) (forcePositive : bool)
    (byteOrder : string) : result float_IEEE754 :=
  let byteOrder := "big-endian" in
  bo <- bytesOrders_get byteOrder ;;
  let botb := order_tb bo in
  bo' <- bytesOrders_get byteOrder ;;
  let bop := order_p bo' in
  val <-
    (if forcePositive then
       if base0 =? 2 then
         Raise (TypeError "'str' object does not support item assignment")
       else
         c <- str_getitem val 0 ;;
         if String.eqb (String c EmptyString) SIGN_MINUS
         then Ok (str_slice val (Some 1) None)
         else Ok val
     else Ok val) ;;
  x <- py_int val base0 ;;
  let nbits := if nbits0 <? 32 then 16 else if nbits0 <? 63 then 32 else 64 in
  let bits_required := round_up_bits 8 (bit_length x) in
  let xbytes := bits_required / 8 in
  let nbytes := nbits / 8 in
  bf <- to_bytes x xbytes botb ;;
  check negb (py_len bf <? nbytes)
    else_raise AttributeError "'bytes' object has no attribute 'append'" ;;
  d <- desc_get nbits ;;
  lf <- struct_unpack sys_byteorder bop (desc_unpack d) bf ;;
  construct lf nbits None.

Definition fromBytes (buf : bytes) (nbits0 : Z) (byteOrder : string)
  : result float_IEEE754 :=
  bo <- bytesOrders_get byteOrder ;;
  let bop := order_p bo in
  d <- desc_get nbits0 ;;
  lf <- struct_unpack sys_byteorder bop (desc_unpack d) buf ;;
  construct lf nbits0 None.

Definition fromBitarray (a : bitarray) (byteOrder : string)
  : result float_IEEE754 :=
  fromBytes (tobytes a) (py_len a) byteOrder.

Definition as_int_tuple (self : float_IEEE754) : result (list Z) :=
  e <- ba2int (rawExp self) ;;
  m <- ba2int (rawMantissa self) ;;
  tuple_call [nbits self; Z.b2z (rawSign self); e; m].

Definition __getitem__ (self : float_IEEE754) (index : Z) : result bool :=
  py_getitem (bits self) index.

Definition new_from_int_tuple (ftuple : Z * Z * Z * Z) (byteOrder : string)
  : result float_IEEE754 :=
  let '(t0, t1, t2, t3) := ftuple in
  let nbits := t0 in
  let s := format_b t1 in
  check str_len s =? 1 else_raise ValueError "Incorrect length for sign" ;;
  d <- desc_get nbits ;;
  let nbits_e := desc_e d in
  check negb (bit_length t2 >? nbits_e)
    else_raise OverflowError "Value too large for exponent" ;;
  let e := zfill (format_b t2) nbits_e in
  let nbits_m := nbits - 1 - nbits_e in
  check negb (bit_length t3 >? nbits_m)
    else_raise OverflowError "Value too large for mantissa" ;;
  let m := zfill (format_b t3) nbits_m in
  _ <- resolve_global "fromString" ;;
  fromString (s ++ e ++ m)%string nbits 2 false byteOrder.

Definition newFromBitSet (self : float_IEEE754) (index : Z) (v : bool)
    (byteOrder : string) : result float_IEEE754 :=
  b <- py_getitem (bits self) index ;;
  if Bool.eqb b v then Ok self
  else
    t <- py_setitem (bits self) index v ;;
    fromBitarray t byteOrder.

Definition newFromBitReverse (self : float_IEEE754) (bit : Z)
  : result float_IEEE754 :=
  b <- py_getitem (bits self) bit ;;
  let v := if Bool.eqb b false then true else false in
  newFromBitSet self bit v default_byteOrder.

Definition abs (x : float_IEEE754) : result float_IEEE754 :=
  construct (value x) (nbits x) (Some 1).

Definition isSignMinus (self : float_IEEE754) : bool :=
  String.eqb (sign self) SIGN_MINUS.
Definition isNormal (self : float_IEEE754) : bool := normal self.
Definition isFinite (self : float_IEEE754) : bool := finite self.
Definition isZero (self : float_IEEE754) : bool := zero self.
Definition isSubnormal (self : float_IEEE754) : bool := subnormal self.
Definition isInfinite (self : float_IEEE754) : bool := infinity self.
Definition isNaN (self : float_IEEE754) : bool := NaN self.
Definition isSignaling (self : float_IEEE754) : bool := signalingNaN self.
Definition isCanonical (self : float_IEEE754) : bool := canonical self.
(** [nanPayload]: [self.__fmt['e']] is an integer; slicing it raises
    [TypeError]. *)
Definition nanPayload (self : float_IEEE754) : result Z :=
  if negb (NaN self) || canonical self then Ok 0
  else Raise (TypeError "'int' object is not subscriptable").

Definition radix (self : float_IEEE754) : Z := 2.

(** [totalOrder]: [None] is Python's [None], the result of reaching the
    end of the body without a [return]. *)
Definition totalOrder_NaN (x y : float_IEEE754) : option bool :=
  let SP := SIGN_PLUS in
  let SM := SIGN_MINUS in
  if NaN x || NaN y then
    if String.eqb (sign x) SM && negb (NaN y) then Some true
    else if String.eqb (sign y) SP && negb (NaN x) then Some true
    else if String.eqb (sign x) SM && String.eqb (sign y) SP then Some true
    else if String.eqb (sign x) SP && String.eqb (sign y) SM then Some false
    else Some false
  else None.

Definition totalOrder (x y : float_IEEE754) : option bool :=
  let SP := SIGN_PLUS in
  let SM := SIGN_MINUS in
  if finite x && finite y then
    if negb (zero x) && negb (zero y) then
      if float_lt (value x) (value y) then Some true
      else if float_gt (value x) (value y) then Some false
      else if float_eq (value x) (value y) then
        if negativeZero y && positiveZero x then Some true
        else if positiveZero x && negativeZero y then Some false
        else if String.eqb (sign x) SM && String.eqb (sign y) SM
        then Some (exp x >=? exp y)
        else Some (exp x <=? exp y)
      else totalOrder_NaN x y
    else
      if positiveZero x && negativeZero y then Some false
      else Some true
  else totalOrder_NaN x y.

Definition totalOrderMag (x y : float_IEEE754) : result (option bool) :=
  _ <- resolve_global "totalOrder" ;;
  _ <- resolve_global "self" ;;
  ax <- abs x ;;
  ay <- abs y ;;
  Ok (totalOrder ax ay).

End Class.

(** * Vocabulary of the statements *)

(** What [__init__] stores in the category flags, in terms of the two
    raw fields. *)
Record flags_of_fields (x : float_IEEE754) : Prop :=
  { ff_exp_nonempty : rawExp x <> [];
    ff_normal : normal x = ba_any (rawExp x) || negb (ba_any (rawMantissa x));
    ff_subnormal : subnormal x = negb (ba_any (rawExp x)) && ba_any (rawMantissa x);
    ff_zero : zero x = negb (ba_any (rawMantissa x)) && negb (ba_any (rawExp x));
    ff_infinity : infinity x = ba_all (rawExp x) && negb (ba_any (rawMantissa x));
    ff_NaN : NaN x = ba_all (rawExp x) && ba_any (rawMantissa x);
    ff_finite : finite x = zero x || (negb (infinity x) && negb (NaN x)) }.

Definition count_true (l : list bool) : nat :=
  List.length (filter (fun b : bool => b) l).

Definition category_flags (x : float_IEEE754) : list bool :=
  [isZero x; isSubnormal x; isNormal x; isInfinite x; isNaN x].

(** Exponent and mantissa widths of a bit width, read from [__desc] as
    [new_from_int_tuple] computes them. *)
Definition field_widths (w : Z) : option (Z * Z) :=
  match assoc_Z w __desc with
  | Some d => Some (desc_e d, w - 1 - desc_e d)
  | None => None
  end.

Definition is_ValueError {A : Type} (r : result A) : Prop :=
  exists msg, r = Raise (ValueError msg).

Definition is_OverflowError {A : Type} (r : result A) : Prop :=
  exists msg, r = Raise (OverflowError msg).

Definition is_IndexError {A : Type} (r : result A) : Prop :=
  exists msg, r = Raise (IndexError msg).

(** [struct.error]. *)
Definition is_StructError {A : Type} (r : result A) : Prop :=
  exists msg, r = Raise (StructError msg).

(** The widths [fromString] hands to the constructor. *)
Definition snap_width (n : Z) : Z :=
  if n <? 32 then 16 else if n <? 63 then 32 else 64.

(** The 64 digits of the pattern that [test] builds:
    ['0' + '11111111110' + '1111' + '0'*48]. *)
Definition test_pattern : string :=
  ("0" ++ "11111111110" ++ "1111" ++ str_repeat "0" 48)%string.

(** The 64 digits with an all-ones exponent and the mantissa 1111
    followed by 48 zero bits. *)
Definition all_ones_pattern : string :=
  ("0" ++ "11111111111" ++ "1111" ++ str_repeat "0" 48)%string.

(** The width the constructor works at. *)
Definition effective_width (n : Z) : Z := if desc_has n then n else 64.

(** What [__init__] stores in the other attributes, in terms of the bit
    array. *)
Record attributes_of_bits (x : float_IEEE754) : Prop :=
  { ab_fmt : desc_get (nbits x) = Ok (fmt x);
    ab_rawSign : py_getitem (bits x) 0 = Ok (rawSign x);
    ab_rawExp :
      rawExp x = py_slice (bits x) (Some 1) (Some (desc_e (fmt x) + 1));
    ab_rawMantissa :
      rawMantissa x = py_slice (bits x) (Some (desc_e (fmt x) + 1)) None;
    ab_isExp0 : isExp0 x = negb (ba_any (rawExp x));
    ab_expBias : expBias x = 2 ^ (desc_e (fmt x) - 1) - 1;
    ab_emax : emax x = 2 ^ desc_e (fmt x) - expBias x;
    ab_sign : sign x = if rawSign x then SIGN_MINUS else SIGN_PLUS;
    ab_intRawExp : intRawExp x = bits_value (rawExp x);
    ab_exp :
      exp x = if infinity x || NaN x || zero x then 0
              else intRawExp x - expBias x + 1;
    ab_signalingNaN :
      signalingNaN x = NaN x && negb (hd false (rawMantissa x));
    ab_quietNaN : quietNaN x = NaN x && hd false (rawMantissa x);
    ab_canonical :
      canonical x
      = negb (NaN x) || signalingNaN x || negb (ba_any (tl (rawMantissa x)));
    ab_bmantissa :
      bmantissa x
      = if infinity x || NaN x || zero x then rawMantissa x
        else true :: rawMantissa x;
    ab_mantissaExpr :
      mantissaExpr x
      = if infinity x then ExprInf
        else if NaN x then ExprNaN
        else ExprPowers (mantissa_powers (bmantissa x) 0);
    ab_signed :
      negativeNormal x = normal x && rawSign x /\
      positiveNormal x = normal x && negb (rawSign x) /\
      negativeSubnormal x = subnormal x && rawSign x /\
      positiveSubnormal x = subnormal x && negb (rawSign x) /\
      negativeZero x = zero x && rawSign x /\
      positiveZero x = zero x && negb (rawSign x) /\
      negativeInfinity x = infinity x && rawSign x /\
      positiveInfinity x = infinity x && negb (rawSign x) }.

(** Number of set bits. *)
Definition popcount (a : bitarray) : nat := count_true a.

(** The byte order a [byteOrder] name stands for on the host: the
    table entry's struct prefix, read by [struct]. *)
Definition byteOrder_endianness (h : byteorder) (name : string)
  : option byteorder :=
  match assoc_str name (__bytesOrders h) with
  | Some od =>
      match struct_order h (order_p od) with
      | Ok o => Some o
      | Raise _ => None
      end
  | None => None
  end.

(** The least magnitude that [struct.pack] refuses at the widths 16 and
    32, as a binary64 datum: 65520.0 = 2^16 - 2^4 and 2^128 - 2^103, the
    midpoint between the largest finite number of the width and the next
    power of two.  Non-negative binary64 data are ordered as their bit
    patterns, so [too_large_for n v] is
    [isfinite(v) and abs(v) >= threshold]. *)
Definition overflow_threshold (n : Z) : Z :=
  if n =? 16 then 0x40EFFE0000000000 else 0x47EFFFFFF0000000.

Definition too_large_for (n : Z) (v : pyfloat) : bool :=
  math_isfinite v && (overflow_threshold n <=? float_bits (float_abs v)).

(** An instance with another inherited float and another [base]. *)
Definition with_float_and_base (f : pyfloat) (b : Z) (x : float_IEEE754)
  : float_IEEE754 :=
  {| value := f; nbits := nbits x; base := b; p := p x;
     fmt := fmt x; bits := bits x;
     rawSign := rawSign x; rawExp := rawExp x; rawMantissa := rawMantissa x;
     isExp0 := isExp0 x; expBias := expBias x; sign := sign x;
     normal := normal x; negativeNormal := negativeNormal x;
     positiveNormal := positiveNormal x;
     subnormal := subnormal x; negativeSubnormal := negativeSubnormal x;
     positiveSubnormal := positiveSubnormal x;
     zero := zero x; positiveZero := positiveZero x;
     negativeZero := negativeZero x;
     infinity := infinity x; negativeInfinity := negativeInfinity x;
     positiveInfinity := positiveInfinity x;
     NaN := NaN x; signalingNaN := signalingNaN x; quietNaN := quietNaN x;
     finite := finite x; canonical := canonical x;
     emin := emin x; emax := emax x; intRawExp := intRawExp x; exp := exp x;
     mantissaExpr := mantissaExpr x; bmantissa := bmantissa x;
     bitstring := bitstring x |}.

(** * Properties *)

(** ** The runtime model on concrete inputs *)

Example py_int_binary : py_int "11111111110" 2 = Ok 2046.
Proof. reflexivity. Qed.

Example py_int_signed_hex : py_int " -0x_fF " 16 = Ok (-255).
Proof. reflexivity. Qed.

Example py_int_bad_digit : is_ValueError (py_int "102" 2).
Proof. eexists. reflexivity. Qed.

(** The separators 28 to 31 are not skipped; U+00A0 and U+0085 are. *)
Example py_int_unit_separator :
  is_ValueError (py_int (String (ascii_of_N 31) "7FF0000000000000") 16) /\
  py_int (String (ascii_of_N 160) ("12" ++ String (ascii_of_N 133) "")) 10
  = Ok 12.
Proof. split; [eexists |]; vm_compute; reflexivity. Qed.

Example format_b_minus_five : zfill (format_b (-5)) 11 = "-0000000101".
Proof. reflexivity. Qed.

Example bit_length_255 : bit_length 255 = 8 /\ bit_length (-5) = 3 /\ bit_length 0 = 0.
Proof. repeat split. Qed.

(** 0.1 packed as binary16 is 0x2E66 and 1.0 as binary32 is 0x3F800000. *)
Example pack_tenth_half :
  struct_pack Little "!" "e" (PyFloat 0x3FB999999999999A)
  = Ok (tobytes (bits_of_Z 16 0x2E66)).
Proof. vm_compute. reflexivity. Qed.

Example pack_one_single :
  struct_pack Little "!" "f" (PyFloat 0x3FF0000000000000)
  = Ok (tobytes (bits_of_Z 32 0x3F800000)).
Proof. vm_compute. reflexivity. Qed.

(** 65504 is the largest binary16 number; 65520 rounds out of range. *)
Example pack_half_largest :
  struct_pack Little "!" "e" (PyFloat 0x40EFFC0000000000)
  = Ok (tobytes (bits_of_Z 16 0x7BFF)).
Proof. vm_compute. reflexivity. Qed.

Example pack_half_overflow :
  is_OverflowError (struct_pack Little "!" "e" (PyFloat 0x40EFFE0000000000)).
Proof. eexists. vm_compute. reflexivity. Qed.

(** The smallest binary16 subnormal, 2^-24, unpacks to 0x3E70000000000000. *)
Example unpack_half_subnormal :
  struct_unpack Little ">" "e" (tobytes (bits_of_Z 16 1))
  = Ok (PyFloat 0x3E70000000000000).
Proof. vm_compute. reflexivity. Qed.

Example float_compare_signed_zeros :
  float_eq (PyFloat 0) (PyFloat (2 ^ 63)) = true /\
  float_lt (PyFloat (2 ^ 63)) (PyFloat 0) = false /\
  float_lt (PyFloat 0xBFF0000000000000) (PyFloat 1) = true.
Proof. repeat split. Qed.

(** ** Inversion of the constructor *)

Ltac bind_inv H :=
  repeat match type of H with
    | bind ?c ?k = Ok ?r =>
        let E := fresh "E" in
        let a := fresh "a" in
        destruct c as [a |] eqn:E;
        [cbn [bind] in H | discriminate H]
    | (if ?b then _ else Raise _) = Ok _ =>
        let E := fresh "E" in
        destruct b eqn:E; [| discriminate H]
    end.

Lemma ba2int_nonempty (a : bitarray) (v : Z) : ba2int a = Ok v -> a <> [].
Proof. destruct a; [discriminate | intros _ C; discriminate C]. Qed.

Lemma ba_all_any (a : bitarray) : a <> [] -> ba_all a = true -> ba_any a = true.
Proof.
  destruct a as [| b a]; [congruence |].
  intros _ H. simpl in *. apply andb_true_iff in H as [-> _]. reflexivity.
Qed.

Lemma init_flags h self v n b x :
  __init__ h self v n b = Ok x -> flags_of_fields x.
Proof.
  unfold __init__. intros H. cbv zeta in H. bind_inv H.
  injection H as <-.
  constructor; cbn; try reflexivity.
  eapply ba2int_nonempty; eassumption.
Qed.

Lemma construct_flags h v n third x :
  construct h v n third = Ok x -> flags_of_fields x.
Proof. unfold construct. apply init_flags. Qed.

(** ** Category flags *)

Ltac flag_cases x F :=
  let HA := fresh "HA" in
  pose proof (ba_all_any (rawExp x) (ff_exp_nonempty x F)) as HA;
  destruct (ba_any (rawExp x)), (ba_all (rawExp x)),
    (ba_any (rawMantissa x));
  try (specialize (HA eq_refl); discriminate HA); clear HA.

Lemma flags_exclusive_without_normal (x : float_IEEE754) :
  flags_of_fields x ->
  (count_true [isZero x; isSubnormal x; isInfinite x; isNaN x] <= 1)%nat.
Proof.
  intros F. unfold isZero, isSubnormal, isInfinite, isNaN.
  rewrite (ff_zero x F), (ff_subnormal x F), (ff_infinity x F), (ff_NaN x F).
  flag_cases x F; cbn; lia.
Qed.

(** With [normal] restricted to the instances that are neither zero,
    infinite nor NaN, exactly one category would hold. *)
Lemma flags_exclusive_with_restricted_normal (x : float_IEEE754) :
  flags_of_fields x ->
  count_true
    [isZero x; isSubnormal x;
     isNormal x && negb (isZero x) && negb (isInfinite x) && negb (isNaN x);
     isInfinite x; isNaN x]
  = 1%nat.
Proof.
  intros F. unfold isZero, isSubnormal, isNormal, isInfinite, isNaN.
  rewrite (ff_zero x F), (ff_subnormal x F), (ff_normal x F),
    (ff_infinity x F), (ff_NaN x F).
  flag_cases x F; reflexivity.
Qed.

Lemma infinite_not_finite (x : float_IEEE754) :
  flags_of_fields x -> infinity x = true -> finite x = false.
Proof.
  intros F. rewrite (ff_finite x F), (ff_zero x F), (ff_infinity x F), (ff_NaN x F).
  flag_cases x F; cbn; congruence.
Qed.

(** C1: the specification asks for exactly one of the five category
    flags on every instance.  The code sets [normal] to the complement of
    [subnormal], so a zero, an infinity and a NaN carry two flags: their
    own and [normal].  Only subnormals and numbers with a mixed exponent
    carry one. *)
Theorem category_flags_count h v n third x :
  construct h v n third = Ok x ->
  isNormal x = negb (isSubnormal x) /\
  count_true (category_flags x)
  = (if isZero x || isInfinite x || isNaN x then 2 else 1)%nat.
Proof.
  intros H. apply construct_flags in H as F.
  unfold category_flags, isZero, isSubnormal, isNormal, isInfinite, isNaN.
  rewrite (ff_zero x F), (ff_subnormal x F), (ff_normal x F),
    (ff_infinity x F), (ff_NaN x F).
  flag_cases x F; cbn; split; reflexivity.
Qed.

Lemma category_flags_count_witness :
  exists x, construct Little (PyFloat 0) 64 None = Ok x /\
            isZero x = true /\ isNormal x = true /\
            count_true (category_flags x) = 2%nat.
Proof.
  eexists. split; [vm_compute; reflexivity |].
  split; [reflexivity |]. split; [reflexivity |].
  etransitivity.
  - apply (category_flags_count Little (PyFloat 0) 64 None).
    vm_compute; reflexivity.
  - reflexivity.
Defined.

(** ** totalOrder *)

(** C2: the specification asks for a boolean when one operand is
    infinite and the other finite.  [totalOrder] has a branch for two
    finite operands and a branch for a NaN operand; with an infinity and
    no NaN neither applies and the body ends without [return]: the result
    is [None]. *)
Theorem totalOrder_infinite_operand h v1 n1 t1 v2 n2 t2 x y :
  construct h v1 n1 t1 = Ok x ->
  construct h v2 n2 t2 = Ok y ->
  xorb (isInfinite x) (isInfinite y) = true ->
  isNaN x = false -> isNaN y = false ->
  totalOrder x y = None.
Proof.
  intros Hx Hy Hinf Nx Ny.
  apply construct_flags in Hx as Fx. apply construct_flags in Hy as Fy.
  unfold isInfinite, isNaN in *.
  assert (finite x && finite y = false) as Hfin.
  { destruct (infinity x) eqn:Ix.
    - rewrite (infinite_not_finite x Fx Ix). reflexivity.
    - destruct (infinity y) eqn:Iy; [| discriminate Hinf].
      rewrite (infinite_not_finite y Fy Iy). apply andb_false_r. }
  unfold totalOrder. rewrite Hfin.
  unfold totalOrder_NaN. rewrite Nx, Ny. reflexivity.
Qed.

Lemma totalOrder_infinite_operand_witness :
  exists x y,
    construct Little (PyFloat 0xFFF0000000000000) 64 None = Ok x /\
    construct Little (PyFloat 0x3FF0000000000000) 64 None = Ok y /\
    isInfinite x = true /\ isSignMinus x = true /\ isFinite y = true /\
    totalOrder x y = None.
Proof.
  eexists. eexists.
  split; [vm_compute; reflexivity |].
  split; [vm_compute; reflexivity |].
  split; [reflexivity |]. split; [reflexivity |]. split; [reflexivity |].
  apply (totalOrder_infinite_operand Little
           (PyFloat 0xFFF0000000000000) 64 None
           (PyFloat 0x3FF0000000000000) 64 None);
    vm_compute; reflexivity.
Defined.

(** ** new_from_int_tuple and as_int_tuple *)

Lemma field_widths_table w eb mb :
  field_widths w = Some (eb, mb) <->
  In (w, eb, mb) [(16, 5, 10); (32, 8, 23); (64, 11, 52)].
Proof.
  unfold field_widths, __desc, assoc_Z. split.
  - destruct (Z.eqb_spec w 16) as [-> |]; [intros [= <- <-]; simpl; auto |].
    destruct (Z.eqb_spec w 32) as [-> |]; [intros [= <- <-]; simpl; auto |].
    destruct (Z.eqb_spec w 64) as [-> |]; [intros [= <- <-]; simpl; auto |].
    discriminate.
  - intros [[= <- <- <-] | [[= <- <- <-] | [[= <- <- <-] | []]]]; reflexivity.
Qed.

Lemma pos_bin_length (q : positive) (acc : string) :
  String.length (pos_bin q acc) = (Pos.size_nat q + String.length acc)%nat.
Proof.
  revert acc. induction q; intros acc; simpl; rewrite ?IHq; simpl; lia.
Qed.

(** The sign test [len(f'{sign:0b}') != 1] accepts exactly 0 and 1. *)
Lemma sign_one_bit_wide (s : Z) : str_len (format_b s) = 1 <-> s = 0 \/ s = 1.
Proof.
  assert (Hsize : forall q, (1 <= Pos.size_nat q)%nat)
    by (intros q; destruct q; simpl; lia).
  unfold str_len. destruct s as [| q | q]; simpl.
  - split; auto.
  - rewrite pos_bin_length.
    destruct q as [q | q |]; simpl; try specialize (Hsize q);
      (split; [intros H; try lia; auto | intros [H | H]; try discriminate H]).
    reflexivity.
  - rewrite pos_bin_length. specialize (Hsize q).
    split; [intros H; lia | intros [H | H]; discriminate H].
Qed.

(** A field fits [n] bits, in the sense of [bit_length], exactly when
    its absolute value is below [2 ^ n]. *)
Lemma bit_length_le (x n : Z) :
  0 <= n -> (bit_length x <= n <-> Z.abs x < 2 ^ n).
Proof.
  intros Hn. unfold bit_length.
  destruct (Z.eqb_spec x 0) as [-> | Hx].
  - cbn. split; intros _; [apply Z.pow_pos_nonneg; lia | exact Hn].
  - assert (0 < Z.abs x) by lia.
    rewrite (Z.log2_lt_pow2 (Z.abs x) n) by assumption. lia.
Qed.

Lemma resolve_fromString :
  resolve_global "fromString" = Raise (NameError "fromString").
Proof. reflexivity. Qed.

(** The outcome of [new_from_int_tuple], check by check.  The last line
    of the body calls [fromString] by its bare name, which is neither a
    local nor a module-level name. *)
Lemma new_from_int_tuple_outcome h w s e m bo :
  new_from_int_tuple h (w, s, e, m) bo =
  if str_len (format_b s) =? 1 then
    match field_widths w with
    | None => Raise (KeyError (int_repr w))
    | Some (eb, mb) =>
        if bit_length e >? eb
        then Raise (OverflowError "Value too large for exponent")
        else if bit_length m >? mb
        then Raise (OverflowError "Value too large for mantissa")
        else Raise (NameError "fromString")
    end
  else Raise (ValueError "Incorrect length for sign").
Proof.
  unfold new_from_int_tuple, field_widths, desc_get.
  destruct (str_len (format_b s) =? 1); [| reflexivity].
  destruct (assoc_Z w __desc) as [d |]; [| reflexivity].
  cbn [bind].
  destruct (bit_length e >? desc_e d); [reflexivity |]. cbn [negb].
  destruct (bit_length m >? w - 1 - desc_e d); [reflexivity |]. cbn [negb].
  rewrite resolve_fromString. reflexivity.
Qed.

Lemma as_int_tuple_raises (x : float_IEEE754) :
  exists err, as_int_tuple x = Raise err.
Proof.
  unfold as_int_tuple.
  destruct (rawExp x) as [| b1 l1]; [eexists; reflexivity |].
  destruct (rawMantissa x) as [| b2 l2]; eexists; reflexivity.
Qed.

(** C3: the specification asks [new_from_int_tuple] to succeed on every
    tuple within the field bounds and [as_int_tuple] to give the tuple back.
    In the code a tuple that passes the three checks reaches the call of
    the unbound name [fromString] and raises [NameError]; [as_int_tuple]
    passes four arguments to [tuple] and raises [TypeError] on every
    instance. *)
Theorem int_tuple_round_trip_fails h w s e m bo eb mb :
  field_widths w = Some (eb, mb) ->
  str_len (format_b s) = 1 ->
  bit_length e <= eb ->
  bit_length m <= mb ->
  new_from_int_tuple h (w, s, e, m) bo = Raise (NameError "fromString") /\
  (forall x : float_IEEE754, ~ succeeds (as_int_tuple x)).
Proof.
  intros Hw Hs He Hm. split.
  - rewrite new_from_int_tuple_outcome, Hw.
    apply Z.eqb_eq in Hs. rewrite Hs.
    destruct (Z.gtb_spec (bit_length e) eb); [lia |].
    destruct (Z.gtb_spec (bit_length m) mb); [lia |].
    reflexivity.
  - intros x [t Ht]. destruct (as_int_tuple_raises x) as [err Herr].
    congruence.
Qed.

Lemma int_tuple_round_trip_fails_witness :
  new_from_int_tuple Little (64, 0, 1023, 0) "big-endian"
  = Raise (NameError "fromString") /\
  (forall x : float_IEEE754, ~ succeeds (as_int_tuple x)).
Proof.
  apply (int_tuple_round_trip_fails Little 64 0 1023 0 "big-endian" 11 52).
  - reflexivity.
  - reflexivity.
  - vm_compute. discriminate.
  - vm_compute. discriminate.
Defined.

(** C6: both signed zeros are asked from [new_from_int_tuple], which
    raises [NameError] for them as for every other valid tuple.  The zeros
    built by the constructor from -0.0 and 0.0 do have the flags and the
    order the specification states. *)
Theorem signed_zero_tuples h bo :
  new_from_int_tuple h (64, 1, 0, 0) bo = Raise (NameError "fromString") /\
  new_from_int_tuple h (64, 0, 0, 0) bo = Raise (NameError "fromString") /\
  exists negZero posZero,
    construct h (PyFloat (2 ^ 63)) 64 None = Ok negZero /\
    construct h (PyFloat 0) 64 None = Ok posZero /\
    negativeZero negZero = true /\ positiveZero posZero = true /\
    isZero negZero = true /\ isZero posZero = true /\
    totalOrder negZero posZero = Some true /\
    totalOrder posZero negZero = Some false.
Proof.
  split; [rewrite new_from_int_tuple_outcome; reflexivity |].
  split; [rewrite new_from_int_tuple_outcome; reflexivity |].
  destruct h; eexists; eexists;
    (split; [vm_compute; reflexivity |]);
    (split; [vm_compute; reflexivity |]);
    repeat split; reflexivity.
Qed.




(** ** fromString *)

(** The first statement of [fromString] assigns ["big-endian"] to
    [byteOrder]. *)
Lemma fromString_overwrites_byteOrder h (digits : string) (width base_ : Z)
    (forcePositive : bool) (byteOrder : string) :
  fromString h digits width base_ forcePositive byteOrder
  = fromString h digits width base_ forcePositive "big-endian".
Proof. unfold fromString. reflexivity. Qed.

(** C10: [fromString] overwrites its [byteOrder] parameter before the
    first use, so the result, a value or an exception, is the same for
    any two byte orders. *)
Theorem fromString_byteOrder_irrelevant h (digits : string) (width base_ : Z)
    (forcePositive : bool) (b1 b2 : string) :
  fromString h digits width base_ forcePositive b1
  = fromString h digits width base_ forcePositive b2.
Proof.
  rewrite (fromString_overwrites_byteOrder h digits width base_ forcePositive b1).
  rewrite (fromString_overwrites_byteOrder h digits width base_ forcePositive b2).
  reflexivity.
Qed.

Lemma snap_width_in_table (n : Z) : desc_has (snap_width n) = true.
Proof.
  unfold snap_width.
  destruct (n <? 32); [reflexivity |]. destruct (n <? 63); reflexivity.
Qed.

(** C5: the specification asks that the eleven digits alone construct,
    after padding, at width 64.  They denote 2046, which [int.to_bytes]
    renders in two bytes; the loop that pads to the bytes of the width
    calls [append] on the [bytes] object, which has no such method.  So
    the call raises [AttributeError], at every requested width of 32 or
    more (at a width below 32 two bytes are enough). *)
Theorem eleven_digits_raise h (n : Z) (byteOrder : string) :
  32 <= n ->
  fromString h "11111111110" n 2 false byteOrder
  = Raise (AttributeError "'bytes' object has no attribute 'append'").
Proof.
  intros Hn. unfold fromString. cbv zeta.
  destruct (Z.ltb_spec n 32); [lia |].
  destruct h; destruct (n <? 63); vm_compute; reflexivity.
Qed.

Lemma eleven_digits_raise_witness :
  fromString Little "11111111110" 64 2 false "big-endian"
  = Raise (AttributeError "'bytes' object has no attribute 'append'").
Proof. apply (eleven_digits_raise Little 64 "big-endian"). lia. Defined.

(** Given in full, the 64 digits with an all-ones exponent and the
    mantissa 1111 followed by zeros construct: the instance is a NaN, and
    a quiet one, its first mantissa bit being set. *)
Lemma all_ones_pattern_is_quiet_NaN h (byteOrder : string) :
  exists x,
    fromString h all_ones_pattern 64 2 false byteOrder = Ok x /\
    nbits x = 64 /\
    bits_string (rawExp x) = "11111111111" /\
    bits_string (rawMantissa x) = ("1111" ++ str_repeat "0" 48)%string /\
    isInfinite x = false /\ isNaN x = true /\ isSignaling x = false /\
    quietNaN x = true.
Proof.
  rewrite fromString_overwrites_byteOrder.
  destruct h; eexists; (split; [vm_compute; reflexivity |]);
    repeat split; reflexivity.
Qed.

(** The 64-digit pattern of the code's [test] has the exponent field
    11111111110, not all ones: it constructs, and the value is finite. *)
Lemma test_pattern_is_finite h (byteOrder : string) :
  exists x,
    fromString h test_pattern 64 2 false byteOrder = Ok x /\
    nbits x = 64 /\
    bits_string (rawExp x) = "11111111110" /\
    bits_string (rawMantissa x) = ("1111" ++ str_repeat "0" 48)%string /\
    isInfinite x = false /\ isNaN x = false /\ isSignaling x = false /\
    isFinite x = true.
Proof.
  rewrite fromString_overwrites_byteOrder.
  destruct h; eexists; (split; [vm_compute; reflexivity |]);
    repeat split; reflexivity.
Qed.

(** ** bitstring *)

Lemma list_ascii_of_string_app (s t : string) :
  list_ascii_of_string (s ++ t) = list_ascii_of_string s ++ list_ascii_of_string t.
Proof. induction s as [| c s IH]; simpl; [reflexivity | now rewrite IH]. Qed.

Lemma firstn_length_app {A : Type} (l r : list A) :
  firstn (List.length l) (l ++ r) = l.
Proof. induction l as [| a l IH]; simpl; [now destruct r | now rewrite IH]. Qed.

(** [str(a)[10:-2]] strips [bitarray('] and [')] from the repr. *)
Lemma ba_str_slice (a : bitarray) :
  str_slice (ba_str a) (Some 10) (Some (-2)) = bits_string a.
Proof.
  destruct a as [| b a]; [reflexivity |].
  unfold ba_str, str_slice. set (s := bits_string (b :: a)).
  rewrite !list_ascii_of_string_app.
  set (l := list_ascii_of_string s).
  unfold py_slice, py_len, clamp_index.
  rewrite !length_app. cbn [list_ascii_of_string List.length].
  replace (Z.of_nat (10 + (List.length l + 2))) with (Z.of_nat (List.length l) + 12)
    by lia.
  replace (-2 <? 0) with true by reflexivity.
  replace (10 <? 0) with false by reflexivity.
  rewrite Z.min_l, Z.max_l by lia.
  replace (Z.to_nat (-2 + (Z.of_nat (List.length l) + 12) - 10))
    with (List.length l) by lia.
  change (Z.to_nat 10) with 10%nat. cbn [app skipn].
  rewrite firstn_length_app. subst l. apply string_of_list_ascii_of_string.
Qed.

(** The layout of [bitstring]: sign digit, exponent digits, mantissa
    digits, separated by underscores. *)
Lemma bitstring_layout h v n third x :
  construct h v n third = Ok x ->
  bitstring x
  = (String (bit_char (rawSign x)) EmptyString
     ++ "_" ++ bits_string (rawExp x) ++ "_" ++ bits_string (rawMantissa x))%string.
Proof.
  unfold construct, __init__. intros H. cbv zeta in H. bind_inv H.
  injection H as <-. cbn. rewrite !ba_str_slice. reflexivity.
Qed.

(** C9, as stated: the quoted string has 46 mantissa digits. *)
Lemma zero_bitstring_not_as_quoted :
  exists x,
    construct Little (PyFloat 0) 64 None = Ok x /\
    bitstring x
    <> "0_00000000000_0000000000000000000000000000000000000000000000".
Proof.
  eexists. split; [vm_compute; reflexivity |]. intros H. discriminate H.
Qed.

(** C9, amended: the bit string of 0.0 at width 64 is the sign digit, 11
    exponent digits and 52 mantissa digits, all zero. *)
Theorem zero_bitstring h :
  exists x,
    construct h (PyFloat 0) 64 None = Ok x /\
    bitstring x
    = ("0_" ++ str_repeat "0" 11 ++ "_" ++ str_repeat "0" 52)%string /\
    str_len (bitstring x) = 66.
Proof.
  destruct h; eexists; (split; [vm_compute; reflexivity |]);
    split; reflexivity.
Qed.

(** ** Bits, bytes and packing *)

Lemma byte_bits_bits_byte (b7 b6 b5 b4 b3 b2 b1 b0 : bool) :
  byte_bits (bits_byte b7 b6 b5 b4 b3 b2 b1 b0)
  = [b7; b6; b5; b4; b3; b2; b1; b0].
Proof.
  unfold byte_bits, bits_byte. rewrite Byte.to_bits_of_bits. reflexivity.
Qed.

Lemma frombytes_tobytes (k : nat) (l : bitarray) :
  List.length l = (8 * k)%nat -> frombytes (tobytes l) = l.
Proof.
  revert l. induction k as [| k IH]; intros l Hl.
  - destruct l; [reflexivity | discriminate Hl].
  - do 8 (destruct l as [| ? l]; [simpl in Hl; lia |]).
    cbn [tobytes]. unfold frombytes. cbn [flat_map].
    rewrite byte_bits_bits_byte. cbn [app].
    fold (frombytes (tobytes l)). rewrite IH; [reflexivity |].
    simpl in Hl. lia.
Qed.

Lemma bits_of_Z_length (w : nat) (x : Z) : List.length (bits_of_Z w x) = w.
Proof. unfold bits_of_Z. now rewrite length_map, length_rev, length_seq. Qed.

Lemma frombytes_packed (k : nat) (x : Z) :
  frombytes (tobytes (bits_of_Z (8 * k) x)) = bits_of_Z (8 * k) x.
Proof. apply (frombytes_tobytes k), bits_of_Z_length. Qed.

Lemma py_getitem_head {A : Type} (a : A) (l : list A) :
  py_getitem (a :: l) 0 = Ok a.
Proof.
  unfold py_getitem, py_len. cbn [List.length].
  replace (0 <? 0) with false by reflexivity.
  replace (0 <=? 0) with true by reflexivity.
  destruct (Z.ltb_spec 0 (Z.of_nat (S (List.length l)))); [reflexivity | lia].
Qed.

Lemma ba_any_nonempty (a : bitarray) : ba_any a = true -> a <> [].
Proof. destruct a; [discriminate | intros _ C; discriminate C]. Qed.

Lemma exp_slice_nonempty (b0 b1 : bool) (rest : bitarray) (e : Z) :
  1 <= e -> py_slice (b0 :: b1 :: rest) (Some 1) (Some (e + 1)) <> [].
Proof.
  intros He. unfold py_slice, py_len, clamp_index. cbn [List.length].
  replace (1 <? 0) with false by reflexivity.
  destruct (Z.ltb_spec (e + 1) 0); [lia |].
  rewrite (Z.min_l 1) by lia.
  change (Z.to_nat 1) with 1%nat. cbn [skipn].
  destruct (Z.to_nat (Z.min (e + 1) (Z.of_nat (S (S (List.length rest)))) - 1))
    eqn:E; [lia |].
  cbn [firstn]. discriminate.
Qed.

Lemma effective_width_cases (n : Z) :
  (n = 16 /\ effective_width n = 16) \/
  (n = 32 /\ effective_width n = 32) \/
  (n <> 16 /\ n <> 32 /\ effective_width n = 64).
Proof.
  unfold effective_width, desc_has, __desc, assoc_Z.
  destruct (Z.eqb_spec n 16); [auto |].
  destruct (Z.eqb_spec n 32); [auto |].
  destruct (Z.eqb_spec n 64); [subst; auto | auto].
Qed.

Lemma narrow_raises (eb mb : Z) (code : string) (z : Z) (err : exception) :
  narrow eb mb code z = Raise err -> exists msg, err = OverflowError msg.
Proof.
  unfold narrow. destruct (decode 11 52 z); try discriminate.
  destruct (binary_round _ _ _ _ _); try discriminate.
  intros [= <-]. eexists; reflexivity.
Qed.

(** Once the value is packed, the rest of [__init__] cannot fail. *)
Lemma init_after_pack h self v n b d (k : nat) z :
  desc_get (effective_width n) = Ok d ->
  struct_pack h "!" (desc_unpack d) v = Ok (tobytes (bits_of_Z (8 * S k) z)) ->
  1 <= desc_e d ->
  exists x, __init__ h self v n b = Ok x /\ nbits x = effective_width n /\
            bits x = bits_of_Z (8 * S k) z.
Proof.
  intros Hd Hp He. unfold __init__. fold (effective_width n).
  rewrite Hd. cbn [bind]. rewrite Hp. cbn [bind]. cbv zeta.
  rewrite frombytes_packed.
  pose proof (bits_of_Z_length (8 * S k) z) as Hlen.
  set (ba := bits_of_Z (8 * S k) z) in *.
  destruct ba as [| b0 [| b1 rest]] eqn:Eba; [simpl in Hlen; lia .. |].
  rewrite py_getitem_head. cbn [bind].
  pose proof (exp_slice_nonempty b0 b1 rest (desc_e d) He) as Hexp.
  set (rawE := py_slice (b0 :: b1 :: rest) (Some 1) (Some (desc_e d + 1))) in *.
  set (rawM := py_slice (b0 :: b1 :: rest) (Some (desc_e d + 1)) None) in *.
  assert (HM : ba_all rawE && ba_any rawM = true ->
               exists m0, py_getitem rawM 0 = Ok m0).
  { intros H. apply andb_true_iff in H as [_ H].
    apply ba_any_nonempty in H. destruct rawM as [| m0 rawM']; [congruence |].
    exists m0. apply py_getitem_head. }
  destruct (ba_all rawE && ba_any rawM) eqn:ENaN.
  - destruct (HM eq_refl) as [m0 Hm0]. rewrite Hm0. cbn [bind].
    destruct rawE as [| e0 rawE'] eqn:ErawE; [congruence |].
    cbn [ba2int bind]. eexists. split; [reflexivity |]. split; reflexivity.
  - cbn [bind].
    destruct rawE as [| e0 rawE'] eqn:ErawE; [congruence |].
    cbn [ba2int bind]. eexists. split; [reflexivity |]. split; reflexivity.
Qed.

Lemma struct_pack_d h v :
  struct_pack h "!" "d" v = Ok (tobytes (bits_of_Z 64 (float_bits v))).
Proof. reflexivity. Qed.

Lemma struct_pack_f h v :
  struct_pack h "!" "f" v
  = (z <- narrow 8 23 "f" (float_bits v) ;; Ok (tobytes (bits_of_Z 32 z))).
Proof. reflexivity. Qed.

Lemma struct_pack_e h v :
  struct_pack h "!" "e" v
  = (z <- narrow 5 10 "e" (float_bits v) ;; Ok (tobytes (bits_of_Z 16 z))).
Proof. reflexivity. Qed.

Lemma construct_after_pack h v n third d (k : nat) z :
  desc_get (effective_width n) = Ok d ->
  struct_pack h "!" (desc_unpack d) v = Ok (tobytes (bits_of_Z (8 * S k) z)) ->
  1 <= desc_e d ->
  exists x, construct h v n third = Ok x /\ nbits x = effective_width n /\
            bits x = bits_of_Z (8 * S k) z.
Proof. unfold construct. apply init_after_pack. Qed.

Lemma construct_pack_raises h v n third d err :
  desc_get (effective_width n) = Ok d ->
  struct_pack h "!" (desc_unpack d) v = Raise err ->
  construct h v n third = Raise err.
Proof.
  intros Hd Hp. unfold construct, __init__. fold (effective_width n).
  rewrite Hd. cbn [bind]. rewrite Hp. reflexivity.
Qed.

(** The constructor at width 64: always an instance, whose bits are the
    64 bits of the float. *)
Lemma construct_64 h v n third :
  effective_width n = 64 ->
  exists x, construct h v n third = Ok x /\ nbits x = 64 /\
            bits x = bits_of_Z 64 (float_bits v).
Proof.
  intros Hw.
  destruct (construct_after_pack h v n third
              {| desc_pack := "Q"; desc_unpack := "d"; desc_e := 11 |}
              7 (float_bits v)) as [x [Hx [Hn Hb]]].
  - rewrite Hw. reflexivity.
  - apply struct_pack_d.
  - cbn. lia.
  - exists x. rewrite Hw in Hn. auto.
Qed.

(** The constructor at the widths 16 and 32: an instance unless packing
    overflows. *)
Lemma construct_narrow h v n third :
  n = 16 \/ n = 32 ->
  (exists x, construct h v n third = Ok x /\ nbits x = n) \/
  (exists msg, construct h v n third = Raise (OverflowError msg)).
Proof.
  intros [-> | ->].
  - destruct (narrow 5 10 "e" (float_bits v)) as [z | err] eqn:En.
    + left.
      destruct (construct_after_pack h v 16 third
                  {| desc_pack := "H"; desc_unpack := "e"; desc_e := 5 |}
                  1 z) as [x [Hx [Hn _]]];
        [reflexivity | cbn [desc_unpack]; rewrite struct_pack_e, En; reflexivity
        | cbn; lia |].
      exists x. auto.
    + right. destruct (narrow_raises _ _ _ _ _ En) as [msg ->].
      exists msg.
      apply (construct_pack_raises h v 16 third
               {| desc_pack := "H"; desc_unpack := "e"; desc_e := 5 |});
        [reflexivity | cbn [desc_unpack]; rewrite struct_pack_e, En; reflexivity].
  - destruct (narrow 8 23 "f" (float_bits v)) as [z | err] eqn:En.
    + left.
      destruct (construct_after_pack h v 32 third
                  {| desc_pack := "I"; desc_unpack := "f"; desc_e := 8 |}
                  3 z) as [x [Hx [Hn _]]];
        [reflexivity | cbn [desc_unpack]; rewrite struct_pack_f, En; reflexivity
        | cbn; lia |].
      exists x. auto.
    + right. destruct (narrow_raises _ _ _ _ _ En) as [msg ->].
      exists msg.
      apply (construct_pack_raises h v 32 third
               {| desc_pack := "I"; desc_unpack := "f"; desc_e := 8 |});
        [reflexivity | cbn [desc_unpack]; rewrite struct_pack_f, En; reflexivity].
Qed.

Lemma construct_nbits h v n third x :
  construct h v n third = Ok x -> nbits x = effective_width n.
Proof.
  intros Hx.
  destruct (effective_width_cases n) as [[Hn Hw] | [[Hn Hw] | [_ [_ Hw]]]].
  - destruct (construct_narrow h v n third (or_introl Hn))
      as [[x' [Hx' Hn']] | [msg Hmsg]]; congruence.
  - destruct (construct_narrow h v n third (or_intror Hn))
      as [[x' [Hx' Hn']] | [msg Hmsg]]; congruence.
  - destruct (construct_64 h v n third Hw) as [x' [Hx' [Hn' _]]]. congruence.
Qed.

(** ** Rounding to a narrower format *)

Lemma digits2_pos_size (p : positive) : digits2_pos p = Pos.size p.
Proof. induction p as [p IH | p IH |]; cbn; now rewrite ?IH. Qed.

Lemma Zdigits2_log2 (x : Z) : 0 < x -> Zdigits2 x = Z.log2 x + 1.
Proof.
  destruct x as [| p | p]; try lia. intros _. cbn [Zdigits2].
  rewrite digits2_pos_size. destruct p; cbn; lia.
Qed.

Lemma Zdigits2_bounds (x d : Z) :
  0 < d -> 2 ^ (d - 1) <= x < 2 ^ d -> Zdigits2 x = d.
Proof.
  intros Hd Hx.
  assert (0 < x) by (pose proof (Z.pow_pos_nonneg 2 (d - 1)); lia).
  rewrite Zdigits2_log2 by assumption.
  rewrite (Z.log2_unique x (d - 1)); [lia | lia |].
  replace (Z.succ (d - 1)) with d by lia. exact Hx.
Qed.

Lemma Zdigits2_spec (x : Z) :
  0 < x -> 0 < Zdigits2 x /\ 2 ^ (Zdigits2 x - 1) <= x < 2 ^ Zdigits2 x.
Proof.
  intros Hx. rewrite Zdigits2_log2 by assumption.
  pose proof (Z.log2_nonneg x). pose proof (Z.log2_spec x Hx).
  replace (Z.log2 x + 1 - 1) with (Z.log2 x) by lia.
  replace (Z.log2 x + 1) with (Z.succ (Z.log2 x)) by lia. lia.
Qed.

Lemma Zdigits2_le (x d : Z) : 0 < x -> 0 <= d -> x < 2 ^ d -> Zdigits2 x <= d.
Proof.
  intros Hx Hd Hlt. destruct (Zdigits2_spec x Hx) as [H0 [Hlo _]].
  destruct (Z.le_gt_cases (Zdigits2 x) d) as [H | H]; [exact H |].
  assert (2 ^ d <= 2 ^ (Zdigits2 x - 1)) by (apply Z.pow_le_mono_r; lia).
  lia.
Qed.

Lemma iter_pos_nat {A : Type} (f : A -> A) (p : positive) (x : A) :
  iter_pos f p x = Nat.iter (Pos.to_nat p) f x.
Proof.
  revert x. induction p as [p IH | p IH |]; intros x; cbn [iter_pos].
  - rewrite !IH, <- Nat.iter_add, <- Nat.iter_succ_r, Pos2Nat.inj_xI.
    f_equal. lia.
  - rewrite !IH, <- Nat.iter_add, Pos2Nat.inj_xO. f_equal. lia.
  - reflexivity.
Qed.

Lemma shr_1_nonneg (m : Z) (r s : bool) :
  0 <= m ->
  shr_1 {| shr_m := m; shr_r := r; shr_s := s |}
  = {| shr_m := Z.div2 m; shr_r := Z.odd m; shr_s := r || s |}.
Proof. destruct m as [| [p | p |] | p]; intros H; try lia; reflexivity. Qed.

Lemma testbit_odd_div (m k : Z) :
  0 <= k -> Z.testbit m k = Z.odd (m / 2 ^ k).
Proof. intros Hk. now rewrite Z.testbit_odd, Z.shiftr_div_pow2. Qed.

(** [n + 1] right shifts keep the quotient, the last bit shifted out and
    whether a bit was lost before it. *)
Lemma shr_iter (n : nat) (m : Z) :
  0 <= m ->
  Nat.iter (S n) shr_1 {| shr_m := m; shr_r := false; shr_s := false |}
  = {| shr_m := m / 2 ^ Z.of_nat (S n);
       shr_r := Z.odd (m / 2 ^ Z.of_nat n);
       shr_s := negb (m mod 2 ^ Z.of_nat n =? 0) |}.
Proof.
  intros Hm. induction n as [| n IH].
  - cbn [Nat.iter]. rewrite shr_1_nonneg by exact Hm.
    change (2 ^ Z.of_nat 0) with 1. change (2 ^ Z.of_nat 1) with 2.
    rewrite Z.div_1_r, Z.mod_1_r, Z.div2_div. reflexivity.
  - change (Nat.iter (S (S n)) shr_1 ?x) with (shr_1 (Nat.iter (S n) shr_1 x)).
    rewrite IH.
    assert (Hq : 0 <= m / 2 ^ Z.of_nat (S n))
      by (apply Z.div_pos; [exact Hm | apply Z.pow_pos_nonneg; lia]).
    rewrite shr_1_nonneg by exact Hq. f_equal.
    + rewrite Z.div2_div, Z.div_div by (try apply Z.pow_pos_nonneg; lia).
      f_equal. rewrite (Nat2Z.inj_succ (S n)), Z.pow_succ_r by lia. lia.
    + rewrite (Nat2Z.inj_succ n), Z.pow_succ_r by lia.
      assert (Hpow : 0 < 2 ^ Z.of_nat n) by (apply Z.pow_pos_nonneg; lia).
      rewrite (Z.mul_comm 2 (2 ^ Z.of_nat n)).
      rewrite (Z.rem_mul_r m (2 ^ Z.of_nat n) 2) by lia.
      rewrite Zmod_odd.
      pose proof (Z.mod_pos_bound m (2 ^ Z.of_nat n) Hpow) as Hb.
      destruct (Z.odd (m / 2 ^ Z.of_nat n));
        destruct (Z.eqb_spec (m mod 2 ^ Z.of_nat n) 0) as [E | E];
        match goal with
        | |- context [?a =? 0] =>
            match a with
            | _ + _ => destruct (Z.eqb_spec a 0) as [E' | E']
            end
        end; cbn [orb negb]; try reflexivity; exfalso; nia.
Qed.

Lemma shr_exact (m e n : Z) :
  0 <= m -> 0 < n ->
  shr {| shr_m := m; shr_r := false; shr_s := false |} e n
  = ({| shr_m := m / 2 ^ n; shr_r := Z.odd (m / 2 ^ (n - 1));
        shr_s := negb (m mod 2 ^ (n - 1) =? 0) |}, e + n).
Proof.
  intros Hm Hn. destruct n as [| p | p]; try lia. cbn [shr].
  rewrite iter_pos_nat. destruct (Pos2Nat.is_succ p) as [k Hk]. rewrite Hk.
  rewrite shr_iter by exact Hm.
  replace (Z.of_nat (S k)) with (Z.pos p) by lia.
  replace (Z.of_nat k) with (Z.pos p - 1) by lia. reflexivity.
Qed.

Lemma shr_none (mrs : shr_record) (e n : Z) : n <= 0 -> shr mrs e n = (mrs, e).
Proof. destruct n; try lia; reflexivity. Qed.

(** Rounding to nearest, ties to even, from the bit shifted out last and
    the sticky bit. *)
Lemma rne_spec (m : Z) (r s : bool) :
  round_nearest_even m
    (loc_of_shr_record {| shr_m := m; shr_r := r; shr_s := s |})
  = if r && (s || Z.odd m) then m + 1 else m.
Proof.
  destruct r, s; cbn [loc_of_shr_record round_nearest_even andb orb];
    try reflexivity.
  rewrite <- Z.negb_odd. destruct (Z.odd m); reflexivity.
Qed.

Lemma fexp_spec (p em x : Z) : fexp p em x = Z.max (x - p) (3 - em - p).
Proof. reflexivity. Qed.

(** When rounding yields an infinity: the rounded mantissa is not zero
    and its exponent, after renormalisation, exceeds the largest one. *)
Lemma binary_round_aux_infinity (p em : Z) (s : bool) (m e : Z) :
  0 < p -> 0 < m ->
  0 < fexp p em (Zdigits2 m + e) - e ->
  (exists s', binary_round_aux p em s m e loc_Exact = S754_infinity s') <->
  (let n1 := fexp p em (Zdigits2 m + e) - e in
   let m1 := m / 2 ^ n1 in
   let m2 := if Z.odd (m / 2 ^ (n1 - 1))
                && (negb (m mod 2 ^ (n1 - 1) =? 0) || Z.odd m1)
             then m1 + 1 else m1 in
   0 < m2 /\ em - p < e + n1 + Z.max 0 (Zdigits2 m2 - p)).
Proof.
  intros Hp Hm Hn1. cbv zeta.
  set (n1 := fexp p em (Zdigits2 m + e) - e) in *.
  unfold binary_round_aux, shr_fexp. cbn [shr_record_of_loc]. fold n1.
  rewrite shr_exact by lia. cbn [shr_m]. rewrite rne_spec.
  set (m1 := m / 2 ^ n1).
  set (m2 := if Z.odd (m / 2 ^ (n1 - 1))
                && (negb (m mod 2 ^ (n1 - 1) =? 0) || Z.odd m1)
             then m1 + 1 else m1).
  assert (Hm1 : 0 <= m1)
    by (apply Z.div_pos; [lia | apply Z.pow_pos_nonneg; lia]).
  assert (Hm2 : 0 <= m2) by (subst m2; destruct (_ && _); lia).
  assert (He1 : 3 - em - p <= e + n1).
  { subst n1. rewrite fexp_spec. lia. }
  set (e1 := e + n1) in *. clearbody m2 e1.
  rewrite fexp_spec.
  destruct (Z.eq_dec m2 0) as [-> | Hnz].
  - cbn [Zdigits2]. rewrite shr_none by lia. cbn [shr_m].
    split; [intros [s' H]; discriminate H | intros [H _]; lia].
  - assert (Hpos : 0 < m2) by lia.
    destruct (Zdigits2_spec m2 Hpos) as [Hd [Hlo Hhi]].
    set (d2 := Zdigits2 m2) in *.
    destruct (Z.le_gt_cases (Z.max (d2 + e1 - p) (3 - em - p) - e1) 0)
      as [Hn2 | Hn2].
    + rewrite shr_none by exact Hn2. cbn [shr_m].
      destruct m2 as [| q | q]; try lia.
      destruct (Z.leb_spec e1 (em - p)).
      * split; [intros [s' H']; discriminate H' | intros [_ H']; lia].
      * split; [intros _; split; lia | intros _; eexists; reflexivity].
    + rewrite shr_exact by lia. cbn [shr_m].
      assert (Hn : Z.max (d2 + e1 - p) (3 - em - p) - e1 = d2 - p) by lia.
      rewrite Hn in *.
      assert (Hq : 0 < m2 / 2 ^ (d2 - p)).
      { apply Z.div_str_pos. split; [apply Z.pow_pos_nonneg; lia |].
        apply Z.le_trans with (2 ^ (d2 - 1)); [| exact Hlo].
        apply Z.pow_le_mono_r; lia. }
      destruct (m2 / 2 ^ (d2 - p)) as [| q | q]; try lia.
      destruct (Z.leb_spec (e1 + (d2 - p)) (em - p)).
      * split; [intros [s' H']; discriminate H' | intros [_ H']; lia].
      * split; [intros _; split; lia | intros _; eexists; reflexivity].
Qed.

Lemma shl_align_none (m : positive) (e t : Z) :
  e <= t -> shl_align m e t = (m, e).
Proof.
  intros H. unfold shl_align. destruct (t - e) eqn:E; try reflexivity. lia.
Qed.

(** Closed powers of two, as numerals. *)
Ltac pow_consts :=
  repeat match goal with
         | H : context [Z.pow 2 ?e] |- _ =>
             let v := eval vm_compute in (Z.pow 2 e) in
             match v with
             | Zpos _ => change (Z.pow 2 e) with v in H
             end
         | |- context [Z.pow 2 ?e] =>
             let v := eval vm_compute in (Z.pow 2 e) in
             match v with
             | Zpos _ => change (Z.pow 2 e) with v
             end
         end.

Lemma Zdigits2_pos (q : positive) : Zdigits2 (Z.pos q) = Z.pos (digits2_pos q).
Proof. reflexivity. Qed.

(** A subnormal binary64 number never rounds to an infinity of binary16
    or binary32. *)
Lemma round_subnormal_finite (p em : Z) (s : bool) (q : positive) :
  (p = 11 /\ em = 16) \/ (p = 24 /\ em = 128) ->
  Z.pos q < 2 ^ 52 ->
  ~ exists s', binary_round p em s q (-1074) = S754_infinity s'.
Proof.
  intros Hfmt Hq.
  assert (Hd : Zdigits2 (Z.pos q) <= 52) by (apply Zdigits2_le; lia).
  destruct (Zdigits2_spec (Z.pos q)) as [Hd0 _]; [lia |].
  assert (Hf : fexp p em (Zdigits2 (Z.pos q) + -1074) = 3 - em - p)
    by (rewrite fexp_spec; destruct Hfmt as [[-> ->] | [-> ->]]; lia).
  unfold binary_round. rewrite <- Zdigits2_pos, Hf.
  rewrite shl_align_none by (destruct Hfmt as [[-> ->] | [-> ->]]; lia).
  rewrite binary_round_aux_infinity;
    [| destruct Hfmt as [[-> ->] | [-> ->]]; lia | lia
     | rewrite Hf; destruct Hfmt as [[-> ->] | [-> ->]]; lia].
  cbv zeta. rewrite Hf.
  assert (Hsmall : forall k, 52 <= k -> Z.pos q / 2 ^ k = 0).
  { intros k Hk. apply Z.div_small. split; [lia |].
    apply Z.lt_le_trans with (2 ^ 52); [exact Hq |].
    apply Z.pow_le_mono_r; lia. }
  rewrite !Hsmall by (destruct Hfmt as [[-> ->] | [-> ->]]; lia).
  cbn [Z.odd andb]. lia.
Qed.

(** A normal binary64 number with stored exponent [E] and fraction [f]
    rounds to an infinity exactly from the midpoint between the largest
    finite number of the format and the next power of two. *)
Lemma round_normal_overflow (p em : Z) (s : bool) (q : positive) (E f : Z) :
  (p = 11 /\ em = 16) \/ (p = 24 /\ em = 128) ->
  0 <= f < 2 ^ 52 ->
  1 <= E <= 2046 ->
  Z.pos q = 2 ^ 52 + f ->
  (exists s', binary_round p em s q (E - 1075) = S754_infinity s') <->
  (em + 1023) * 2 ^ 52 - 2 ^ (52 - p) <= E * 2 ^ 52 + f.
Proof.
  intros Hfmt Hf HE Hq.
  assert (Hd : Zdigits2 (Z.pos q) = 53)
    by (apply Zdigits2_bounds; [lia | rewrite Hq; lia]).
  assert (Hp : 0 < p /\ 0 < em /\ p <= 52)
    by (destruct Hfmt as [[-> ->] | [-> ->]]; lia).
  unfold binary_round. rewrite <- Zdigits2_pos, Hd.
  rewrite shl_align_none by (rewrite fexp_spec; lia).
  rewrite binary_round_aux_infinity;
    [| lia | lia | rewrite Hd, fexp_spec; lia].
  cbv zeta. rewrite Hd, fexp_spec.
  destruct (Z.le_gt_cases (3 - em - p) (53 + (E - 1075) - p)) as [Hc | Hc].
  - (* the exponent of the format is reached by dropping 53 - p bits *)
    replace (Z.max (53 + (E - 1075) - p) (3 - em - p) - (E - 1075))
      with (53 - p) by lia.
    replace (53 - p - 1) with (52 - p) by lia.
    set (m := Z.pos q) in *.
    set (u := m / 2 ^ (52 - p)).
    set (m1 := m / 2 ^ (53 - p)).
    set (r := m mod 2 ^ (52 - p)).
    assert (Hu : m = 2 ^ (52 - p) * u + r /\ 0 <= r < 2 ^ (52 - p)).
    { subst u r. split; [apply Z.div_mod | apply Z.mod_pos_bound];
        try apply Z.pow_pos_nonneg; try lia. }
    assert (Hm1 : u = 2 * m1 + (if Z.odd u then 1 else 0)).
    { subst u m1. replace (53 - p) with (52 - p + 1) by lia.
      rewrite Z.pow_add_r, <- Z.div_div by (try apply Z.pow_pos_nonneg; lia).
      change (2 ^ 1) with 2. rewrite <- Zmod_odd. apply Z.div_mod. lia. }
    pose proof (Zmod_odd m1) as Ho1.
    assert (Ho1' : m1 = 2 * (m1 / 2) + m1 mod 2) by (apply Z.div_mod; lia).
    clearbody u m1 r.
    set (m2 := if Z.odd u && (negb (r =? 0) || Z.odd m1) then m1 + 1 else m1).
    assert (H2 : 2 ^ (p - 1) <= m2 <= 2 ^ p).
    { subst m2. destruct Hfmt as [[-> ->] | [-> ->]];
        destruct (Z.odd u), (Z.odd m1), (Z.eqb_spec r 0);
        cbn [andb orb negb]; pow_consts; lia. }
    destruct (Z.eq_dec m2 (2 ^ p)) as [Etop | Etop].
    + rewrite Etop.
      rewrite (Zdigits2_bounds (2 ^ p) (p + 1))
        by (destruct Hfmt as [[-> ->] | [-> ->]]; pow_consts; lia).
      subst m2. revert Etop.
      destruct Hfmt as [[-> ->] | [-> ->]];
        destruct (Z.odd u), (Z.odd m1), (Z.eqb_spec r 0);
        cbn [andb orb negb]; intros Etop; pow_consts; lia.
    + rewrite (Zdigits2_bounds m2 p) by lia.
      subst m2. revert Etop H2.
      destruct Hfmt as [[-> ->] | [-> ->]];
        destruct (Z.odd u), (Z.odd m1), (Z.eqb_spec r 0);
        cbn [andb orb negb]; intros Etop H2; pow_consts; lia.
  - (* below the least exponent of the format *)
    assert (Hsmall : E * 2 ^ 52 + f < (em + 1023) * 2 ^ 52 - 2 ^ (52 - p)).
    { clear - Hfmt Hf HE Hc.
      destruct Hfmt as [[-> ->] | [-> ->]]; pow_consts; lia. }
    set (n1 := Z.max (53 + (E - 1075) - p) (3 - em - p) - (E - 1075)).
    assert (Hn1 : n1 = 1078 - em - p - E) by (subst n1; lia).
    set (m := Z.pos q) in *.
    assert (Hm1 : 0 <= m / 2 ^ n1 < 2 ^ (p - 1)).
    { split; [apply Z.div_pos; [lia | apply Z.pow_pos_nonneg; lia] |].
      apply Z.div_lt_upper_bound; [apply Z.pow_pos_nonneg; lia |].
      rewrite <- Z.pow_add_r by lia.
      apply Z.lt_le_trans with (2 ^ 53); [lia |].
      apply Z.pow_le_mono_r; lia. }
    set (m2 := if _ && _ then _ else _).
    assert (H2 : m2 <= 2 ^ (p - 1)) by (subst m2; destruct (_ && _); lia).
    assert (Hpp : 2 ^ (p - 1) < 2 ^ p) by (apply Z.pow_lt_mono_r; lia).
    split.
    + intros [Hpos Hlt]. exfalso.
      assert (Zdigits2 m2 <= p) by (apply Zdigits2_le; lia). lia.
    + intros Hge. exfalso. lia.
Qed.

Lemma field_ranges (z : Z) :
  0 <= exp_of 11 52 z < 2048 /\ 0 <= frac_of 52 z < 2 ^ 52.
Proof.
  unfold exp_of, frac_of. split; apply Z.mod_pos_bound; lia.
Qed.

(** The 63 low bits of a binary64 datum are its stored exponent and its
    fraction. *)
Lemma magnitude_fields (z : Z) :
  z mod 2 ^ 63 = exp_of 11 52 z * 2 ^ 52 + frac_of 52 z.
Proof.
  unfold exp_of, frac_of. rewrite Z.shiftr_div_pow2 by lia.
  change (2 ^ 63) with (2 ^ 52 * 2 ^ 11).
  rewrite Z.rem_mul_r by lia. lia.
Qed.

(** [struct.pack] with 'e' or 'f' refuses exactly the finite values that
    are too large for the width. *)
Lemma narrow_outcome (n eb mb : Z) (code : string) (z : Z) :
  (n = 16 /\ eb = 5 /\ mb = 10) \/ (n = 32 /\ eb = 8 /\ mb = 23) ->
  if too_large_for n (PyFloat z)
  then narrow eb mb code z
       = Raise (OverflowError ("float too large to pack with " ++ code ++ " format"))
  else exists w, narrow eb mb code z = Ok w.
Proof.
  intros Hfmt.
  assert (Hpm : (fmt_prec mb = 11 /\ fmt_emax eb = 16) \/
                (fmt_prec mb = 24 /\ fmt_emax eb = 128))
    by (destruct Hfmt as [[_ [-> ->]] | [_ [-> ->]]]; [left | right];
        split; reflexivity).
  assert (Hthr : overflow_threshold n
                 = (fmt_emax eb + 1023) * 2 ^ 52 - 2 ^ (52 - fmt_prec mb))
    by (destruct Hfmt as [[-> [-> ->]] | [-> [-> ->]]]; reflexivity).
  unfold too_large_for, math_isfinite, decode64, float_abs.
  cbn [float_bits]. rewrite magnitude_fields, Hthr.
  unfold narrow, decode. cbv zeta.
  change (3 - fmt_emax 11 - fmt_prec 52) with (-1074).
  change (2 ^ 11 - 1) with 2047.
  destruct (field_ranges z) as [Re Rm].
  set (e := exp_of 11 52 z) in *. set (f := frac_of 52 z) in *.
  set (s := sign_of 11 52 z). clearbody e f s.
  set (T := (fmt_emax eb + 1023) * 2 ^ 52 - 2 ^ (52 - fmt_prec mb)).
  assert (HT : 2 ^ 52 <= T)
    by (subst T; destruct Hpm as [[-> ->] | [-> ->]]; pow_consts; lia).
  destruct (Z.eqb_spec e 0) as [-> | E0].
  - (* zero or subnormal *)
    destruct (Z.leb_spec T (0 * 2 ^ 52 + f)) as [Hge | Hlt]; [lia |].
    destruct f as [| q | q]; try lia; cbn [andb].
    + eexists; reflexivity.
    + pose proof (round_subnormal_finite (fmt_prec mb) (fmt_emax eb) s q Hpm
                    (proj2 Rm)) as Hfin.
      destruct (binary_round (fmt_prec mb) (fmt_emax eb) s q (-1074)) as [| s' | |];
        try (eexists; reflexivity).
      exfalso. apply Hfin. eexists; reflexivity.
  - destruct (Z.eqb_spec e 2047) as [-> | E1].
    + destruct (f =? 0); cbn [andb]; eexists; reflexivity.
    + destruct (2 ^ 52 + f) as [| q | q] eqn:Eq; try lia.
      replace (e - fmt_emax 11 - fmt_prec 52 + 2) with (e - 1075)
        by (unfold fmt_emax, fmt_prec; lia).
      cbn [andb].
      pose proof (round_normal_overflow (fmt_prec mb) (fmt_emax eb) s q e f
                    Hpm Rm ltac:(lia) (eq_sym Eq)) as Hov.
      fold T in Hov.
      destruct (Z.leb_spec T (e * 2 ^ 52 + f)) as [Hge | Hlt].
      * apply Hov in Hge. destruct Hge as [s' ->]. reflexivity.
      * destruct (binary_round (fmt_prec mb) (fmt_emax eb) s q (e - 1075))
          as [| s' | |]; try (eexists; reflexivity).
        exfalso. apply (Z.lt_irrefl T).
        apply Z.le_lt_trans with (e * 2 ^ 52 + f); [| exact Hlt].
        apply Hov. eexists; reflexivity.
Qed.

(** The constructor at the widths 16 and 32 fails exactly on the finite
    values that are too large for the width. *)
Lemma construct_too_large h v n third :
  n = 16 \/ n = 32 ->
  if too_large_for n v
  then construct h v n third
       = Raise (OverflowError
                  ("float too large to pack with "
                   ++ (if n =? 16 then "e" else "f") ++ " format"))
  else exists x, construct h v n third = Ok x /\ nbits x = n.
Proof.
  intros [-> | ->].
  - pose proof (narrow_outcome 16 5 10 "e" (float_bits v)
                  (or_introl (conj eq_refl (conj eq_refl eq_refl)))) as Hn.
    replace (PyFloat (float_bits v)) with v in Hn by (destruct v; reflexivity).
    destruct (too_large_for 16 v).
    + apply (construct_pack_raises h v 16 third
               {| desc_pack := "H"; desc_unpack := "e"; desc_e := 5 |});
        [reflexivity | cbn [desc_unpack]; rewrite struct_pack_e, Hn; reflexivity].
    + destruct Hn as [z En].
      destruct (construct_after_pack h v 16 third
                  {| desc_pack := "H"; desc_unpack := "e"; desc_e := 5 |}
                  1 z) as [x [Hx [Hw _]]];
        [reflexivity | cbn [desc_unpack]; rewrite struct_pack_e, En; reflexivity
        | cbn; lia |].
      exists x. auto.
  - pose proof (narrow_outcome 32 8 23 "f" (float_bits v)
                  (or_intror (conj eq_refl (conj eq_refl eq_refl)))) as Hn.
    replace (PyFloat (float_bits v)) with v in Hn by (destruct v; reflexivity).
    destruct (too_large_for 32 v).
    + apply (construct_pack_raises h v 32 third
               {| desc_pack := "I"; desc_unpack := "f"; desc_e := 8 |});
        [reflexivity | cbn [desc_unpack]; rewrite struct_pack_f, Hn; reflexivity].
    + destruct Hn as [z En].
      destruct (construct_after_pack h v 32 third
                  {| desc_pack := "I"; desc_unpack := "f"; desc_e := 8 |}
                  3 z) as [x [Hx [Hw _]]];
        [reflexivity | cbn [desc_unpack]; rewrite struct_pack_f, En; reflexivity
        | cbn; lia |].
      exists x. auto.
Qed.

(** C4, as stated: a requested width of 20 is not snapped to 16 by the
    constructor, and 1e300 does not construct at width 32. *)
Lemma constructor_does_not_snap :
  (exists x, construct Little (PyFloat 0) 20 None = Ok x /\
             nbits x = 64 /\ snap_width 20 = 16) /\
  construct Little (PyFloat 0x7E37E43C8800759C) 32 None
  = Raise (OverflowError "float too large to pack with f format").
Proof.
  split; [eexists; split; [vm_compute; reflexivity | split; reflexivity] |].
  vm_compute. reflexivity.
Qed.

(** C4, amended: the constructor keeps a requested width of 16, 32 or 64
    and works at 64 for any other; it never fails when it works at 64.
    At 16 and 32 it fails exactly when the value is finite and its
    magnitude is at least 65520.0, respectively 2^128 - 2^103, the values
    that round to an infinity of that width; the failure is the
    [OverflowError] of [struct.pack], and there is no other.
    [fromString] is where the thresholds 32 and 63 are applied. *)
Theorem constructor_width h v n third :
  (forall x, construct h v n third = Ok x -> nbits x = effective_width n) /\
  (effective_width n = 64 -> succeeds (construct h v n third)) /\
  (n = 16 \/ n = 32 ->
   (too_large_for n v = true ->
    construct h v n third
    = Raise (OverflowError
               ("float too large to pack with "
                ++ (if n =? 16 then "e" else "f") ++ " format"))) /\
   (too_large_for n v = false -> succeeds (construct h v n third))) /\
  (forall err, construct h v n third = Raise err ->
               (n = 16 \/ n = 32) /\ too_large_for n v = true /\
               exists msg, err = OverflowError msg) /\
  (effective_width n = if (n =? 16) || (n =? 32) || (n =? 64) then n else 64).
Proof.
  split; [apply construct_nbits |].
  split.
  { intros Hw. destruct (construct_64 h v n third Hw) as [x [Hx _]].
    exists x. exact Hx. }
  split.
  { intros Hn. pose proof (construct_too_large h v n third Hn) as H.
    destruct (too_large_for n v).
    - split; [intros _; exact H | discriminate].
    - split; [discriminate |]. intros _. destruct H as [x [Hx _]].
      exists x. exact Hx. }
  split.
  { intros err Herr.
    destruct (effective_width_cases n) as [[Hn Hw] | [[Hn Hw] | [_ [_ Hw]]]].
    - pose proof (construct_too_large h v n third (or_introl Hn)) as H.
      destruct (too_large_for n v).
      + split; [auto |]. split; [reflexivity |].
        rewrite H in Herr. injection Herr as <-. eexists; reflexivity.
      + destruct H as [x [Hx _]]. congruence.
    - pose proof (construct_too_large h v n third (or_intror Hn)) as H.
      destruct (too_large_for n v).
      + split; [auto |]. split; [reflexivity |].
        rewrite H in Herr. injection Herr as <-. eexists; reflexivity.
      + destruct H as [x [Hx _]]. congruence.
    - destruct (construct_64 h v n third Hw) as [x [Hx _]]. congruence. }
  unfold effective_width, desc_has, __desc, assoc_Z.
  destruct (n =? 16), (n =? 32), (n =? 64); reflexivity.
Qed.

Lemma constructor_width_witness :
  construct Little (PyFloat 0x40EFFE0000000000) 16 None
  = Raise (OverflowError "float too large to pack with e format") /\
  succeeds (construct Little (PyFloat 0x40EFFDFFFFFFFFFF) 16 None).
Proof.
  split.
  - apply (constructor_width Little (PyFloat 0x40EFFE0000000000) 16 None);
      [left; reflexivity | reflexivity].
  - apply (constructor_width Little (PyFloat 0x40EFFDFFFFFFFFFF) 16 None);
      [left; reflexivity | reflexivity].
Defined.

Lemma fromString_width h digits width base_ forcePositive byteOrder x :
  fromString h digits width base_ forcePositive byteOrder = Ok x ->
  nbits x = snap_width width.
Proof.
  unfold fromString. intros H. cbv zeta in H. bind_inv H.
  fold (snap_width width) in H.
  apply construct_nbits in H. rewrite H.
  unfold effective_width. now rewrite snap_width_in_table.
Qed.

(** ** newFromBitSet and newFromBitReverse *)

(** Setting a bit to the value it has returns the instance itself. *)
Lemma newFromBitSet_same_bit h (x : float_IEEE754) (i : Z) (byteOrder : string)
    (b : bool) :
  __getitem__ x i = Ok b -> newFromBitSet h x i b byteOrder = Ok x.
Proof.
  unfold __getitem__, newFromBitSet. intros ->. cbn [bind].
  now rewrite Bool.eqb_reflx.
Qed.

(** Setting a bit to the other value goes through [fromBitarray] with
    the byte order given. *)
Lemma newFromBitSet_other_bit h (x : float_IEEE754) (i : Z) (byteOrder : string)
    (b : bool) (t : bitarray) :
  __getitem__ x i = Ok b ->
  py_setitem (bits x) i (negb b) = Ok t ->
  newFromBitSet h x i (negb b) byteOrder = fromBitarray h t byteOrder.
Proof.
  unfold __getitem__, newFromBitSet. intros -> ->. cbn [bind].
  destruct b; reflexivity.
Qed.

(** On a little-endian host, from 0.0: reversing bit 0 sets bit 56, and
    reversing bit 0 of that instance gives bits 0 and 56 set. *)
Lemma bit_reverse_twice_from_zero :
  exists x y z,
    construct Little (PyFloat 0) 64 None = Ok x /\
    newFromBitSet Little x 0 false "little-endian" = Ok x /\
    newFromBitReverse Little x 0 = Ok y /\
    newFromBitReverse Little y 0 = Ok z /\
    bitstring y
    = "0_00000000000_0000000000000000000000000000000000000000000010000000" /\
    bitstring z
    = "1_00000000000_0000000000000000000000000000000000000000000010000000" /\
    bits z <> bits x.
Proof.
  eexists. eexists. eexists.
  split; [vm_compute; reflexivity |].
  split; [vm_compute; reflexivity |].
  split; [vm_compute; reflexivity |].
  split; [vm_compute; reflexivity |].
  split; [reflexivity |]. split; [reflexivity |].
  intros H. discriminate H.
Qed.

(** On a big-endian host the same two reversals give 0.0 back. *)
Lemma bit_reverse_twice_big_endian :
  exists x y z,
    construct Big (PyFloat 0) 64 None = Ok x /\
    newFromBitReverse Big x 0 = Ok y /\
    newFromBitReverse Big y 0 = Ok z /\
    bitstring y
    = "1_00000000000_0000000000000000000000000000000000000000000000000000" /\
    bits z = bits x.
Proof.
  eexists. eexists. eexists.
  split; [vm_compute; reflexivity |].
  split; [vm_compute; reflexivity |].
  split; [vm_compute; reflexivity |].
  split; reflexivity.
Qed.

(** ** Round trips between bits, bytes and integers *)

Lemma bits_value_snoc (l : bitarray) (b : bool) :
  bits_value (l ++ [b]) = 2 * bits_value l + Z.b2z b.
Proof. unfold bits_value. rewrite fold_left_app. reflexivity. Qed.

Lemma bits_of_Z_succ (n : nat) (a : Z) (b : bool) :
  bits_of_Z (S n) (2 * a + Z.b2z b) = bits_of_Z n a ++ [b].
Proof.
  unfold bits_of_Z. change (seq 0 (S n)) with (0%nat :: seq 1 n).
  cbn [rev]. rewrite map_app. cbn [map].
  change (Z.of_nat 0) with 0. rewrite Z.testbit_0_r.
  f_equal. rewrite <- seq_shift, <- map_rev, map_map.
  apply map_ext. intros i. rewrite Nat2Z.inj_succ.
  apply Z.testbit_succ_r. lia.
Qed.

(** [struct.pack('!d', struct.unpack('>d', b)[0])] gives [b] back. *)
Lemma bits_of_Z_bits_value (l : bitarray) :
  bits_of_Z (List.length l) (bits_value l) = l.
Proof.
  induction l as [| b l IH] using rev_ind; [reflexivity |].
  rewrite length_app, Nat.add_comm. cbn [List.length Nat.add].
  rewrite bits_value_snoc, bits_of_Z_succ, IH. reflexivity.
Qed.

Lemma byte_bits_length (b : Byte.byte) : List.length (byte_bits b) = 8%nat.
Proof.
  unfold byte_bits.
  destruct (Byte.to_bits b) as [? [? [? [? [? [? [? ?]]]]]]]. reflexivity.
Qed.

Lemma frombytes_length (bs : bytes) :
  List.length (frombytes bs) = (8 * List.length bs)%nat.
Proof.
  induction bs as [| b bs IH]; [reflexivity |].
  unfold frombytes in *. cbn [flat_map].
  rewrite length_app, byte_bits_length, IH. cbn [List.length]. lia.
Qed.

Lemma tobytes_length (k : nat) (l : bitarray) :
  List.length l = (8 * k)%nat -> List.length (tobytes l) = k.
Proof.
  revert l. induction k as [| k IH]; intros l Hl.
  - destruct l; [reflexivity | discriminate Hl].
  - do 8 (destruct l as [| ? l]; [simpl in Hl; lia |]).
    cbn [tobytes List.length]. rewrite IH; [reflexivity |].
    simpl in Hl. lia.
Qed.

Lemma order_bytes_length (o : byteorder) (bs : bytes) :
  List.length (order_bytes o bs) = List.length bs.
Proof. destruct o; [apply length_rev | reflexivity]. Qed.

Lemma set_nth_length {A : Type} (l : list A) (n : nat) (v : A) :
  List.length (set_nth l n v) = List.length l.
Proof.
  revert n. induction l as [| a l IH]; intros [| n]; cbn; auto.
Qed.

Lemma set_nth_twice {A : Type} (l : list A) (n : nat) (v w : A) :
  set_nth (set_nth l n v) n w = set_nth l n w.
Proof.
  revert n. induction l as [| a l IH]; intros [| n]; cbn; auto.
  now rewrite IH.
Qed.

Lemma set_nth_same {A : Type} (l : list A) (n : nat) (a : A) :
  nth_error l n = Some a -> set_nth l n a = l.
Proof.
  revert n. induction l as [| a' l IH]; intros [| n]; cbn; try discriminate.
  - now intros [= ->].
  - intros H. now rewrite IH.
Qed.

Lemma nth_error_set_nth {A : Type} (l : list A) (n : nat) (v : A) :
  (n < List.length l)%nat -> nth_error (set_nth l n v) n = Some v.
Proof.
  revert n. induction l as [| a l IH]; intros [| n]; cbn; try lia; auto.
  intros H. apply IH. lia.
Qed.

Lemma py_getitem_nth {A : Type} (l : list A) (i : Z) (a : A) :
  0 <= i -> nth_error l (Z.to_nat i) = Some a -> py_getitem l i = Ok a.
Proof.
  intros Hi Hn. unfold py_getitem, py_len.
  assert (Z.to_nat i < List.length l)%nat
    by (apply nth_error_Some; congruence).
  destruct (Z.ltb_spec i 0); [lia |].
  destruct (Z.leb_spec 0 i); [| lia].
  destruct (Z.ltb_spec i (Z.of_nat (List.length l))); [| lia].
  cbn [andb]. now rewrite Hn.
Qed.

Lemma py_setitem_nth {A : Type} (l : list A) (i : Z) (v : A) :
  0 <= i -> (Z.to_nat i < List.length l)%nat ->
  py_setitem l i v = Ok (set_nth l (Z.to_nat i) v).
Proof.
  intros Hi Hn. unfold py_setitem, py_len.
  destruct (Z.ltb_spec i 0); [lia |].
  destruct (Z.leb_spec 0 i); [| lia].
  destruct (Z.ltb_spec i (Z.of_nat (List.length l))); [| lia].
  reflexivity.
Qed.

Lemma struct_unpack_d h (prefix : ascii) (o : byteorder) (buf : bytes) :
  struct_order h prefix = Ok o ->
  List.length buf = 8%nat ->
  struct_unpack h prefix "d" buf
  = Ok (PyFloat (bits_value (frombytes (order_bytes o buf)))).
Proof.
  intros Ho Hl. unfold struct_unpack. rewrite Ho. cbn [bind].
  change (struct_size "d") with (@Ok Z 8). cbn [bind].
  unfold py_len. rewrite Hl. reflexivity.
Qed.

(** [fromBitarray] with the default byte order, on 64 bits: the bytes of
    the array are read in host order and repacked in network order. *)
Lemma fromBitarray_64 h (t : bitarray) :
  List.length t = 64%nat ->
  exists y, fromBitarray h t (default_byteOrder h) = Ok y /\
            bits y = frombytes (order_bytes h (tobytes t)).
Proof.
  intros Ht.
  assert (Hbo : exists od, bytesOrders_get h (default_byteOrder h) = Ok od /\
                           struct_order h (order_p od) = Ok h)
    by (destruct h; eexists; split; reflexivity).
  destruct Hbo as [od [Hod Ho]].
  pose proof (tobytes_length 8 t Ht) as Hbytes.
  unfold fromBitarray, fromBytes. rewrite Hod. cbn [bind].
  unfold py_len. rewrite Ht.
  change (desc_get (Z.of_nat 64))
    with (Ok {| desc_pack := "Q"; desc_unpack := "d"; desc_e := 11 |}).
  cbn [bind desc_unpack].
  rewrite (struct_unpack_d h (order_p od) h (tobytes t) Ho Hbytes).
  cbn [bind].
  set (L := frombytes (order_bytes h (tobytes t))).
  assert (HL : List.length L = 64%nat).
  { subst L. rewrite frombytes_length, order_bytes_length, Hbytes. reflexivity. }
  destruct (construct_64 h (PyFloat (bits_value L)) 64 None eq_refl)
    as [y [Hy [_ Hb]]].
  exists y. split; [exact Hy |].
  rewrite Hb. cbn [float_bits]. rewrite <- HL at 1.
  apply bits_of_Z_bits_value.
Qed.

(** One reversal of bit [i] of a 64-bit instance. *)
Lemma newFromBitReverse_64 h (x : float_IEEE754) (i : Z) (b : bool) :
  List.length (bits x) = 64%nat ->
  0 <= i ->
  nth_error (bits x) (Z.to_nat i) = Some b ->
  exists y,
    newFromBitReverse h x i = Ok y /\
    bits y
    = frombytes (order_bytes h (tobytes (set_nth (bits x) (Z.to_nat i) (negb b)))).
Proof.
  intros Hlen Hi Hb.
  assert (Hlt : (Z.to_nat i < List.length (bits x))%nat)
    by (apply nth_error_Some; congruence).
  unfold newFromBitReverse, newFromBitSet.
  rewrite (py_getitem_nth (bits x) i b Hi Hb). cbn [bind].
  replace (Bool.eqb b (if Bool.eqb b false then true else false)) with false
    by (destruct b; reflexivity).
  replace (if Bool.eqb b false then true else false) with (negb b)
    by (destruct b; reflexivity).
  rewrite (py_setitem_nth (bits x) i (negb b) Hi Hlt). cbn [bind].
  apply fromBitarray_64. now rewrite set_nth_length.
Qed.

(** On a big-endian host two reversals of the same bit of a 64-bit
    instance restore the bit pattern. *)
Lemma bit_reverse_twice_big_endian_64 v n third x i :
  construct Big v n third = Ok x ->
  effective_width n = 64 ->
  0 <= i < 64 ->
  exists y z,
    newFromBitReverse Big x i = Ok y /\
    newFromBitReverse Big y i = Ok z /\
    bits z = bits x.
Proof.
  intros Hx Hw Hi.
  destruct (construct_64 Big v n third Hw) as [x' [Hx' [_ Hbits]]].
  assert (x' = x) by congruence. subst x'.
  assert (Hlen : List.length (bits x) = 64%nat)
    by (rewrite Hbits; apply bits_of_Z_length).
  destruct (nth_error (bits x) (Z.to_nat i)) as [b |] eqn:Hb;
    [| apply nth_error_None in Hb; lia].
  destruct (newFromBitReverse_64 Big x i b Hlen (proj1 Hi) Hb) as [y [Hy Hby]].
  cbn [order_bytes] in Hby.
  rewrite (frombytes_tobytes 8) in Hby by (now rewrite set_nth_length).
  assert (Hleny : List.length (bits y) = 64%nat)
    by (now rewrite Hby, set_nth_length).
  assert (Hb' : nth_error (bits y) (Z.to_nat i) = Some (negb b))
    by (rewrite Hby; apply nth_error_set_nth; lia).
  destruct (newFromBitReverse_64 Big y i (negb b) Hleny (proj1 Hi) Hb')
    as [z [Hz Hbz]].
  cbn [order_bytes] in Hbz.
  rewrite (frombytes_tobytes 8) in Hbz by (now rewrite set_nth_length).
  exists y, z. split; [exact Hy |]. split; [exact Hz |].
  rewrite Hbz, Hby, set_nth_twice, negb_involutive.
  now apply set_nth_same.
Qed.

(** Reading the bytes of a 64-bit array backwards. *)
Ltac byte_swap_compute :=
  cbn [set_nth nth_error tobytes rev app frombytes flat_map] in *;
  rewrite ?byte_bits_bits_byte in *;
  cbn [app nth_error] in *.

(** With the eight bytes reversed at each step, setting bit [k] to its
    complement twice never restores a 64-bit array: the first step moves
    the change to another byte. *)
Lemma byte_swapped_reversals_differ (l : bitarray) (k : nat) (b b' : bool) :
  List.length l = 64%nat ->
  nth_error l k = Some b ->
  nth_error (frombytes (rev (tobytes (set_nth l k (negb b))))) k = Some b' ->
  frombytes
    (rev (tobytes
            (set_nth (frombytes (rev (tobytes (set_nth l k (negb b)))))
               k (negb b'))))
  <> l.
Proof.
  intros Hlen Hb Hb'.
  do 64 (destruct l as [| ? l]; [discriminate Hlen |]).
  destruct l; [| discriminate Hlen]. clear Hlen.
  do 64 (destruct k as [| k];
         [ byte_swap_compute;
           injection Hb as <-; byte_swap_compute;
           injection Hb' as <-; byte_swap_compute;
           intros H; injection H; intros;
           repeat match goal with
             | E : negb ?c = ?c |- _ => destruct c; discriminate E
             end
         | ]).
  destruct k; discriminate Hb.
Qed.

(** C7: setting a bit to the value it has returns the instance itself,
    as specified.  Reversing a bit twice does not give the bit pattern back
    on a little-endian host: [newFromBitReverse] hands the bit array,
    which is in network order, to [fromBitarray] with the host's byte
    order, so each reversal also reverses the eight bytes.  For every
    64-bit instance and every index the two reversals succeed and the
    result differs from the original. *)
Theorem bit_reverse_twice_little_endian v n third x i :
  construct Little v n third = Ok x ->
  effective_width n = 64 ->
  0 <= i < 64 ->
  (forall b byteOrder,
      __getitem__ x i = Ok b -> newFromBitSet Little x i b byteOrder = Ok x) /\
  exists y z,
    newFromBitReverse Little x i = Ok y /\
    newFromBitReverse Little y i = Ok z /\
    bits z <> bits x.
Proof.
  intros Hx Hw Hi. split.
  { intros b byteOrder Hb. now apply newFromBitSet_same_bit. }
  destruct (construct_64 Little v n third Hw) as [x' [Hx' [_ Hbits]]].
  assert (x' = x) by congruence. subst x'.
  assert (Hlen : List.length (bits x) = 64%nat)
    by (rewrite Hbits; apply bits_of_Z_length).
  destruct (nth_error (bits x) (Z.to_nat i)) as [b |] eqn:Hb;
    [| apply nth_error_None in Hb; lia].
  destruct (newFromBitReverse_64 Little x i b Hlen (proj1 Hi) Hb) as [y [Hy Hby]].
  cbn [order_bytes] in Hby.
  assert (Hleny : List.length (bits y) = 64%nat).
  { rewrite Hby, frombytes_length, length_rev.
    rewrite (tobytes_length 8); [reflexivity | now rewrite set_nth_length]. }
  destruct (nth_error (bits y) (Z.to_nat i)) as [b' |] eqn:Hb';
    [| apply nth_error_None in Hb'; lia].
  destruct (newFromBitReverse_64 Little y i b' Hleny (proj1 Hi) Hb')
    as [z [Hz Hbz]].
  cbn [order_bytes] in Hbz.
  exists y, z. split; [exact Hy |]. split; [exact Hz |].
  rewrite Hbz, Hby. rewrite Hby in Hb'.
  now apply (byte_swapped_reversals_differ (bits x) (Z.to_nat i) b b').
Qed.

Lemma bit_reverse_twice_little_endian_witness :
  exists x,
    construct Little (PyFloat 0) 64 None = Ok x /\
    exists y z,
      newFromBitReverse Little x 0 = Ok y /\
      newFromBitReverse Little y 0 = Ok z /\
      bits z <> bits x.
Proof.
  eexists. split; [vm_compute; reflexivity |].
  apply (bit_reverse_twice_little_endian (PyFloat 0) 64 None);
    [vm_compute; reflexivity | reflexivity | lia].
Defined.

(** ** The attributes of an instance *)

Lemma py_slice_tail {A : Type} (l : list A) : py_slice l (Some 1) None = tl l.
Proof.
  unfold py_slice, py_len, clamp_index.
  replace (1 <? 0) with false by reflexivity.
  destruct l as [| a l]; [reflexivity |].
  cbn [List.length tl]. rewrite Z.min_l by lia.
  change (Z.to_nat 1) with 1%nat. cbn [skipn].
  replace (Z.to_nat (Z.of_nat (S (List.length l)) - 1)) with (List.length l)
    by lia.
  apply firstn_all.
Qed.

Lemma py_getitem_hd (l : bitarray) (b : bool) :
  py_getitem l 0 = Ok b -> hd false l = b.
Proof.
  destruct l as [| a l]; [discriminate |].
  rewrite py_getitem_head. now intros [= ->].
Qed.

Lemma init_attributes h self v n b x :
  __init__ h self v n b = Ok x -> attributes_of_bits x.
Proof.
  unfold __init__. intros H. cbv zeta in H. bind_inv H.
  injection H as <-.
  set (ba := frombytes a0) in *.
  set (rawE := py_slice ba (Some 1) (Some (desc_e a + 1))) in *.
  set (rawM := py_slice ba (Some (desc_e a + 1)) None) in *.
  assert (Hsig : a2 = ba_all rawE && ba_any rawM && negb (hd false rawM)).
  { destruct (ba_all rawE && ba_any rawM); [| now injection E2 as <-].
    destruct (py_getitem rawM 0) as [m0 |] eqn:Em; [| discriminate E2].
    cbn [bind] in E2. injection E2 as <-.
    now rewrite (py_getitem_hd rawM m0 Em). }
  assert (Hqui : a3 = ba_all rawE && ba_any rawM && hd false rawM).
  { destruct (ba_all rawE && ba_any rawM); [| now injection E3 as <-].
    destruct (py_getitem rawM 0) as [m0 |] eqn:Em; [| discriminate E3].
    cbn [bind] in E3. injection E3 as <-.
    now rewrite (py_getitem_hd rawM m0 Em). }
  constructor; cbn; try reflexivity; try assumption.
  - destruct rawE; [discriminate E4 | now injection E4 as <-].
  - now rewrite py_slice_tail.
  - destruct (ba_all rawE && negb (ba_any rawM)); [reflexivity |].
    destruct (ba_all rawE && ba_any rawM); reflexivity.
  - unfold SIGN_MINUS, SIGN_PLUS.
    destruct a1; cbn; rewrite ?andb_true_r, ?andb_false_r;
      repeat split; reflexivity.
Qed.

Lemma construct_attributes h v n third x :
  construct h v n third = Ok x -> attributes_of_bits x.
Proof. unfold construct. apply init_attributes. Qed.

(** ** Field layout *)

Lemma Ok_inj {A : Type} (a b : A) : Ok a = Ok b -> a = b.
Proof. now intros [= ->]. Qed.

(** The bit array of an instance is the big-endian rendering of an
    integer at one of the three widths, and [fmt] is the table entry of
    that width. *)
Lemma construct_shape h v n third x :
  construct h v n third = Ok x ->
  exists (k : nat) (z : Z),
    bits x = bits_of_Z (8 * S k) z /\
    nbits x = Z.of_nat (8 * S k) /\
    In (nbits x, fmt x)
      [ (16, {| desc_pack := "H"; desc_unpack := "e"; desc_e := 5 |});
        (32, {| desc_pack := "I"; desc_unpack := "f"; desc_e := 8 |});
        (64, {| desc_pack := "Q"; desc_unpack := "d"; desc_e := 11 |}) ].
Proof.
  intros Hx. pose proof (ab_fmt x (construct_attributes h v n third x Hx)) as Hf.
  destruct (effective_width_cases n) as [[-> Hw] | [[-> Hw] | [_ [_ Hw]]]].
  - destruct (narrow 5 10 "e" (float_bits v)) as [z | err] eqn:En.
    + destruct (construct_after_pack h v 16 third
                  {| desc_pack := "H"; desc_unpack := "e"; desc_e := 5 |}
                  1 z) as [x' [Hx' [Hn Hb]]];
        [reflexivity | cbn [desc_unpack]; rewrite struct_pack_e, En; reflexivity
        | cbn; lia |].
      assert (x' = x) by (apply Ok_inj; congruence). subst x'.
      rewrite Hw in Hn. rewrite Hn in Hf. apply Ok_inj in Hf.
      exists 1%nat, z. rewrite Hn, <- Hf.
      split; [exact Hb | split; [reflexivity | cbn; auto]].
    + rewrite (construct_pack_raises h v 16 third
                 {| desc_pack := "H"; desc_unpack := "e"; desc_e := 5 |} err)
        in Hx; [discriminate Hx | reflexivity
               | cbn [desc_unpack]; rewrite struct_pack_e, En; reflexivity].
  - destruct (narrow 8 23 "f" (float_bits v)) as [z | err] eqn:En.
    + destruct (construct_after_pack h v 32 third
                  {| desc_pack := "I"; desc_unpack := "f"; desc_e := 8 |}
                  3 z) as [x' [Hx' [Hn Hb]]];
        [reflexivity | cbn [desc_unpack]; rewrite struct_pack_f, En; reflexivity
        | cbn; lia |].
      assert (x' = x) by (apply Ok_inj; congruence). subst x'.
      rewrite Hw in Hn. rewrite Hn in Hf. apply Ok_inj in Hf.
      exists 3%nat, z. rewrite Hn, <- Hf.
      split; [exact Hb | split; [reflexivity | cbn; auto]].
    + rewrite (construct_pack_raises h v 32 third
                 {| desc_pack := "I"; desc_unpack := "f"; desc_e := 8 |} err)
        in Hx; [discriminate Hx | reflexivity
               | cbn [desc_unpack]; rewrite struct_pack_f, En; reflexivity].
  - destruct (construct_64 h v n third Hw) as [x' [Hx' [Hn Hb]]].
    assert (x' = x) by (apply Ok_inj; congruence). subst x'.
    rewrite Hn in Hf. apply Ok_inj in Hf.
    exists 7%nat, (float_bits v). rewrite Hn, <- Hf.
    split; [exact Hb | split; [reflexivity | cbn; auto]].
Qed.

(** A sequence cut at 1 and at [e + 1]. *)
Lemma slices_partition {A : Type} (l : list A) (e : Z) :
  1 <= e -> e + 1 <= py_len l ->
  exists s,
    py_getitem l 0 = Ok s /\
    l = s :: py_slice l (Some 1) (Some (e + 1)) ++ py_slice l (Some (e + 1)) None /\
    py_len (py_slice l (Some 1) (Some (e + 1))) = e /\
    py_len (py_slice l (Some (e + 1)) None) = py_len l - 1 - e.
Proof.
  intros He Hl. destruct l as [| s l]; [cbn in Hl; lia |].
  exists s. split; [apply py_getitem_head |].
  unfold py_slice, py_len, clamp_index in *. cbn [List.length] in *.
  replace (1 <? 0) with false by reflexivity.
  destruct (Z.ltb_spec (e + 1) 0); [lia |].
  rewrite (Z.min_l 1), (Z.min_l (e + 1)) by lia.
  change (Z.to_nat 1) with 1%nat.
  replace (Z.to_nat (e + 1)) with (S (Z.to_nat e)) by lia.
  cbn [skipn].
  replace (Z.to_nat (e + 1 - 1)) with (Z.to_nat e) by lia.
  replace (Z.to_nat (Z.of_nat (S (List.length l)) - (e + 1)))
    with (List.length l - Z.to_nat e)%nat by lia.
  rewrite <- (length_skipn (Z.to_nat e) l), firstn_all.
  rewrite firstn_skipn. split; [reflexivity |].
  rewrite length_firstn, length_skipn. lia.
Qed.

Lemma bits_fields h v n third x :
  construct h v n third = Ok x ->
  exists eb mb,
    field_widths (nbits x) = Some (eb, mb) /\
    bits x = rawSign x :: rawExp x ++ rawMantissa x /\
    py_len (bits x) = nbits x /\
    py_len (rawExp x) = eb /\
    py_len (rawMantissa x) = mb /\
    desc_e (fmt x) = eb.
Proof.
  intros Hx.
  pose proof (construct_attributes h v n third x Hx) as A.
  destruct (construct_shape h v n third x Hx) as [k [z [Hb [Hn Hin]]]].
  assert (Hlen : py_len (bits x) = nbits x).
  { unfold py_len. rewrite Hb, bits_of_Z_length. now rewrite Hn. }
  assert (He : 1 <= desc_e (fmt x) /\ desc_e (fmt x) + 1 <= nbits x /\
               field_widths (nbits x)
               = Some (desc_e (fmt x), nbits x - 1 - desc_e (fmt x))).
  { destruct Hin as [[= <- <-] | [[= <- <-] | [[= <- <-] | []]]];
      cbn; repeat split; lia. }
  destruct He as [He1 [He2 Hfw]].
  destruct (slices_partition (bits x) (desc_e (fmt x)) He1) as [s [Hs [Hp [L1 L2]]]];
    [lia |].
  rewrite <- (ab_rawExp x A), <- (ab_rawMantissa x A) in Hp.
  rewrite <- (ab_rawExp x A) in L1. rewrite <- (ab_rawMantissa x A) in L2.
  assert (s = rawSign x) by (apply Ok_inj; rewrite <- Hs; apply (ab_rawSign x A)).
  subst s.
  exists (desc_e (fmt x)), (nbits x - 1 - desc_e (fmt x)).
  repeat split; try assumption; try reflexivity. lia.
Qed.

(** X1: the bit array of every instance is the sign bit followed by the
    exponent field and the mantissa field; their lengths are 1, the
    exponent width of the table and the rest, and add up to [nbits]. *)
Theorem field_layout h v n third x :
  construct h v n third = Ok x ->
  exists eb mb,
    field_widths (nbits x) = Some (eb, mb) /\
    bits x = rawSign x :: rawExp x ++ rawMantissa x /\
    py_len (bits x) = nbits x /\
    py_len (rawExp x) = eb /\
    py_len (rawMantissa x) = mb /\
    1 + eb + mb = nbits x.
Proof.
  intros Hx.
  destruct (bits_fields h v n third x Hx) as [eb [mb [Hfw [Hb [Hl [He [Hm _]]]]]]].
  exists eb, mb. repeat split; try assumption.
  apply field_widths_table in Hfw.
  destruct Hfw as [[= <- <- <-] | [[= <- <- <-] | [[= <- <- <-] | []]]];
    reflexivity.
Qed.

Lemma field_layout_witness :
  exists x eb mb,
    construct Little (PyFloat 0x3FF0000000000000) 64 None = Ok x /\
    field_widths (nbits x) = Some (eb, mb) /\
    bits x = rawSign x :: rawExp x ++ rawMantissa x /\
    py_len (bits x) = nbits x /\
    py_len (rawExp x) = eb /\
    py_len (rawMantissa x) = mb /\
    1 + eb + mb = nbits x.
Proof.
  eexists.
  assert (H : construct Little (PyFloat 0x3FF0000000000000) 64 None = Ok _)
    by (vm_compute; reflexivity).
  destruct (field_layout Little _ _ _ _ H) as [eb [mb P]].
  exists eb, mb. split; [exact H | exact P].
Defined.

(** ** bitstring, continued *)

Lemma string_of_list_ascii_length (l : list ascii) :
  String.length (string_of_list_ascii l) = List.length l.
Proof. induction l as [| c l IH]; cbn; [reflexivity | now rewrite IH]. Qed.

Lemma string_length_app (s t : string) :
  String.length (s ++ t) = (String.length s + String.length t)%nat.
Proof. induction s as [| c s IH]; cbn; [reflexivity | now rewrite IH]. Qed.

Lemma bits_string_length (a : bitarray) : str_len (bits_string a) = py_len a.
Proof.
  unfold str_len, py_len, bits_string.
  now rewrite string_of_list_ascii_length, length_map.
Qed.

(** X2: [bitstring] is the sign digit, the exponent digits and the
    mantissa digits, separated by two underscores: the slices [10:-2] of
    the two [repr]s remove exactly the wrapper.  Its length is
    [nbits + 2]. *)
Theorem bitstring_shape h v n third x :
  construct h v n third = Ok x ->
  bitstring x
  = (String (bit_char (rawSign x)) EmptyString
     ++ "_" ++ bits_string (rawExp x) ++ "_" ++ bits_string (rawMantissa x))%string
  /\ str_len (bitstring x) = nbits x + 2.
Proof.
  intros Hx. pose proof (bitstring_layout h v n third x Hx) as HL.
  split; [exact HL |].
  destruct (bits_fields h v n third x Hx) as [eb [mb [Hfw [Hb [Hl [He [Hm _]]]]]]].
  rewrite HL. unfold str_len.
  rewrite !string_length_app. cbn [String.length].
  pose proof (bits_string_length (rawExp x)) as H1.
  pose proof (bits_string_length (rawMantissa x)) as H2.
  unfold str_len in H1, H2.
  rewrite <- Hl, Hb. unfold py_len in *. cbn [List.length].
  rewrite length_app. lia.
Qed.

Lemma bitstring_shape_witness :
  exists x,
    construct Little (PyFloat 0x3FB999999999999A) 16 None = Ok x /\
    bitstring x = "0_01011_1001100110" /\
    str_len (bitstring x) = nbits x + 2.
Proof.
  eexists.
  assert (H : construct Little (PyFloat 0x3FB999999999999A) 16 None = Ok _)
    by (vm_compute; reflexivity).
  split; [exact H |].
  split; [reflexivity |].
  apply (bitstring_shape Little _ _ _ _ H).
Defined.

(** ** The value of a bit field *)

Lemma py_len_snoc {A : Type} (l : list A) (a : A) :
  py_len (l ++ [a]) = py_len l + 1.
Proof. unfold py_len. rewrite length_app. cbn [List.length]. lia. Qed.

Lemma bits_value_bounds (l : bitarray) : 0 <= bits_value l < 2 ^ py_len l.
Proof.
  induction l as [| b l IH] using rev_ind; [cbn; lia |].
  rewrite bits_value_snoc, py_len_snoc, Z.pow_add_r by (unfold py_len; lia).
  destruct b; cbn [Z.b2z]; lia.
Qed.

(** [any()] is "the field is not zero". *)
Lemma ba_any_value (l : bitarray) : ba_any l = negb (bits_value l =? 0).
Proof.
  induction l as [| b l IH] using rev_ind; [reflexivity |].
  unfold ba_any in *. rewrite existsb_app, IH, bits_value_snoc.
  pose proof (bits_value_bounds l) as [Hlo _]. cbn [existsb].
  destruct b; cbn [Z.b2z].
  - rewrite !orb_true_r. symmetry. apply negb_true_iff, Z.eqb_neq. lia.
  - rewrite !orb_false_r, Z.add_0_r. f_equal.
    destruct (Z.eqb_spec (bits_value l) 0), (Z.eqb_spec (2 * bits_value l) 0);
      try reflexivity; lia.
Qed.

(** [all()] is "the field is the largest value of its width". *)
Lemma ba_all_value (l : bitarray) :
  ba_all l = (bits_value l =? 2 ^ py_len l - 1).
Proof.
  induction l as [| b l IH] using rev_ind; [reflexivity |].
  unfold ba_all in *. rewrite forallb_app, IH, bits_value_snoc, py_len_snoc.
  rewrite Z.pow_add_r by (unfold py_len; lia).
  pose proof (bits_value_bounds l) as [Hlo Hhi]. cbn [forallb].
  destruct (Z.eqb_spec (bits_value l) (2 ^ py_len l - 1)) as [-> | Hne];
    destruct b; cbn [Z.b2z andb].
  - symmetry. apply Z.eqb_eq. lia.
  - symmetry. apply Z.eqb_neq. lia.
  - symmetry. apply Z.eqb_neq. lia.
  - symmetry. apply Z.eqb_neq. lia.
Qed.

(** ** Signs, NaN kinds and the exponent *)

(** X3: the sign string is ['-'] exactly when the first bit is set, and
    each category flag is split by the sign into its negative and its
    positive variant: exactly one of the two holds when the category
    holds, none otherwise. *)
Theorem signed_flags h v n third x :
  construct h v n third = Ok x ->
  isSignMinus x = rawSign x /\
  __getitem__ x 0 = Ok (rawSign x) /\
  isNormal x = xorb (negativeNormal x) (positiveNormal x) /\
  isSubnormal x = xorb (negativeSubnormal x) (positiveSubnormal x) /\
  isZero x = xorb (negativeZero x) (positiveZero x) /\
  isInfinite x = xorb (negativeInfinity x) (positiveInfinity x) /\
  (rawSign x = false ->
   negativeNormal x = false /\ negativeSubnormal x = false /\
   negativeZero x = false /\ negativeInfinity x = false) /\
  (rawSign x = true ->
   positiveNormal x = false /\ positiveSubnormal x = false /\
   positiveZero x = false /\ positiveInfinity x = false).
Proof.
  intros Hx. pose proof (construct_attributes h v n third x Hx) as A.
  destruct (ab_signed x A) as [H1 [H2 [H3 [H4 [H5 [H6 [H7 H8]]]]]]].
  unfold isSignMinus, isNormal, isSubnormal, isZero, isInfinite, __getitem__.
  rewrite (ab_sign x A), H1, H2, H3, H4, H5, H6, H7, H8.
  split; [destruct (rawSign x); reflexivity |].
  split; [exact (ab_rawSign x A) |].
  destruct (rawSign x), (normal x), (subnormal x), (zero x), (infinity x);
    cbn; repeat split; intros; try reflexivity; discriminate.
Qed.

Lemma signed_flags_witness :
  exists x,
    construct Little (PyFloat (2 ^ 63)) 64 None = Ok x /\
    isSignMinus x = true /\ negativeZero x = true /\ positiveZero x = false.
Proof.
  eexists.
  assert (H : construct Little (PyFloat (2 ^ 63)) 64 None = Ok _)
    by (vm_compute; reflexivity).
  split; [exact H |].
  destruct (signed_flags Little _ _ _ _ H) as [H1 _].
  split; [rewrite H1; reflexivity |]. split; reflexivity.
Defined.

(** X4: an instance is finite exactly when its exponent field is not all
    ones, that is when it is neither infinite nor NaN; the [zero]
    disjunct of the code adds nothing. *)
Theorem finite_flag h v n third x :
  construct h v n third = Ok x ->
  isFinite x = negb (ba_all (rawExp x)) /\
  isFinite x = negb (isInfinite x || isNaN x) /\
  negb (ba_all (rawExp x)) = (intRawExp x <? 2 ^ desc_e (fmt x) - 1).
Proof.
  intros Hx. pose proof (construct_flags h v n third x Hx) as F.
  pose proof (construct_attributes h v n third x Hx) as A.
  destruct (bits_fields h v n third x Hx) as [eb [mb [_ [_ [_ [He [_ Hd]]]]]]].
  unfold isFinite, isInfinite, isNaN.
  rewrite (ff_finite x F), (ff_zero x F), (ff_infinity x F), (ff_NaN x F).
  split; [flag_cases x F; reflexivity |].
  split; [flag_cases x F; reflexivity |].
  rewrite ba_all_value, (ab_intRawExp x A), He, Hd.
  pose proof (bits_value_bounds (rawExp x)) as [_ Hhi]. rewrite He in Hhi.
  destruct (Z.eqb_spec (bits_value (rawExp x)) (2 ^ eb - 1));
    destruct (Z.ltb_spec (bits_value (rawExp x)) (2 ^ eb - 1));
    try reflexivity; lia.
Qed.

Lemma finite_flag_witness :
  exists x,
    construct Little (PyFloat 0x7FF0000000000000) 64 None = Ok x /\
    isFinite x = false /\ intRawExp x = 2047.
Proof.
  eexists.
  assert (H : construct Little (PyFloat 0x7FF0000000000000) 64 None = Ok _)
    by (vm_compute; reflexivity).
  split; [exact H |].
  destruct (finite_flag Little _ _ _ _ H) as [H1 _].
  split; [rewrite H1; reflexivity | reflexivity].
Defined.

Lemma nan_flags (x : float_IEEE754) :
  flags_of_fields x -> attributes_of_bits x ->
  isNaN x = xorb (isSignaling x) (quietNaN x) /\
  (isNaN x = false -> isCanonical x = true) /\
  (isSignaling x = true -> isCanonical x = true) /\
  (isCanonical x = false <->
   quietNaN x = true /\ ba_any (tl (rawMantissa x)) = true).
Proof.
  intros F A. unfold isNaN, isSignaling, isCanonical.
  rewrite (ab_canonical x A), (ab_signalingNaN x A), (ab_quietNaN x A).
  destruct (NaN x), (hd false (rawMantissa x)),
    (ba_any (tl (rawMantissa x))); cbn;
    repeat split; intros; try reflexivity; try discriminate;
    try (destruct H; discriminate); auto.
Qed.

(** X5: a NaN is either signaling or quiet, by the first mantissa bit,
    never both; every instance is canonical except a quiet NaN with a
    further mantissa bit set. *)
Theorem nan_kinds h v n third x :
  construct h v n third = Ok x ->
  isNaN x = xorb (isSignaling x) (quietNaN x) /\
  isSignaling x = isNaN x && negb (hd false (rawMantissa x)) /\
  (isNaN x = false -> isCanonical x = true) /\
  (isSignaling x = true -> isCanonical x = true) /\
  (isCanonical x = false <->
   quietNaN x = true /\ ba_any (tl (rawMantissa x)) = true).
Proof.
  intros Hx. pose proof (construct_flags h v n third x Hx) as F.
  pose proof (construct_attributes h v n third x Hx) as A.
  destruct (nan_flags x F A) as [H1 [H2 [H3 H4]]].
  split; [exact H1 |]. split; [exact (ab_signalingNaN x A) |].
  split; [exact H2 |]. split; [exact H3 | exact H4].
Qed.

Lemma nan_kinds_witness :
  exists x,
    construct Little (PyFloat 0x7FF8000000000001) 64 None = Ok x /\
    quietNaN x = true /\ isCanonical x = false.
Proof.
  eexists.
  assert (H : construct Little (PyFloat 0x7FF8000000000001) 64 None = Ok _)
    by (vm_compute; reflexivity).
  split; [exact H |]. split; [reflexivity |].
  apply (nan_kinds Little _ _ _ _ H). split; reflexivity.
Defined.

(** X6: [nanPayload] never returns a payload: it returns 0 on every
    canonical instance and raises [TypeError] on the others, which are
    the quiet NaNs with a further mantissa bit set. *)
Theorem nanPayload_outcome h v n third x :
  construct h v n third = Ok x ->
  (forall payload, nanPayload x = Ok payload -> payload = 0) /\
  (nanPayload x = Ok 0 <-> isCanonical x = true) /\
  (nanPayload x = Raise (TypeError "'int' object is not subscriptable")
   <-> quietNaN x = true /\ ba_any (tl (rawMantissa x)) = true).
Proof.
  intros Hx. pose proof (construct_flags h v n third x Hx) as F.
  pose proof (construct_attributes h v n third x Hx) as A.
  destruct (nan_flags x F A) as [_ [H2 [_ H4]]].
  unfold isNaN, isCanonical in *. unfold nanPayload.
  destruct (canonical x) eqn:EC.
  - rewrite orb_true_r.
    split; [now intros payload [= <-] |].
    split; [split; reflexivity |].
    split; [discriminate |].
    intros H. apply H4 in H. discriminate H.
  - destruct (NaN x); [| specialize (H2 eq_refl); discriminate H2].
    cbn [negb orb].
    split; [discriminate |].
    split; [split; discriminate |].
    split; [intros _; now apply H4 | reflexivity].
Qed.

Lemma nanPayload_outcome_witness :
  exists x,
    construct Little (PyFloat 0x7FF8000000000001) 64 None = Ok x /\
    nanPayload x = Raise (TypeError "'int' object is not subscriptable").
Proof.
  eexists.
  assert (H : construct Little (PyFloat 0x7FF8000000000001) 64 None = Ok _)
    by (vm_compute; reflexivity).
  split; [exact H |].
  apply (nanPayload_outcome Little _ _ _ _ H). split; reflexivity.
Defined.

(** X7: the exponent attributes.  [expBias] is [2^(e-1) - 1] and [emax]
    is two more; the stored exponent is below [2^e]; [exp] is 0 on zeros,
    infinities and NaNs, [1 - expBias] on subnormals, and on every finite
    nonzero instance it is the stored exponent less the bias plus one,
    between [1 - expBias] and [emax - 1]. *)
Theorem exponent_attributes h v n third x :
  construct h v n third = Ok x ->
  exists eb mb,
    field_widths (nbits x) = Some (eb, mb) /\
    expBias x = 2 ^ (eb - 1) - 1 /\
    emax x = expBias x + 2 /\
    0 <= intRawExp x < 2 ^ eb /\
    isExp0 x = (intRawExp x =? 0) /\
    (isZero x || isInfinite x || isNaN x = true -> exp x = 0) /\
    (isSubnormal x = true -> exp x = 1 - expBias x) /\
    (isFinite x = true -> isZero x = false ->
     exp x = intRawExp x - expBias x + 1 /\
     1 - expBias x <= exp x < emax x).
Proof.
  intros Hx. pose proof (construct_flags h v n third x Hx) as F.
  pose proof (construct_attributes h v n third x Hx) as A.
  destruct (bits_fields h v n third x Hx) as [eb [mb [Hfw [_ [_ [He [_ Hd]]]]]]].
  exists eb, mb. split; [exact Hfw |].
  assert (Heb : 1 <= eb).
  { apply field_widths_table in Hfw.
    destruct Hfw as [[= _ ? _] | [[= _ ? _] | [[= _ ? _] | []]]]; lia. }
  assert (Hpow : 2 ^ eb = 2 * 2 ^ (eb - 1)).
  { replace eb with (Z.succ (eb - 1)) at 1 by lia. apply Z.pow_succ_r. lia. }
  assert (Hpos : 0 < 2 ^ (eb - 1)) by (apply Z.pow_pos_nonneg; lia).
  pose proof (bits_value_bounds (rawExp x)) as Hb. rewrite He in Hb.
  pose proof (ba_any_value (rawExp x)) as Hany.
  pose proof (ba_all_value (rawExp x)) as Hall. rewrite He in Hall.
  pose proof (ab_exp x A) as Hexp.
  rewrite (ab_emax x A), (ab_expBias x A), (ab_isExp0 x A), Hd.
  rewrite (ab_expBias x A), Hd in Hexp.
  rewrite (ab_intRawExp x A) in *.
  unfold isZero, isInfinite, isNaN, isSubnormal, isFinite.
  rewrite (ff_finite x F).
  rewrite (ff_zero x F), (ff_infinity x F), (ff_NaN x F), (ff_subnormal x F) in *.
  rewrite Hany, Hall in *.
  split; [reflexivity |]. split; [lia |]. split; [exact Hb |].
  split; [now rewrite negb_involutive |].
  destruct (Z.eqb_spec (bits_value (rawExp x)) 0) as [E0 | E0];
    destruct (Z.eqb_spec (bits_value (rawExp x)) (2 ^ eb - 1)) as [E1 | E1];
    destruct (ba_any (rawMantissa x)); cbn [andb orb negb] in *;
    repeat split; intros; try discriminate; try lia.
Qed.

Lemma exponent_attributes_witness :
  exists x,
    construct Little (PyFloat 0x3FF0000000000000) 64 None = Ok x /\
    expBias x = 1023 /\ emax x = 1025 /\ intRawExp x = 1023 /\ exp x = 1.
Proof.
  eexists.
  assert (H : construct Little (PyFloat 0x3FF0000000000000) 64 None = Ok _)
    by (vm_compute; reflexivity).
  split; [exact H |].
  destruct (exponent_attributes Little _ _ _ _ H) as [eb [mb [_ [_ [H3 _]]]]].
  split; [reflexivity |]. split; [rewrite H3; reflexivity |].
  split; reflexivity.
Defined.

(** ** mantissaExpr *)

Lemma mantissa_powers_In (l : bitarray) (i k : Z) :
  In k (mantissa_powers l i) <->
  k < i /\ nth_error l (Z.to_nat (i - k - 1)) = Some true.
Proof.
  revert i. induction l as [| b l IH]; intros i.
  - cbn. split; [intros [] | intros [_ H]].
    destruct (Z.to_nat (i - k - 1)); discriminate H.
  - cbn [mantissa_powers]. cbv zeta.
    assert (Hrec : In k (mantissa_powers l (i - 1)) <->
                   k < i - 1 /\
                   nth_error (b :: l) (Z.to_nat (i - k - 1)) = Some true).
    { rewrite IH. split; intros [Hk Hn]; (split; [exact Hk |]).
      - replace (Z.to_nat (i - k - 1)) with (S (Z.to_nat (i - 1 - k - 1))) by lia.
        exact Hn.
      - replace (Z.to_nat (i - k - 1)) with (S (Z.to_nat (i - 1 - k - 1)))
          in Hn by lia.
        exact Hn. }
    destruct (Z.eq_dec k (i - 1)) as [-> | Hne].
    + replace (Z.to_nat (i - (i - 1) - 1)) with 0%nat by lia. cbn [nth_error].
      destruct b; cbn [In].
      * split; [intros _; split; [lia | reflexivity] | intros _; now left].
      * rewrite Hrec. split; [intros [Hk _]; lia | intros [_ H]; discriminate H].
    + destruct b; cbn [In]; rewrite Hrec.
      * split; [intros [H | [Hk Hn]]; [congruence | split; [lia | exact Hn]]
               | intros [Hk Hn]; right; split; [lia | exact Hn]].
      * split; intros [Hk Hn]; (split; [lia | exact Hn]).
Qed.

Lemma mantissa_powers_sorted (l : bitarray) (i : Z) :
  StronglySorted Z.gt (mantissa_powers l i).
Proof.
  revert i. induction l as [| b l IH]; intros i; [constructor |].
  cbn [mantissa_powers]. cbv zeta. destruct b; [| apply IH].
  constructor; [apply IH |].
  apply Forall_forall. intros k Hk. apply mantissa_powers_In in Hk. lia.
Qed.

(** X8: on an instance that is neither infinite nor NaN, [mantissaExpr]
    lists, in decreasing order, the exponents [-j] of the set bits of
    [bmantissa], counted from 1; [bmantissa] is the mantissa field with a
    leading 1, also on subnormals, except on zeros, where it is the
    mantissa field and the list is empty. *)
Theorem mantissaExpr_powers h v n third x :
  construct h v n third = Ok x ->
  isFinite x = true ->
  exists powers,
    mantissaExpr x = ExprPowers powers /\
    StronglySorted Z.gt powers /\
    (forall k, In k powers <->
               k < 0 /\ nth_error (bmantissa x) (Z.to_nat (- k - 1)) = Some true) /\
    (isZero x = true -> bmantissa x = rawMantissa x /\ powers = []) /\
    (isZero x = false ->
     bmantissa x = true :: rawMantissa x /\ hd 0 powers = -1).
Proof.
  intros Hx Hfin. pose proof (construct_flags h v n third x Hx) as F.
  pose proof (construct_attributes h v n third x Hx) as A.
  unfold isFinite, isZero in *.
  pose proof (ab_mantissaExpr x A) as HM. pose proof (ab_bmantissa x A) as HB.
  assert (Hinf : infinity x = false /\ NaN x = false).
  { rewrite (ff_finite x F), (ff_zero x F), (ff_infinity x F), (ff_NaN x F)
      in Hfin.
    rewrite (ff_infinity x F), (ff_NaN x F).
    flag_cases x F; cbn [andb orb negb] in *;
      first [discriminate Hfin | split; reflexivity]. }
  destruct Hinf as [Hi Hn]. rewrite Hi, Hn in HM, HB. cbn [orb] in HB.
  exists (mantissa_powers (bmantissa x) 0).
  split; [exact HM |]. split; [apply mantissa_powers_sorted |].
  split.
  { intros k. rewrite mantissa_powers_In.
    replace (0 - k - 1) with (- k - 1) by lia. reflexivity. }
  split; intros Hz; rewrite Hz in HB.
  - split; [exact HB |]. rewrite HB.
    rewrite (ff_zero x F) in Hz. apply andb_true_iff in Hz as [Hz _].
    apply negb_true_iff in Hz.
    assert (forall l i, ba_any l = false -> mantissa_powers l i = []) as Hnone.
    { induction l as [| b l IH]; intros i Hl; [reflexivity |].
      cbn in Hl. apply orb_false_iff in Hl as [-> Hl]. cbn. now apply IH. }
    now apply Hnone.
  - split; [exact HB |]. rewrite HB. reflexivity.
Qed.

Lemma mantissaExpr_powers_witness :
  exists x,
    construct Little (PyFloat 0x3FF8000000000000) 64 None = Ok x /\
    mantissaExpr x = ExprPowers [-1; -2].
Proof.
  eexists.
  assert (H : construct Little (PyFloat 0x3FF8000000000000) 64 None = Ok _)
    by (vm_compute; reflexivity).
  split; [exact H |].
  destruct (mantissaExpr_powers Little _ _ _ _ H eq_refl) as [powers [HM _]].
  reflexivity.
Defined.

(** ** abs and totalOrderMag *)

Lemma init_float_and_base h (s1 s2 v : pyfloat) (n b1 b2 : Z) :
  __init__ h s2 v n b2
  = match __init__ h s1 v n b1 with
    | Ok x => Ok (with_float_and_base s2 b2 x)
    | Raise err => Raise err
    end.
Proof.
  unfold __init__. cbv zeta.
  destruct (desc_get (if desc_has n then n else 64)) as [d |]; cbn [bind];
    [| reflexivity].
  destruct (struct_pack h "!" (desc_unpack d) v) as [packed |]; cbn [bind];
    [| reflexivity].
  destruct (py_getitem (frombytes packed) 0) as [s |]; cbn [bind];
    [| reflexivity].
  match goal with
  | |- bind ?c _ = _ => destruct c as [sig |]; cbn [bind]; [| reflexivity]
  end.
  match goal with
  | |- bind ?c _ = _ => destruct c as [qui |]; cbn [bind]; [| reflexivity]
  end.
  match goal with
  | |- bind ?c _ = _ => destruct c as [ire |]; cbn [bind]; [| reflexivity]
  end.
  reflexivity.
Qed.

Lemma effective_width_idempotent (n : Z) :
  effective_width (effective_width n) = effective_width n.
Proof.
  destruct (effective_width_cases n) as [[_ ->] | [[_ ->] | [_ [_ ->]]]];
    reflexivity.
Qed.

Lemma init_effective_width h s v n b :
  __init__ h s v (effective_width n) b = __init__ h s v n b.
Proof.
  unfold __init__. fold (effective_width n).
  fold (effective_width (effective_width n)).
  now rewrite effective_width_idempotent.
Qed.

(** X9: [abs] packs the float of its argument again: on an instance
    built without [forcePositive] it returns the same bit fields, flags
    and bit string, sign bit included; only the inherited float is made
    non-negative, and [base] becomes [True]. *)
Theorem abs_keeps_bit_fields h v n x :
  construct h v n None = Ok x ->
  abs h x = Ok (with_float_and_base (float_abs v) 1 x) /\
  (forall y, abs h x = Ok y ->
             bits y = bits x /\ isSignMinus y = isSignMinus x /\
             bitstring y = bitstring x /\ value y = float_abs v).
Proof.
  intros Hx.
  assert (Hv : value x = v /\ nbits x = effective_width n).
  { pose proof (construct_nbits h v n None x Hx) as Hn. split; [| exact Hn].
    unfold construct, __init__ in Hx. cbv zeta in Hx. bind_inv Hx.
    now injection Hx as <-. }
  destruct Hv as [Hv Hn].
  assert (Habs : abs h x = Ok (with_float_and_base (float_abs v) 1 x)).
  { unfold abs, construct. rewrite Hv, Hn. cbn [negb Z.eqb __new__].
    rewrite init_effective_width.
    rewrite (init_float_and_base h v (float_abs v) v n 2 1).
    unfold construct in Hx. cbn [__new__] in Hx. now rewrite Hx. }
  split; [exact Habs |].
  intros y Hy. rewrite Habs in Hy. injection Hy as <-. repeat split.
Qed.

Lemma abs_keeps_bit_fields_witness :
  exists x y,
    construct Little (PyFloat 0xBFF0000000000000) 64 None = Ok x /\
    abs Little x = Ok y /\
    isSignMinus y = true /\
    value y = PyFloat 0x3FF0000000000000.
Proof.
  eexists. eexists.
  assert (H : construct Little (PyFloat 0xBFF0000000000000) 64 None = Ok _)
    by (vm_compute; reflexivity).
  split; [exact H |].
  destruct (abs_keeps_bit_fields Little _ _ _ H) as [Habs _].
  split; [exact Habs |]. split; reflexivity.
Defined.

(** X10: [totalOrderMag] returns for no pair of instances: its body calls
    [totalOrder] and [self] by their bare names, and the first lookup
    raises [NameError]. *)
Theorem totalOrderMag_raises h (x y : float_IEEE754) :
  totalOrderMag h x y = Raise (NameError "totalOrder").
Proof. reflexivity. Qed.

(** ** fromBytes and fromBitarray *)

Lemma bits_byte_byte_bits (b : Byte.byte) :
  tobytes (byte_bits b) = [b].
Proof.
  unfold byte_bits.
  destruct (Byte.to_bits b) as [b0 [b1 [b2 [b3 [b4 [b5 [b6 b7]]]]]]] eqn:E.
  cbn [tobytes]. unfold bits_byte. rewrite <- E.
  now rewrite Byte.of_bits_to_bits.
Qed.

Lemma tobytes_frombytes (bs : bytes) : tobytes (frombytes bs) = bs.
Proof.
  induction bs as [| b bs IH]; [reflexivity |].
  unfold frombytes in *. cbn [flat_map]. unfold byte_bits at 1.
  destruct (Byte.to_bits b) as [b0 [b1 [b2 [b3 [b4 [b5 [b6 b7]]]]]]] eqn:E.
  cbn [app tobytes]. rewrite IH. f_equal.
  unfold bits_byte. rewrite <- E. apply Byte.of_bits_to_bits.
Qed.

Lemma byteOrder_endianness_get h (name : string) (o : byteorder) :
  byteOrder_endianness h name = Some o ->
  exists od, bytesOrders_get h name = Ok od /\
             struct_order h (order_p od) = Ok o.
Proof.
  unfold byteOrder_endianness, bytesOrders_get.
  destruct (assoc_str name (__bytesOrders h)) as [od |]; [| discriminate].
  destruct (struct_order h (order_p od)) as [o' |] eqn:E; [| discriminate].
  intros [= <-]. exists od. split; [reflexivity | exact E].
Qed.

Lemma byteOrder_endianness_names h (name : string) :
  byteOrder_endianness h name
  = if String.eqb name "native-align" then Some h
    else if String.eqb name "native" then Some h
    else if String.eqb name "little-endian" then Some Little
    else if String.eqb name "big-endian" then Some Big
    else if String.eqb name "network" then Some Big
    else None.
Proof.
  unfold byteOrder_endianness, __bytesOrders, assoc_str.
  repeat (match goal with
          | |- context [String.eqb name ?k] => destruct (String.eqb name k)
          end; [reflexivity |]).
  reflexivity.
Qed.

(** [fromBytes] on eight bytes at width 64. *)
Lemma fromBytes_64 h (buf : bytes) (name : string) (o : byteorder) :
  List.length buf = 8%nat ->
  byteOrder_endianness h name = Some o ->
  exists y, fromBytes h buf 64 name = Ok y /\ nbits y = 64 /\
            bits y = frombytes (order_bytes o buf).
Proof.
  intros Hlen Ho.
  destruct (byteOrder_endianness_get h name o Ho) as [od [Hod Hso]].
  unfold fromBytes. rewrite Hod. cbn [bind].
  change (desc_get 64)
    with (Ok {| desc_pack := "Q"; desc_unpack := "d"; desc_e := 11 |}).
  cbn [bind desc_unpack].
  rewrite (struct_unpack_d h (order_p od) o buf Hso Hlen). cbn [bind].
  set (L := frombytes (order_bytes o buf)).
  assert (HL : List.length L = 64%nat).
  { subst L. rewrite frombytes_length, order_bytes_length, Hlen. reflexivity. }
  destruct (construct_64 h (PyFloat (bits_value L)) 64 None eq_refl)
    as [y [Hy [Hn Hb]]].
  exists y. split; [exact Hy |]. split; [exact Hn |].
  rewrite Hb. cbn [float_bits]. rewrite <- HL at 1.
  apply bits_of_Z_bits_value.
Qed.

(** X11: [fromBytes] at width 64 keeps the eight bytes in the byte order
    asked for: the bit array of the instance, turned back into bytes, is
    the buffer for a big-endian order and the reversed buffer for a
    little-endian one. *)
Theorem fromBytes_keeps_bytes h (buf : bytes) (name : string) (o : byteorder) :
  List.length buf = 8%nat ->
  byteOrder_endianness h name = Some o ->
  exists y,
    fromBytes h buf 64 name = Ok y /\
    nbits y = 64 /\
    tobytes (bits y) = match o with Big => buf | Little => rev buf end.
Proof.
  intros Hlen Ho.
  destruct (fromBytes_64 h buf name o Hlen Ho) as [y [Hy [Hn Hb]]].
  exists y. split; [exact Hy |]. split; [exact Hn |].
  rewrite Hb, tobytes_frombytes. destruct o; reflexivity.
Qed.

Lemma fromBytes_keeps_bytes_witness :
  exists y,
    fromBytes Little (tobytes (bits_of_Z 64 0x3FF0000000000000)) 64 "network"
    = Ok y /\
    nbits y = 64 /\
    tobytes (bits y) = tobytes (bits_of_Z 64 0x3FF0000000000000).
Proof.
  apply (fromBytes_keeps_bytes Little _ "network" Big); reflexivity.
Defined.

(** X12: the errors of [fromBytes], in the order the code meets them: an
    unknown byte order name raises [KeyError] with that name; then a
    width that is not in the table raises [KeyError]; then a buffer whose
    length is not the width in bytes raises the error of [struct]. *)
Theorem fromBytes_errors h (buf : bytes) (n : Z) (name : string) :
  (byteOrder_endianness h name = None ->
   fromBytes h buf n name = Raise (KeyError name)) /\
  (byteOrder_endianness h name <> None -> desc_has n = false ->
   fromBytes h buf n name = Raise (KeyError (int_repr n))) /\
  (byteOrder_endianness h name <> None -> desc_has n = true ->
   py_len buf <> n / 8 ->
   is_StructError (fromBytes h buf n name)).
Proof.
  rewrite byteOrder_endianness_names.
  unfold is_StructError, fromBytes, bytesOrders_get, __bytesOrders, assoc_str, desc_has, desc_get.
  repeat (match goal with
          | |- context [String.eqb name ?k] => destruct (String.eqb name k)
          end;
          [ split; [discriminate |]; cbn [bind order_p];
            split; intros _;
            [ destruct (assoc_Z n __desc); [discriminate | reflexivity]
            | unfold __desc, assoc_Z;
              destruct (Z.eqb_spec n 16) as [-> |];
              [ intros _ Hl; cbn [bind desc_unpack]; unfold struct_unpack;
                cbn [struct_order struct_size bind Ascii.eqb Bool.eqb orb];
                destruct (Z.eqb_spec (py_len buf) 2); [exfalso; now apply Hl | eexists; reflexivity]
              | destruct (Z.eqb_spec n 32) as [-> |];
                [ intros _ Hl; cbn [bind desc_unpack]; unfold struct_unpack;
                  cbn [struct_order struct_size bind Ascii.eqb Bool.eqb orb];
                  destruct (Z.eqb_spec (py_len buf) 4); [exfalso; now apply Hl | eexists; reflexivity]
                | destruct (Z.eqb_spec n 64) as [-> |];
                  [ intros _ Hl; cbn [bind desc_unpack]; unfold struct_unpack;
                    cbn [struct_order struct_size bind Ascii.eqb Bool.eqb orb];
                    destruct (Z.eqb_spec (py_len buf) 8); [exfalso; now apply Hl | eexists; reflexivity]
                  | discriminate ] ] ] ]
          | ]).
  split; [reflexivity |]. split; intros H; now contradiction H.
Qed.

Lemma fromBytes_errors_witness :
  is_StructError (fromBytes Little [] 64 "big-endian").
Proof.
  apply (fromBytes_errors Little [] 64 "big-endian");
    [discriminate | reflexivity | discriminate].
Defined.

(** X13: the table's names for one byte order are interchangeable:
    ['network'] behaves as ['big-endian'], ['native-align'] as
    ['native'], and ['native'] as the host's own order, which is the
    default of every [byteOrder] parameter. *)
Theorem byteOrder_aliases h (buf : bytes) (n : Z) :
  fromBytes h buf n "network" = fromBytes h buf n "big-endian" /\
  fromBytes h buf n "native-align" = fromBytes h buf n "native" /\
  fromBytes h buf n "native" = fromBytes h buf n (default_byteOrder h).
Proof.
  unfold fromBytes.
  split; [| split].
  - change (bytesOrders_get h "network")
      with (Ok {| order_p := "!"; order_tb := Big |}).
    change (bytesOrders_get h "big-endian")
      with (Ok {| order_p := ">"; order_tb := Big |}).
    cbn [bind order_p]. destruct (desc_get n); reflexivity.
  - change (bytesOrders_get h "native-align")
      with (Ok {| order_p := "@"; order_tb := h |}).
    change (bytesOrders_get h "native")
      with (Ok {| order_p := "="; order_tb := h |}).
    cbn [bind order_p]. destruct (desc_get n); reflexivity.
  - destruct h.
    + change (bytesOrders_get Little (default_byteOrder Little))
        with (Ok {| order_p := "<"; order_tb := Little |}).
      change (bytesOrders_get Little "native")
        with (Ok {| order_p := "="; order_tb := Little |}).
      cbn [bind order_p]. destruct (desc_get n); reflexivity.
    + change (bytesOrders_get Big (default_byteOrder Big))
        with (Ok {| order_p := ">"; order_tb := Big |}).
      change (bytesOrders_get Big "native")
        with (Ok {| order_p := "="; order_tb := Big |}).
      cbn [bind order_p]. destruct (desc_get n); reflexivity.
Qed.

(** ** Bit access and newFromBitSet *)

Lemma nth_error_set_nth_other {A : Type} (l : list A) (i j : nat) (v : A) :
  i <> j -> nth_error (set_nth l i v) j = nth_error l j.
Proof.
  revert i j. induction l as [| a l IH]; intros [| i] [| j] H; cbn;
    try reflexivity; try congruence.
  apply IH. congruence.
Qed.

Lemma py_getitem_set_nth_other {A : Type} (l : list A) (i j : Z) (v : A) :
  0 <= i -> 0 <= j -> i <> j ->
  py_getitem (set_nth l (Z.to_nat i) v) j = py_getitem l j.
Proof.
  intros Hi Hj Hne. unfold py_getitem, py_len.
  rewrite set_nth_length.
  destruct (Z.ltb_spec j 0); [lia |].
  rewrite nth_error_set_nth_other by lia. reflexivity.
Qed.

Lemma py_getitem_negative {A : Type} (l : list A) (i : Z) :
  - py_len l <= i < 0 -> py_getitem l i = py_getitem l (i + py_len l).
Proof.
  intros Hi. unfold py_getitem.
  destruct (Z.ltb_spec i 0); [| lia].
  destruct (Z.ltb_spec (i + py_len l) 0); [lia | reflexivity].
Qed.

Lemma py_setitem_negative {A : Type} (l : list A) (i : Z) (v : A) :
  - py_len l <= i < 0 -> py_setitem l i v = py_setitem l (i + py_len l) v.
Proof.
  intros Hi. unfold py_setitem.
  destruct (Z.ltb_spec i 0); [| lia].
  destruct (Z.ltb_spec (i + py_len l) 0); [lia | reflexivity].
Qed.

Lemma py_getitem_out_of_range {A : Type} (l : list A) (i : Z) :
  i < - py_len l \/ py_len l <= i ->
  py_getitem l i = Raise (IndexError "index out of range").
Proof.
  intros Hi. unfold py_getitem.
  destruct (Z.ltb_spec i 0);
    [destruct (Z.leb_spec 0 (i + py_len l)) | destruct (Z.leb_spec 0 i)];
    cbn [andb]; try reflexivity.
  - lia.
  - destruct (Z.ltb_spec i (py_len l)); [lia | reflexivity].
Qed.

(** X14: bit indices follow Python's rule.  An index from [-nbits] to
    [-1] names the same bit as that index plus the length, for reading,
    setting and reversing; an index outside [-len, len) raises
    [IndexError] in all three. *)
Theorem bit_indices h (x : float_IEEE754) (i : Z) (v : bool) (name : string) :
  (- py_len (bits x) <= i < 0 ->
   __getitem__ x i = __getitem__ x (i + py_len (bits x)) /\
   newFromBitSet h x i v name = newFromBitSet h x (i + py_len (bits x)) v name /\
   newFromBitReverse h x i = newFromBitReverse h x (i + py_len (bits x))) /\
  (i < - py_len (bits x) \/ py_len (bits x) <= i ->
   is_IndexError (__getitem__ x i) /\
   is_IndexError (newFromBitSet h x i v name) /\
   is_IndexError (newFromBitReverse h x i)).
Proof.
  unfold is_IndexError, __getitem__, newFromBitReverse, newFromBitSet.
  split; intros Hi.
  - rewrite (py_getitem_negative (bits x) i Hi).
    split; [reflexivity |].
    destruct (py_getitem (bits x) (i + py_len (bits x))) as [b |];
      cbn [bind]; [| split; reflexivity].
    rewrite ?(py_setitem_negative (bits x) i _ Hi). split; reflexivity.
  - rewrite (py_getitem_out_of_range (bits x) i Hi).
    repeat split; eexists; reflexivity.
Qed.

Lemma bit_indices_witness :
  exists x,
    construct Little (PyFloat (2 ^ 63)) 64 None = Ok x /\
    __getitem__ x (-64) = __getitem__ x 0 /\
    is_IndexError (__getitem__ x 64).
Proof.
  eexists.
  assert (H : construct Little (PyFloat (2 ^ 63)) 64 None = Ok _)
    by (vm_compute; reflexivity).
  split; [exact H |]. split.
  - match goal with
    | |- __getitem__ ?x _ = _ =>
        apply (proj1 (bit_indices Little x (-64) true "network"))
    end.
    vm_compute. split; [discriminate | reflexivity].
  - match goal with
    | |- is_IndexError (__getitem__ ?x _) =>
        apply (proj2 (bit_indices Little x 64 true "network"))
    end.
    right. vm_compute. discriminate.
Defined.

Lemma fromBitarray_64_order h (t : bitarray) (name : string) (o : byteorder) :
  List.length t = 64%nat ->
  byteOrder_endianness h name = Some o ->
  exists y, fromBitarray h t name = Ok y /\ nbits y = 64 /\
            bits y = frombytes (order_bytes o (tobytes t)).
Proof.
  intros Ht Ho. unfold fromBitarray, py_len. rewrite Ht.
  change (Z.of_nat 64) with 64.
  apply fromBytes_64; [now apply (tobytes_length 8) | exact Ho].
Qed.

(** X15: with a big-endian byte order, [newFromBitSet] on a 64-bit
    instance gives an instance that reads the new value at the index and
    the old values everywhere else; the bit array is the old one with
    that one position set. *)
Theorem newFromBitSet_sets_one_bit h h0 v0 n third x (i : Z) (v : bool)
    (name : string) :
  construct h0 v0 n third = Ok x ->
  nbits x = 64 ->
  0 <= i < 64 ->
  byteOrder_endianness h name = Some Big ->
  exists y,
    newFromBitSet h x i v name = Ok y /\
    bits y = set_nth (bits x) (Z.to_nat i) v /\
    __getitem__ y i = Ok v /\
    (forall j, 0 <= j < 64 -> j <> i -> __getitem__ y j = __getitem__ x j).
Proof.
  intros Hx Hn Hi Ho.
  destruct (bits_fields h0 v0 n third x Hx) as [eb [mb [_ [_ [Hl _]]]]].
  rewrite Hn in Hl. unfold py_len in Hl.
  assert (Hlen : List.length (bits x) = 64%nat) by lia.
  destruct (nth_error (bits x) (Z.to_nat i)) as [b |] eqn:Hb;
    [| apply nth_error_None in Hb; lia].
  assert (Hget : forall l : bitarray,
             List.length l = 64%nat ->
             py_getitem (set_nth l (Z.to_nat i) v) i = Ok v).
  { intros l Hl'. apply py_getitem_nth; [lia |].
    apply nth_error_set_nth. lia. }
  unfold newFromBitSet, __getitem__.
  rewrite (py_getitem_nth (bits x) i b (proj1 Hi) Hb). cbn [bind].
  destruct (Bool.eqb b v) eqn:Ebv.
  - apply Bool.eqb_prop in Ebv. subst v.
    exists x. rewrite (set_nth_same _ _ _ Hb).
    split; [reflexivity |]. split; [reflexivity |].
    split; [now apply py_getitem_nth | reflexivity].
  - rewrite (py_setitem_nth (bits x) i v (proj1 Hi)) by lia. cbn [bind].
    destruct (fromBitarray_64_order h (set_nth (bits x) (Z.to_nat i) v) name Big)
      as [y [Hy [_ Hby]]]; [now rewrite set_nth_length | exact Ho |].
    cbn [order_bytes] in Hby.
    rewrite (frombytes_tobytes 8) in Hby by (now rewrite set_nth_length).
    exists y. split; [exact Hy |]. split; [exact Hby |]. rewrite Hby.
    split; [now apply Hget |].
    intros j Hj Hne. apply py_getitem_set_nth_other; lia.
Qed.

Lemma newFromBitSet_sets_one_bit_witness :
  exists x y,
    construct Little (PyFloat 0) 64 None = Ok x /\
    newFromBitSet Little x 0 true "big-endian" = Ok y /\
    bits y = set_nth (bits x) 0 true /\
    __getitem__ y 0 = Ok true.
Proof.
  eexists.
  assert (H : construct Little (PyFloat 0) 64 None = Ok _)
    by (vm_compute; reflexivity).
  destruct (newFromBitSet_sets_one_bit Little Little _ _ _ _ 0 true
              "big-endian" H eq_refl) as [y [H1 [H2 [H3 _]]]];
    [lia | reflexivity |].
  exists y. split; [exact H |]. split; [exact H1 |]. split; [exact H2 | exact H3].
Defined.

(** ** fromString *)

Lemma round_up_bits_fuel (fuel : nat) (k : Z) :
  (- k) mod 8 < Z.of_nat fuel -> round_up_bits fuel k = k + (- k) mod 8.
Proof.
  revert k. induction fuel as [| fuel IH]; intros k Hk.
  - pose proof (Z.mod_pos_bound (- k) 8). lia.
  - cbn [round_up_bits].
    destruct (Z.eqb_spec (k mod 8) 0) as [E | E]; cbn [negb].
    + Z.div_mod_to_equations. lia.
    + rewrite IH; Z.div_mod_to_equations; lia.
Qed.

(** The loop of [fromString] rounds the bit count up to whole bytes. *)
Lemma round_up_bits_bytes (k : Z) :
  round_up_bits 8 k / 8 = (k + 7) / 8 /\
  round_up_bits 8 k = 8 * ((k + 7) / 8).
Proof.
  rewrite round_up_bits_fuel
    by (pose proof (Z.mod_pos_bound (- k) 8); change (Z.of_nat 8) with 8; lia).
  split; Z.div_mod_to_equations; lia.
Qed.

Lemma bit_length_nonneg (x : Z) : 0 <= bit_length x.
Proof.
  unfold bit_length. destruct (x =? 0); [lia |].
  pose proof (Z.log2_nonneg (Z.abs x)). lia.
Qed.

Lemma tobytes_packed_length (k x : Z) :
  0 <= k -> py_len (tobytes (bits_of_Z (Z.to_nat (8 * k)) x)) = k.
Proof.
  intros Hk. unfold py_len.
  rewrite (tobytes_length (Z.to_nat k)); [lia |].
  rewrite bits_of_Z_length. lia.
Qed.

(** For a non-negative integer, [fromString] is [int.to_bytes] to the
    least number of whole bytes followed by [fromBytes] in big-endian
    order, unless the bytes are fewer than the width's: the padding loop
    then calls [append] on a [bytes] object. *)
Lemma fromString_as_fromBytes h (s : string) (n b : Z) (bo : string) (x : Z) :
  py_int s b = Ok x ->
  0 <= x ->
  fromString h s n b false bo =
  if (bit_length x + 7) / 8 <? snap_width n / 8
  then Raise (AttributeError "'bytes' object has no attribute 'append'")
  else fromBytes h (tobytes (bits_of_Z (Z.to_nat (8 * ((bit_length x + 7) / 8))) x))
         (snap_width n) "big-endian".
Proof.
  intros Hx Hpos. unfold fromString, fromBytes. cbv zeta.
  change (bytesOrders_get h "big-endian")
    with (Ok {| order_p := ">"; order_tb := Big |}).
  cbn [bind order_tb order_p]. rewrite Hx. cbn [bind].
  fold (snap_width n).
  destruct (round_up_bits_bytes (bit_length x)) as [-> _].
  pose proof (bit_length_nonneg x) as Hbl.
  set (k := (bit_length x + 7) / 8).
  assert (Hk : 0 <= k /\ bit_length x <= 8 * k)
    by (subst k; Z.div_mod_to_equations; lia).
  unfold to_bytes.
  destruct (Z.leb_spec 0 k); [| lia].
  destruct (Z.leb_spec 0 x); [| lia].
  destruct (Z.leb_spec (bit_length x) (8 * k)); [| lia].
  cbn [bind]. rewrite tobytes_packed_length by lia.
  destruct (k <? snap_width n / 8); reflexivity.
Qed.

Lemma fromBytes_wrong_size h (buf : bytes) (n : Z) :
  py_len buf <> snap_width n / 8 ->
  fromBytes h buf (snap_width n) "big-endian"
  = Raise (StructError "unpack requires a buffer of the format's size").
Proof.
  intros Hl. unfold fromBytes.
  change (bytesOrders_get h "big-endian")
    with (Ok {| order_p := ">"; order_tb := Big |}).
  cbn [bind order_p]. revert Hl. unfold snap_width.
  destruct (n <? 32); [| destruct (n <? 63)]; intros Hl;
    match goal with
    | |- context [desc_get ?w] =>
        let d := eval vm_compute in (desc_get w) in
        change (desc_get w) with d
    end;
    cbn [bind desc_unpack]; unfold struct_unpack;
    change (struct_order h ">") with (@Ok byteorder Big); cbn [bind];
    match goal with
    | |- context [struct_size ?c] =>
        let d := eval vm_compute in (struct_size c) in
        change (struct_size c) with d
    end;
    cbn [bind];
    match goal with
    | |- context [py_len buf =? ?m] =>
        destruct (Z.eqb_spec (py_len buf) m) as [E | E];
        [exfalso; apply Hl; rewrite E; reflexivity | reflexivity]
    end.
Qed.

(** X16: the outcomes of [fromString] on a digit string that [int]
    accepts, by the integer it denotes and the snapped width W.
    A negative integer raises [OverflowError] (from [int.to_bytes]); an
    integer below [2^(W-8)], which fits in fewer bytes than the width,
    raises [AttributeError]; an integer of [2^W] or more raises
    [struct.error]; and at W = 64 an integer from [2^56] to [2^64 - 1]
    gives an instance whose 64 bits are the integer's binary digits. *)
Theorem fromString_outcome h (s : string) (n b : Z) (bo : string) (x : Z) :
  py_int s b = Ok x ->
  (x < 0 ->
   fromString h s n b false bo
   = Raise (OverflowError "can't convert negative int to unsigned")) /\
  (0 <= x < 2 ^ (snap_width n - 8) ->
   fromString h s n b false bo
   = Raise (AttributeError "'bytes' object has no attribute 'append'")) /\
  (2 ^ snap_width n <= x ->
   is_StructError (fromString h s n b false bo)) /\
  (snap_width n = 64 -> 2 ^ 56 <= x < 2 ^ 64 ->
   exists y, fromString h s n b false bo = Ok y /\
             nbits y = 64 /\ bits y = bits_of_Z 64 x).
Proof.
  intros Hx.
  assert (HW : snap_width n = 16 \/ snap_width n = 32 \/ snap_width n = 64).
  { unfold snap_width. destruct (n <? 32); [| destruct (n <? 63)]; auto. }
  pose proof (bit_length_nonneg x) as Hbl.
  split; [| split; [| split]].
  - intros Hneg. unfold fromString. cbv zeta.
    change (bytesOrders_get h "big-endian")
      with (Ok {| order_p := ">"; order_tb := Big |}).
    cbn [bind order_tb order_p]. rewrite Hx. cbn [bind].
    destruct (round_up_bits_bytes (bit_length x)) as [-> _].
    unfold to_bytes.
    destruct (Z.leb_spec 0 ((bit_length x + 7) / 8));
      [| Z.div_mod_to_equations; lia].
    destruct (Z.leb_spec 0 x); [lia | reflexivity].
  - intros [Hpos Hlt]. rewrite (fromString_as_fromBytes h s n b bo x Hx Hpos).
    assert (Hle : bit_length x <= snap_width n - 8)
      by (apply bit_length_le; [lia | rewrite Z.abs_eq by lia; exact Hlt]).
    destruct (Z.ltb_spec ((bit_length x + 7) / 8) (snap_width n / 8)) as [_ | Hge];
      [reflexivity |].
    exfalso. destruct HW as [E | [E | E]]; rewrite E in *;
      Z.div_mod_to_equations; lia.
  - intros Hge.
    assert (Hpos : 0 <= x)
      by (pose proof (Z.pow_pos_nonneg 2 (snap_width n)); lia).
    rewrite (fromString_as_fromBytes h s n b bo x Hx Hpos).
    assert (Hgt : snap_width n < bit_length x).
    { destruct (Z.le_gt_cases (bit_length x) (snap_width n)) as [Hle | Hgt];
        [| exact Hgt].
      apply bit_length_le in Hle; [| lia]. rewrite Z.abs_eq in Hle by lia. lia. }
    destruct (Z.ltb_spec ((bit_length x + 7) / 8) (snap_width n / 8)) as [Hlt | _].
    + exfalso. destruct HW as [E | [E | E]]; rewrite E in *;
        Z.div_mod_to_equations; lia.
    + eexists. apply fromBytes_wrong_size.
      rewrite tobytes_packed_length by (Z.div_mod_to_equations; lia).
      destruct HW as [E | [E | E]]; rewrite E in *;
        Z.div_mod_to_equations; lia.
  - intros E [Hlo Hhi].
    assert (Hpos : 0 <= x) by lia.
    rewrite (fromString_as_fromBytes h s n b bo x Hx Hpos), E.
    assert (Hle : bit_length x <= 64)
      by (apply bit_length_le; [lia | rewrite Z.abs_eq by lia; exact Hhi]).
    assert (Hgt : 56 < bit_length x).
    { destruct (Z.le_gt_cases (bit_length x) 56) as [H56 | Hgt]; [| exact Hgt].
      apply bit_length_le in H56; [| lia]. rewrite Z.abs_eq in H56 by lia. lia. }
    assert (Hk : (bit_length x + 7) / 8 = 8)
      by (Z.div_mod_to_equations; lia).
    rewrite Hk. change (8 <? 64 / 8) with false. cbv iota.
    change (Z.to_nat (8 * 8)) with (8 * 8)%nat.
    destruct (fromBytes_64 h (tobytes (bits_of_Z (8 * 8) x)) "big-endian" Big)
      as [y [Hy [Hn Hb]]].
    + apply (tobytes_length 8), bits_of_Z_length.
    + reflexivity.
    + exists y. split; [exact Hy |]. split; [exact Hn |].
      rewrite Hb. cbn [order_bytes]. apply (frombytes_packed 8).
Qed.

Lemma fromString_outcome_witness :
  py_int "4611686018427387904" 10 = Ok (2 ^ 62) /\
  exists y, fromString Little "4611686018427387904" 64 10 false "native" = Ok y /\
            nbits y = 64 /\ bits y = bits_of_Z 64 (2 ^ 62).
Proof.
  assert (H : py_int "4611686018427387904" 10 = Ok (2 ^ 62))
    by (vm_compute; reflexivity).
  split; [exact H |].
  apply (proj2 (proj2 (proj2
           (fromString_outcome Little "4611686018427387904" 64 10 "native"
              (2 ^ 62) H)))).
  - reflexivity.
  - split; [vm_compute; discriminate | reflexivity].
Defined.

Lemma str_slice_tail (c : ascii) (rest : string) :
  str_slice (String c rest) (Some 1) None = rest.
Proof.
  unfold str_slice. rewrite py_slice_tail. cbn [list_ascii_of_string tl].
  apply string_of_list_ascii_of_string.
Qed.

(** X17: [forcePositive] in [fromString].  In base 2 it assigns to a
    character of the string and raises [TypeError], whatever the string.
    In another base the empty string raises [IndexError]; one leading
    minus sign is removed, and only one; a string that starts otherwise
    is read as without the flag. *)
Theorem fromString_forcePositive h (n b : Z) (bo : string) :
  (forall s, fromString h s n 2 true bo
   = Raise (TypeError "'str' object does not support item assignment")) /\
  (b <> 2 ->
   fromString h "" n b true bo = Raise (IndexError "string index out of range") /\
   (forall rest,
      fromString h (String "-" rest) n b true bo
      = fromString h rest n b false bo) /\
   (forall c rest, c <> "-"%char ->
      fromString h (String c rest) n b true bo
      = fromString h (String c rest) n b false bo)).
Proof.
  split; [reflexivity |]. intros Hb.
  assert (E : (b =? 2) = false) by (apply Z.eqb_neq; exact Hb).
  split; [| split].
  - unfold fromString. cbv zeta.
    change (bytesOrders_get h "big-endian")
      with (Ok {| order_p := ">"; order_tb := Big |}).
    cbn [bind]. rewrite E. reflexivity.
  - intros rest. unfold fromString. cbv zeta.
    change (bytesOrders_get h "big-endian")
      with (Ok {| order_p := ">"; order_tb := Big |}).
    cbn [bind]. rewrite E.
    unfold str_getitem. cbn [list_ascii_of_string]. rewrite py_getitem_head.
    cbn [bind]. change (String.eqb "-" SIGN_MINUS) with true. cbv iota.
    rewrite str_slice_tail. reflexivity.
  - intros c rest Hc. unfold fromString. cbv zeta.
    change (bytesOrders_get h "big-endian")
      with (Ok {| order_p := ">"; order_tb := Big |}).
    cbn [bind]. rewrite E.
    unfold str_getitem. cbn [list_ascii_of_string]. rewrite py_getitem_head.
    cbn [bind].
    assert (En : String.eqb (String c "") SIGN_MINUS = false).
    { apply String.eqb_neq. unfold SIGN_MINUS. congruence. }
    rewrite En. reflexivity.
Qed.

Lemma fromString_forcePositive_witness :
  fromString Little "--5" 64 10 true "native"
  = fromString Little "-5" 64 10 false "native".
Proof.
  apply (proj1 (proj2 (proj2 (fromString_forcePositive Little 64 10 "native")
                         ltac:(lia)))).
Defined.

(** ** 64-bit instances and the float they are *)

Lemma seq_offset (b a : nat) :
  seq b a = map (fun i => (i + b)%nat) (seq 0 a).
Proof.
  revert b. induction a as [| a IH]; intros b; [reflexivity |].
  cbn [seq map]. f_equal. rewrite <- (seq_shift a 0), map_map, (IH (S b)).
  apply map_ext. intros i. lia.
Qed.

Lemma bits_of_Z_app (a b : nat) (z : Z) :
  bits_of_Z (a + b) z
  = bits_of_Z a (Z.shiftr z (Z.of_nat b)) ++ bits_of_Z b z.
Proof.
  unfold bits_of_Z. rewrite Nat.add_comm, seq_app, rev_app_distr, map_app.
  f_equal. cbn [Nat.add]. rewrite (seq_offset b a), <- map_rev, map_map.
  apply map_ext. intros i. rewrite Z.shiftr_spec by lia.
  f_equal. lia.
Qed.

Lemma bits_value_bits_of_Z (n : nat) (z : Z) :
  bits_value (bits_of_Z n z) = z mod 2 ^ Z.of_nat n.
Proof.
  revert z. induction n as [| n IH]; intros z.
  - cbn. now rewrite Z.mod_1_r.
  - rewrite (Z.div2_odd z) at 1.
    rewrite bits_of_Z_succ, bits_value_snoc, IH.
    rewrite Nat2Z.inj_succ, Z.pow_succ_r by lia.
    rewrite (Z.rem_mul_r z 2 (2 ^ Z.of_nat n)) by lia.
    rewrite Z.div2_div, <- Z.bit0_mod, Z.bit0_odd. lia.
Qed.

Lemma app_inj_length {A : Type} (a a' b b' : list A) :
  List.length a = List.length a' -> a ++ b = a' ++ b' -> a = a' /\ b = b'.
Proof.
  revert a'. induction a as [| x a IH]; intros [| x' a'] Hl H;
    try discriminate Hl.
  - split; [reflexivity | exact H].
  - cbn in H. injection H as -> H. injection Hl as Hl.
    destruct (IH a' Hl H) as [-> ->]. split; reflexivity.
Qed.

Lemma cons_inj {A : Type} (a a' : A) (l l' : list A) :
  a :: l = a' :: l' -> a = a' /\ l = l'.
Proof. intros H. injection H as -> ->. split; reflexivity. Qed.

(** The three fields of a 64-bit instance are the sign, exponent and
    fraction of the binary64 datum passed to the constructor. *)
Lemma fields_64 h v n third x :
  construct h v n third = Ok x ->
  nbits x = 64 ->
  rawSign x = sign_of 11 52 (float_bits v) /\
  py_len (rawExp x) = 11 /\
  py_len (rawMantissa x) = 52 /\
  bits_value (rawExp x) = exp_of 11 52 (float_bits v) /\
  bits_value (rawMantissa x) = frac_of 52 (float_bits v).
Proof.
  intros Hx Hn.
  assert (Hw : effective_width n = 64)
    by (rewrite <- (construct_nbits h v n third x Hx); exact Hn).
  destruct (construct_64 h v n third Hw) as [x' [Hx' [_ Hb]]].
  rewrite Hx in Hx'. injection Hx' as <-.
  destruct (bits_fields h v n third x Hx) as [eb [mb [Hfw [Hl [_ [He [Hm _]]]]]]].
  rewrite Hn in Hfw. injection Hfw as <- <-.
  change (64 - 1 - 11) with 52 in Hm.
  rewrite Hb in Hl.
  change 64%nat with (1 + 63)%nat in Hl. rewrite bits_of_Z_app in Hl.
  change 63%nat with (11 + 52)%nat in Hl at 2. rewrite bits_of_Z_app in Hl.
  change (bits_of_Z 1 (Z.shiftr (float_bits v) (Z.of_nat 63)))
    with [Z.testbit (Z.shiftr (float_bits v) (Z.of_nat 63)) 0] in Hl.
  cbn [app] in Hl. apply cons_inj in Hl. destruct Hl as [Hs Hl].
  apply app_inj_length in Hl;
    [| rewrite bits_of_Z_length; unfold py_len in He; lia].
  destruct Hl as [HE HM].
  split; [| split; [exact He | split; [exact Hm | split]]].
  - rewrite <- Hs, Z.shiftr_spec by lia. reflexivity.
  - rewrite <- HE, bits_value_bits_of_Z. reflexivity.
  - rewrite <- HM, bits_value_bits_of_Z. reflexivity.
Qed.

(** X18: on a 64-bit instance the classification read from the bit
    fields agrees with the float passed to the constructor: [isNaN] with
    [math.isnan], [isInfinite] with [math.isinf], [isFinite] with
    [math.isfinite], [isZero] with [== 0.0], and [isSignMinus] with the
    sign bit. *)
Theorem flags_agree_with_float h v n third x :
  construct h v n third = Ok x ->
  nbits x = 64 ->
  isNaN x = math_isnan v /\
  isInfinite x = math_isinf v /\
  isFinite x = math_isfinite v /\
  isZero x = float_eq v (PyFloat 0) /\
  isSignMinus x = float_signbit v.
Proof.
  intros Hx Hn.
  pose proof (construct_flags h v n third x Hx) as F.
  pose proof (construct_attributes h v n third x Hx) as A.
  destruct (fields_64 h v n third x Hx Hn) as [Hs [He [Hm [HE HM]]]].
  destruct (field_ranges (float_bits v)) as [Re Rm].
  unfold isNaN, isInfinite, isFinite, isZero, isSignMinus.
  rewrite (ff_finite x F), (ff_zero x F), (ff_infinity x F), (ff_NaN x F),
    (ab_sign x A).
  rewrite !ba_all_value, !ba_any_value, He, HE, HM, Hs.
  unfold math_isnan, math_isinf, math_isfinite, float_eq, float_signbit,
    decode64, decode.
  change (decode 11 52 (float_bits (PyFloat 0))) with (S754_zero false).
  cbv zeta.
  set (e := exp_of 11 52 (float_bits v)) in *.
  set (m := frac_of 52 (float_bits v)) in *.
  change (2 ^ 11 - 1) with 2047.
  clearbody e m.
  assert (Hp : exists p, 2 ^ 52 + m = Z.pos p)
    by (destruct (2 ^ 52 + m) as [| p | p] eqn:Ep; [lia | now exists p | lia]).
  destruct Hp as [p ->].
  destruct (sign_of 11 52 (float_bits v));
    destruct (Z.eqb_spec e 0) as [E0 | E0];
    destruct (Z.eqb_spec e 2047) as [E1 | E1]; try lia;
    destruct m as [| q | q]; try lia;
    repeat split; reflexivity.
Qed.

Lemma flags_agree_with_float_witness :
  exists x,
    construct Little (PyFloat 0x7FF8000000000000) 64 None = Ok x /\
    isNaN x = math_isnan (PyFloat 0x7FF8000000000000) /\
    isFinite x = math_isfinite (PyFloat 0x7FF8000000000000).
Proof.
  eexists.
  assert (H : construct Little (PyFloat 0x7FF8000000000000) 64 None = Ok _)
    by (vm_compute; reflexivity).
  destruct (flags_agree_with_float Little _ _ _ _ H eq_refl)
    as [H1 [_ [H3 _]]].
  split; [exact H | split; [exact H1 | exact H3]].
Defined.

(** ** totalOrder *)

Lemma construct_value h v n x : construct h v n None = Ok x -> value x = v.
Proof.
  intros Hx. unfold construct, __init__ in Hx. cbv zeta in Hx. bind_inv Hx.
  now injection Hx as <-.
Qed.

Lemma nan_not_finite (x : float_IEEE754) :
  flags_of_fields x -> NaN x = true -> finite x = false.
Proof.
  intros F. rewrite (ff_finite x F), (ff_zero x F), (ff_infinity x F), (ff_NaN x F).
  flag_cases x F; cbn; congruence.
Qed.

Lemma not_finite_cases (x : float_IEEE754) :
  flags_of_fields x -> finite x = false -> NaN x = false -> infinity x = true.
Proof.
  intros F. rewrite (ff_finite x F), (ff_zero x F), (ff_infinity x F), (ff_NaN x F).
  flag_cases x F; cbn; congruence.
Qed.

Lemma sign_eqb (x : float_IEEE754) :
  attributes_of_bits x ->
  String.eqb (sign x) SIGN_MINUS = rawSign x /\
  String.eqb (sign x) SIGN_PLUS = negb (rawSign x).
Proof.
  intros A. rewrite (ab_sign x A). destruct (rawSign x); split; reflexivity.
Qed.

(** X19: [totalOrder] with a NaN operand.  The result is a boolean, and
    it is [True] exactly when x is negative and y is not a NaN, or y is
    positive and x is not a NaN, or x is negative and y positive; the
    payloads and the signaling bit are not looked at.  In particular a
    NaN is never ordered below or equal to itself. *)
Theorem totalOrder_nan_operand h1 v1 n1 t1 x h2 v2 n2 t2 y :
  construct h1 v1 n1 t1 = Ok x ->
  construct h2 v2 n2 t2 = Ok y ->
  isNaN x || isNaN y = true ->
  totalOrder x y
  = Some ((isSignMinus x && negb (isNaN y))
          || (negb (isSignMinus y) && negb (isNaN x))
          || (isSignMinus x && negb (isSignMinus y))) /\
  (isNaN x = true -> totalOrder x x = Some false).
Proof.
  intros Hx Hy Hnan.
  pose proof (construct_flags _ _ _ _ _ Hx) as Fx.
  pose proof (construct_flags _ _ _ _ _ Hy) as Fy.
  destruct (sign_eqb x (construct_attributes _ _ _ _ _ Hx)) as [Mx Px].
  destruct (sign_eqb y (construct_attributes _ _ _ _ _ Hy)) as [My Py].
  unfold isNaN, isSignMinus in *.
  assert (Hfin : forall a b : float_IEEE754,
             flags_of_fields a -> flags_of_fields b ->
             NaN a || NaN b = true -> finite a && finite b = false).
  { intros a b Fa Fb H. apply orb_true_iff in H. destruct H as [H | H].
    - now rewrite (nan_not_finite a Fa H).
    - rewrite (nan_not_finite b Fb H). apply andb_false_r. }
  split.
  - unfold totalOrder, totalOrder_NaN. cbv zeta.
    rewrite (Hfin x y Fx Fy Hnan), Hnan, Mx, My, Px, Py.
    destruct (rawSign x), (rawSign y), (NaN x), (NaN y); reflexivity.
  - intros H. unfold totalOrder, totalOrder_NaN. cbv zeta.
    rewrite (Hfin x x Fx Fx) by (now rewrite H).
    rewrite H, Mx, Px. destruct (rawSign x); reflexivity.
Qed.

Lemma totalOrder_nan_operand_witness :
  exists x y,
    construct Little (PyFloat 0x7FF8000000000000) 64 None = Ok x /\
    construct Little (PyFloat 0x3FF0000000000000) 64 None = Ok y /\
    totalOrder x y = Some false /\
    totalOrder x x = Some false.
Proof.
  eexists. eexists.
  assert (Hx : construct Little (PyFloat 0x7FF8000000000000) 64 None = Ok _)
    by (vm_compute; reflexivity).
  assert (Hy : construct Little (PyFloat 0x3FF0000000000000) 64 None = Ok _)
    by (vm_compute; reflexivity).
  split; [exact Hx |]. split; [exact Hy |].
  destruct (totalOrder_nan_operand _ _ _ _ _ _ _ _ _ _ Hx Hy eq_refl)
    as [H1 H2].
  split; [exact H1 | exact (H2 eq_refl)].
Defined.

(** The two comparisons of finite numbers are opposite, and equal
    numbers have the same sign, digits and exponent. *)
Lemma SFcompare_finite (s1 s2 : bool) (p1 p2 : positive) (q1 q2 : Z) :
  exists c,
    SFcompare (S754_finite s1 p1 q1) (S754_finite s2 p2 q2) = Some c /\
    SFcompare (S754_finite s2 p2 q2) (S754_finite s1 p1 q1) = Some (CompOpp c) /\
    (c = Eq -> s1 = s2 /\ p1 = p2 /\ q1 = q2).
Proof.
  cbn [SFcompare]. eexists. split; [reflexivity |].
  rewrite (Z.compare_antisym q1 q2).
  pose proof (Pos.compare_cont_antisym p1 p2 Eq) as Hanti.
  cbn [CompOpp] in Hanti. rewrite <- Hanti. clear Hanti.
  destruct (Z.compare_spec q1 q2) as [Hq | Hq | Hq]; cbn [CompOpp];
    destruct (Pos.compare_cont Eq p1 p2) eqn:Hp;
    destruct s1, s2; cbn [CompOpp];
    (split; [reflexivity |]); intros Hc; try discriminate Hc;
    apply Pos.compare_eq in Hp; subst; repeat split.
Qed.

(** The float of a finite, nonzero 64-bit instance. *)
Lemma decode_finite_64 h v n third x :
  construct h v n third = Ok x ->
  nbits x = 64 ->
  finite x = true ->
  zero x = false ->
  exists p q,
    decode64 v = S754_finite (rawSign x) p q /\
    (intRawExp x = 0 /\ q = -1074 /\ Z.pos p < 2 ^ 52 \/
     1 <= intRawExp x /\ q = intRawExp x - 1075 /\ 2 ^ 52 <= Z.pos p) /\
    exp x = intRawExp x - 1022.
Proof.
  intros Hx Hn Hfin Hz.
  pose proof (construct_flags h v n third x Hx) as F.
  pose proof (construct_attributes h v n third x Hx) as A.
  destruct (fields_64 h v n third x Hx Hn) as [Hs [He [Hm [HE HM]]]].
  destruct (field_ranges (float_bits v)) as [Re Rm].
  destruct (bits_fields h v n third x Hx) as [eb [mb [Hfw [_ [_ [_ [_ Hde]]]]]]].
  rewrite Hn in Hfw. injection Hfw as <- <-.
  assert (Hinf : infinity x = false /\ NaN x = false).
  { revert Hfin Hz.
    rewrite (ff_finite x F), (ff_zero x F), (ff_infinity x F), (ff_NaN x F).
    flag_cases x F; cbn; intros; try discriminate; split; reflexivity. }
  destruct Hinf as [Hinf Hnan].
  rewrite (ab_exp x A), Hinf, Hnan, Hz, (ab_expBias x A), Hde,
    (ab_intRawExp x A), HE.
  cbn [orb]. change (2 ^ (11 - 1) - 1) with 1023.
  revert Hz Hinf Hnan.
  rewrite (ff_zero x F), (ff_infinity x F), (ff_NaN x F).
  rewrite !ba_all_value, !ba_any_value, He, HE, HM, Hs.
  unfold decode64, decode. cbv zeta.
  change (3 - fmt_emax 11 - fmt_prec 52) with (-1074).
  change (fmt_emax 11) with 1024. change (fmt_prec 52) with 53.
  change (2 ^ 11 - 1) with 2047.
  set (e := exp_of 11 52 (float_bits v)) in *.
  set (m := frac_of 52 (float_bits v)) in *.
  clearbody e m.
  assert (Hp : exists p, 2 ^ 52 + m = Z.pos p)
    by (destruct (2 ^ 52 + m) as [| p | p] eqn:Ep; [lia | now exists p | lia]).
  destruct Hp as [p Hp]. rewrite Hp.
  destruct (Z.eqb_spec e 0) as [E0 | E0];
    destruct (Z.eqb_spec e 2047) as [E1 | E1]; try lia;
    destruct (Z.eqb_spec m 0) as [M0 | M0]; cbn [andb negb];
    intros Hz Hinf Hnan; try discriminate.
  - destruct m as [| r | r]; try lia.
    exists r, (-1074). split; [reflexivity |]. split; [left | ]; lia.
  - exists p, (e - 1024 - 53 + 2). split; [reflexivity |].
    split; [right |]; lia.
  - exists p, (e - 1024 - 53 + 2). split; [reflexivity |].
    split; [right |]; lia.
Qed.

Lemma totalOrder_finite_nonzero h1 vx n1 x h2 vy n2 y :
  construct h1 vx n1 None = Ok x ->
  construct h2 vy n2 None = Ok y ->
  nbits x = 64 -> nbits y = 64 ->
  finite x = true -> finite y = true ->
  zero x = false -> zero y = false ->
  totalOrder x y = Some (negb (float_gt vx vy)).
Proof.
  intros Hx Hy Nx Ny Fx Fy Zx Zy.
  destruct (decode_finite_64 _ _ _ _ _ Hx Nx Fx Zx) as [p1 [q1 [D1 [R1 X1]]]].
  destruct (decode_finite_64 _ _ _ _ _ Hy Ny Fy Zy) as [p2 [q2 [D2 [R2 X2]]]].
  pose proof (construct_attributes _ _ _ _ _ Hx) as Ax.
  pose proof (construct_attributes _ _ _ _ _ Hy) as Ay.
  destruct (ab_signed x Ax) as [_ [_ [_ [_ [_ [PZx _]]]]]].
  destruct (ab_signed y Ay) as [_ [_ [_ [_ [NZy _]]]]].
  unfold totalOrder. cbv zeta.
  rewrite Fx, Fy, Zx, Zy, (construct_value _ _ _ _ Hx),
    (construct_value _ _ _ _ Hy).
  cbn [andb negb].
  unfold float_lt, float_gt, float_eq, SFltb, SFeqb. rewrite D1, D2.
  destruct (SFcompare_finite (rawSign x) (rawSign y) p1 p2 q1 q2)
    as [c [C1 [C2 Ceq]]].
  rewrite C1, C2.
  destruct c; cbn [CompOpp negb]; try reflexivity.
  destruct (Ceq eq_refl) as [Es [Ep Eq']].
  rewrite Zx in PZx. rewrite Zy in NZy. cbn [andb] in PZx, NZy.
  rewrite PZx, NZy. cbn [andb].
  assert (Ex : exp x = exp y) by (rewrite Ep, Eq' in R1; lia).
  rewrite Ex, Z.geb_leb, Z.leb_refl.
  destruct (String.eqb (sign x) SIGN_MINUS && String.eqb (sign y) SIGN_MINUS);
    reflexivity.
Qed.

(** X20: [totalOrder] on two finite 64-bit instances.  When neither is a
    zero the result is [x <= y] on the floats.  When either is a zero the
    floats are not compared: the result is [False] for +0 against -0 and
    [True] otherwise, whatever the other operand. *)
Theorem totalOrder_finite h1 vx n1 x h2 vy n2 y :
  construct h1 vx n1 None = Ok x ->
  construct h2 vy n2 None = Ok y ->
  nbits x = 64 -> nbits y = 64 ->
  isFinite x = true -> isFinite y = true ->
  totalOrder x y
  = Some (if isZero x || isZero y
          then negb (positiveZero x && negativeZero y)
          else negb (float_gt vx vy)).
Proof.
  unfold isFinite, isZero. intros Hx Hy Nx Ny Fx Fy.
  destruct (zero x || zero y) eqn:Ez.
  - unfold totalOrder. cbv zeta. rewrite Fx, Fy. cbn [andb].
    replace (negb (zero x) && negb (zero y)) with false
      by (destruct (zero x), (zero y); try reflexivity; discriminate Ez).
    destruct (positiveZero x && negativeZero y); reflexivity.
  - apply orb_false_iff in Ez. destruct Ez as [Zx Zy].
    now apply (totalOrder_finite_nonzero h1 vx n1 x h2 vy n2 y).
Qed.

Lemma totalOrder_finite_witness :
  exists x y,
    construct Little (PyFloat 0x3FF0000000000000) 64 None = Ok x /\
    construct Little (PyFloat 0) 64 None = Ok y /\
    totalOrder x y = Some true /\
    float_gt (PyFloat 0x3FF0000000000000) (PyFloat 0) = true.
Proof.
  eexists. eexists.
  assert (Hx : construct Little (PyFloat 0x3FF0000000000000) 64 None = Ok _)
    by (vm_compute; reflexivity).
  assert (Hy : construct Little (PyFloat 0) 64 None = Ok _)
    by (vm_compute; reflexivity).
  split; [exact Hx |]. split; [exact Hy |].
  split; [| reflexivity].
  exact (totalOrder_finite _ _ _ _ _ _ _ _ Hx Hy eq_refl eq_refl eq_refl eq_refl).
Defined.

(** X21: on 64-bit instances [totalOrder] ends without a [return], and
    yields [None], exactly when an operand is infinite and neither is a
    NaN: this includes the comparison of two infinities. *)
Theorem totalOrder_None h1 vx n1 x h2 vy n2 y :
  construct h1 vx n1 None = Ok x ->
  construct h2 vy n2 None = Ok y ->
  nbits x = 64 -> nbits y = 64 ->
  (totalOrder x y = None <->
   (isInfinite x = true \/ isInfinite y = true) /\
   isNaN x = false /\ isNaN y = false).
Proof.
  unfold isInfinite, isNaN. intros Hx Hy Nx Ny.
  pose proof (construct_flags _ _ _ _ _ Hx) as Fx.
  pose proof (construct_flags _ _ _ _ _ Hy) as Fy.
  destruct (NaN x) eqn:Nanx; [| destruct (NaN y) eqn:Nany].
  - split; [| intros [_ [H _]]; discriminate H].
    unfold totalOrder, totalOrder_NaN. cbv zeta.
    rewrite (nan_not_finite x Fx Nanx), Nanx. cbn [andb orb].
    repeat match goal with |- context [if ?b then _ else _] => destruct b end;
      discriminate.
  - split; [| intros [_ [_ H]]; discriminate H].
    unfold totalOrder, totalOrder_NaN. cbv zeta.
    rewrite (nan_not_finite y Fy Nany), Nany, andb_false_r, orb_true_r.
    repeat match goal with |- context [if ?b then _ else _] => destruct b end;
      discriminate.
  - destruct (finite x) eqn:Finx; [destruct (finite y) eqn:Finy |].
    + split.
      * intros H. exfalso. revert H.
        destruct (zero x || zero y) eqn:Ez.
        -- unfold totalOrder. cbv zeta. rewrite Finx, Finy. cbn [andb].
           replace (negb (zero x) && negb (zero y)) with false
             by (destruct (zero x), (zero y); try reflexivity; discriminate Ez).
           destruct (positiveZero x && negativeZero y); discriminate.
        -- apply orb_false_iff in Ez. destruct Ez as [Zx Zy].
           rewrite (totalOrder_finite_nonzero h1 vx n1 x h2 vy n2 y);
             try assumption. discriminate.
      * intros [[H | H] _].
        -- rewrite (infinite_not_finite x Fx H) in Finx. discriminate Finx.
        -- rewrite (infinite_not_finite y Fy H) in Finy. discriminate Finy.
    + split.
      * intros _. split; [| split; reflexivity].
        right. now apply not_finite_cases.
      * intros _. unfold totalOrder, totalOrder_NaN. cbv zeta.
        rewrite Finx, Finy, Nanx, Nany. reflexivity.
    + split.
      * intros _. split; [| split; reflexivity].
        left. now apply not_finite_cases.
      * intros _. unfold totalOrder, totalOrder_NaN. cbv zeta.
        rewrite Finx, Nanx, Nany. reflexivity.
Qed.

Lemma totalOrder_None_witness :
  exists x,
    construct Little (PyFloat 0x7FF0000000000000) 64 None = Ok x /\
    totalOrder x x = None.
Proof.
  eexists.
  assert (Hx : construct Little (PyFloat 0x7FF0000000000000) 64 None = Ok _)
    by (vm_compute; reflexivity).
  split; [exact Hx |].
  apply (proj2 (totalOrder_None _ _ _ _ _ _ _ _ Hx Hx eq_refl eq_refl)).
  split; [left; reflexivity | split; reflexivity].
Defined.

(** ** Binary digit strings *)

Lemma is_space_bit_char (b : bool) : is_space (bit_char b) = false.
Proof. destruct b; reflexivity. Qed.

Lemma lstrip_bits (l : bitarray) : lstrip (map bit_char l) = map bit_char l.
Proof.
  destruct l as [| b l]; [reflexivity |].
  cbn [map lstrip]. now rewrite is_space_bit_char.
Qed.

Lemma strip_bits (l : bitarray) : strip (map bit_char l) = map bit_char l.
Proof.
  unfold strip. rewrite lstrip_bits, <- map_rev, lstrip_bits, <- map_rev.
  now rewrite rev_involutive.
Qed.

Lemma bits_value_from (l : bitarray) (acc : Z) :
  fold_left (fun a (b : bool) => 2 * a + Z.b2z b) l acc
  = acc * 2 ^ py_len l + bits_value l.
Proof.
  induction l as [| b l IH] using rev_ind; [cbn; lia |].
  rewrite fold_left_app, bits_value_snoc, py_len_snoc, IH.
  rewrite Z.pow_add_r by (unfold py_len; lia). cbn [fold_left]. lia.
Qed.

Lemma bits_value_app (a b : bitarray) :
  bits_value (a ++ b) = bits_value a * 2 ^ py_len b + bits_value b.
Proof.
  unfold bits_value at 1. rewrite fold_left_app.
  fold (bits_value a). apply bits_value_from.
Qed.

Lemma parse_digits_bits (l : bitarray) (acc : Z) (after_digit : bool) :
  parse_digits 2 (map bit_char l) acc after_digit
  = match l with
    | [] => if after_digit then Some acc else None
    | _ => Some (fold_left (fun a (b : bool) => 2 * a + Z.b2z b) l acc)
    end.
Proof.
  revert acc after_digit. induction l as [| b l IH]; intros acc ad;
    [reflexivity |].
  cbn [map parse_digits].
  replace (Ascii.eqb (bit_char b) "_") with false by (destruct b; reflexivity).
  replace (digit_val (bit_char b)) with (Some (Z.b2z b))
    by (destruct b; reflexivity).
  replace (Z.b2z b <? 2) with true by (destruct b; reflexivity).
  rewrite IH. cbn [fold_left]. rewrite (Z.mul_comm acc 2).
  destruct l; reflexivity.
Qed.

(** [int(s, 2)] on a nonempty string of binary digits is the number the
    digits denote. *)
Lemma py_int_bits_string (l : bitarray) :
  l <> [] -> py_int (bits_string l) 2 = Ok (bits_value l).
Proof.
  intros Hl. unfold py_int, bits_string.
  change ((2 =? 0) || (2 <=? 2) && (2 <=? 36)) with true. cbv iota.
  rewrite list_ascii_of_string_of_list_ascii, strip_bits.
  destruct l as [| b l]; [congruence |]. cbn [map].
  replace (Ascii.eqb (bit_char b) "-") with false by (destruct b; reflexivity).
  replace (Ascii.eqb (bit_char b) "+") with false by (destruct b; reflexivity).
  assert (Hp : split_prefix 2 (bit_char b :: map bit_char l) = None).
  { unfold split_prefix.
    destruct l as [| c l]; [reflexivity |]. cbn [map].
    replace (prefix_base (bit_char c)) with (@None Z)
      by (destruct c; reflexivity).
    destruct (Ascii.eqb (bit_char b) "0"); reflexivity. }
  unfold exceeds_digit_limit, parse_magnitude. rewrite Hp.
  change (negb (power_of_two (if 2 =? 0 then 10 else 2))) with false.
  cbn [andb negb bind]. change (2 =? 0) with false. cbv iota.
  change (bit_char b :: map bit_char l) with (map bit_char (b :: l)).
  rewrite parse_digits_bits. reflexivity.
Qed.

(** X22: [fromString] on 64 binary digits, with a width of 63 or more.
    When one of the first eight digits is ['1'] the result is the
    instance whose bit array is the digits.  When the first eight digits
    are all ['0'] the integer fits in fewer than eight bytes and the call
    raises [AttributeError]: such a pattern cannot be read. *)
Theorem fromString_binary_digits h (l : bitarray) (n : Z) (bo : string) :
  List.length l = 64%nat ->
  63 <= n ->
  (ba_any (firstn 8 l) = true ->
   exists y, fromString h (bits_string l) n 2 false bo = Ok y /\
             nbits y = 64 /\ bits y = l) /\
  (ba_any (firstn 8 l) = false ->
   fromString h (bits_string l) n 2 false bo
   = Raise (AttributeError "'bytes' object has no attribute 'append'")).
Proof.
  intros Hlen Hn.
  assert (Hne : l <> []) by (intros ->; discriminate Hlen).
  pose proof (py_int_bits_string l Hne) as Hint.
  assert (HW : snap_width n = 64).
  { unfold snap_width. destruct (Z.ltb_spec n 32); [lia |].
    destruct (Z.ltb_spec n 63); [lia | reflexivity]. }
  pose proof (bits_value_bounds l) as [Hlo Hhi].
  unfold py_len in Hhi. rewrite Hlen in Hhi. change (Z.of_nat 64) with 64 in Hhi.
  rewrite (fromString_as_fromBytes h (bits_string l) n 2 bo
             (bits_value l) Hint Hlo), HW.
  pose proof (bit_length_nonneg (bits_value l)) as Hbl.
  assert (Hle : bit_length (bits_value l) <= 64)
    by (apply bit_length_le; [lia | rewrite Z.abs_eq by lia; exact Hhi]).
  assert (Hsplit : bits_value l
                   = bits_value (firstn 8 l) * 2 ^ 56 + bits_value (skipn 8 l)).
  { rewrite <- (firstn_skipn 8 l) at 1. rewrite bits_value_app.
    unfold py_len. rewrite length_skipn, Hlen. reflexivity. }
  pose proof (bits_value_bounds (firstn 8 l)) as [Hhlo _].
  pose proof (bits_value_bounds (skipn 8 l)) as [Htlo Hthi].
  unfold py_len in Hthi. rewrite length_skipn, Hlen in Hthi.
  change (Z.of_nat (64 - 8)) with 56 in Hthi.
  rewrite ba_any_value. split; intros Hany.
  - apply negb_true_iff, Z.eqb_neq in Hany.
    assert (Hgt : 56 < bit_length (bits_value l)).
    { destruct (Z.le_gt_cases (bit_length (bits_value l)) 56) as [H56 | Hgt];
        [| exact Hgt].
      apply bit_length_le in H56; [| lia].
      rewrite Z.abs_eq in H56 by lia. nia. }
    assert (Hk : (bit_length (bits_value l) + 7) / 8 = 8)
      by (Z.div_mod_to_equations; lia).
    rewrite Hk. change (8 <? 64 / 8) with false. cbv iota.
    change (Z.to_nat (8 * 8)) with (8 * 8)%nat.
    destruct (fromBytes_64 h (tobytes (bits_of_Z (8 * 8) (bits_value l)))
                "big-endian" Big) as [y [Hy [Hny Hb]]].
    + apply (tobytes_length 8), bits_of_Z_length.
    + reflexivity.
    + exists y. split; [exact Hy |]. split; [exact Hny |].
      rewrite Hb. cbn [order_bytes]. rewrite (frombytes_packed 8).
      change (8 * 8)%nat with 64%nat. rewrite <- Hlen.
      apply bits_of_Z_bits_value.
  - apply negb_false_iff, Z.eqb_eq in Hany.
    assert (H56 : bit_length (bits_value l) <= 56)
      by (apply bit_length_le; [lia | rewrite Z.abs_eq by lia; lia]).
    destruct (Z.ltb_spec ((bit_length (bits_value l) + 7) / 8) (64 / 8))
      as [_ | Hge]; [reflexivity |].
    exfalso. Z.div_mod_to_equations. lia.
Qed.

Lemma fromString_binary_digits_witness :
  exists y,
    fromString Little (bits_string (bits_of_Z 64 0x3FF0000000000000)) 64 2
      false "native" = Ok y /\
    nbits y = 64 /\ bits y = bits_of_Z 64 0x3FF0000000000000.
Proof.
  apply (proj1 (fromString_binary_digits Little
                  (bits_of_Z 64 0x3FF0000000000000) 64 "native"
                  eq_refl ltac:(lia))).
  reflexivity.
Defined.

(** ** Round trip through the bit array *)

(** [__init__] packs with the network byte order, whatever the host. *)
Lemma init_host h h' (s v : pyfloat) (n b : Z) :
  __init__ h s v n b = __init__ h' s v n b.
Proof. destruct h, h'; reflexivity. Qed.

(** X23: round trip through the bit array.  For a 64-bit instance built
    from a float, [fromBitarray] on its bit array with a big-endian byte
    order gives the instance back, attribute by attribute. *)
Theorem fromBitarray_round_trip h h' (v : pyfloat) (n : Z) (x : float_IEEE754)
    (name : string) :
  construct h v n None = Ok x ->
  nbits x = 64 ->
  0 <= float_bits v < 2 ^ 64 ->
  byteOrder_endianness h' name = Some Big ->
  fromBitarray h' (bits x) name = Ok x.
Proof.
  intros Hx Hn Hv Ho.
  assert (Hw : effective_width n = 64)
    by (rewrite <- (construct_nbits h v n None x Hx); exact Hn).
  destruct (construct_64 h v n None Hw) as [x' [Hx' [_ Hb]]].
  rewrite Hx in Hx'. injection Hx' as <-.
  destruct (byteOrder_endianness_get h' name Big Ho) as [od [Hod Hso]].
  unfold fromBitarray, fromBytes. rewrite Hod. cbn [bind].
  rewrite Hb. unfold py_len. rewrite bits_of_Z_length.
  change (Z.of_nat 64) with 64.
  change (desc_get 64)
    with (Ok {| desc_pack := "Q"; desc_unpack := "d"; desc_e := 11 |}).
  cbn [bind desc_unpack].
  rewrite (struct_unpack_d h' (order_p od) Big _ Hso)
    by (apply (tobytes_length 8), bits_of_Z_length).
  cbn [bind order_bytes].
  rewrite (frombytes_packed 8). change (8 * 8)%nat with 64%nat.
  rewrite bits_value_bits_of_Z. change (Z.of_nat 64) with 64.
  rewrite Z.mod_small by exact Hv.
  replace (PyFloat (float_bits v)) with v by (destruct v; reflexivity).
  rewrite <- Hx. unfold construct. cbn [__new__].
  rewrite <- Hw, init_effective_width. apply init_host.
Qed.

Lemma fromBitarray_round_trip_witness :
  exists x,
    construct Little (PyFloat 0xC008000000000000) 64 None = Ok x /\
    fromBitarray Little (bits x) "network" = Ok x.
Proof.
  eexists.
  assert (H : construct Little (PyFloat 0xC008000000000000) 64 None = Ok _)
    by (vm_compute; reflexivity).
  split; [exact H |].
  apply (fromBitarray_round_trip Little Little _ 64 _ "network" H eq_refl).
  - cbn [float_bits]. lia.
  - reflexivity.
Defined.
